(** * The catalog assistant's request handler (src/app/api/chat/route.ts)

    A shallow embedding of the handler's four functions
    ([extractProductInfo], [generatePlatformListing], [analyzeMessage],
    [POST]) together with the part of the JavaScript run time they call
    (strings as UTF-16 code units, the backtracking regular-expression
    matcher, binary64 numbers, [Date.now]), and of the page's send handler
    that calls [POST] (src/app/page.tsx), followed by the properties of the
    listing pipeline. *)

From Stdlib Require Import ZArith NArith Ascii String SpecFloat Lia DecimalPos.
From stdpp Require Import gmap list strings.

Local Open Scope N_scope.

(** ** JavaScript strings

    A string value is a finite sequence of UTF-16 code units. *)

Abbreviation jsstring := (list N).

(** String literals of the source.  The two-character escape [\n] stands
    for a line feed, as it does in the source's literals. *)
Fixpoint lit (s : string) : jsstring :=
  match s with
  | EmptyString => []
  | String a r =>
      match a, r with
      | "\"%char, String "n"%char r' => 10 :: lit r'
      | _, _ => N_of_ascii a :: lit r
      end
  end.

Definition dquote : jsstring := [34].

(** WhiteSpace and LineTerminator code units: what [\s] matches and what
    [String.prototype.trim] strips. *)
Definition is_line_terminator (c : N) : bool :=
  (c =? 10) || (c =? 13) || (c =? 8232) || (c =? 8233).

Definition is_ws (c : N) : bool :=
  ((9 <=? c) && (c <=? 13)) || (c =? 32) || (c =? 160) || (c =? 5760)
  || ((8192 <=? c) && (c <=? 8202)) || (c =? 8232) || (c =? 8233)
  || (c =? 8239) || (c =? 8287) || (c =? 12288) || (c =? 65279).

Definition is_digit (c : N) : bool := (48 <=? c) && (c <=? 57).

Fixpoint trimStart (s : jsstring) : jsstring :=
  match s with
  | c :: t => if is_ws c then trimStart t else s
  | [] => []
  end.

Definition trim (s : jsstring) : jsstring :=
  rev (trimStart (rev (trimStart s))).

(** [toLowerCase] is only ever followed by [includes] tests against ASCII
    keywords.  Besides A-Z, the only code units whose lower-case mapping
    contains an ASCII letter are U+0130 (to i, U+0307) and U+212A (to k);
    every other code unit is mapped outside ASCII by the built-in and is
    kept as it is here, which leaves every such test unchanged. *)
Definition lower_unit (c : N) : jsstring :=
  if (65 <=? c) && (c <=? 90) then [c + 32]
  else if c =? 304 then [105; 775]
  else if c =? 8490 then [107]
  else [c].

Definition toLowerCase (s : jsstring) : jsstring := flat_map lower_unit s.

(** [toUpperCase] is applied to the four platform identifiers only, which
    are lower-case ASCII words. *)
Definition upper_unit (c : N) : N :=
  if (97 <=? c) && (c <=? 122) then c - 32 else c.

Definition toUpperCase (s : jsstring) : jsstring := map upper_unit s.

Fixpoint startsWith (s p : jsstring) : bool :=
  match p, s with
  | [], _ => true
  | a :: p', b :: s' => (a =? b) && startsWith s' p'
  | _ :: _, [] => false
  end.

Fixpoint includes (s sub : jsstring) : bool :=
  startsWith s sub
  || match s with
     | [] => false
     | _ :: t => includes t sub
     end.

Fixpoint join (sep : jsstring) (l : list jsstring) : jsstring :=
  match l with
  | [] => []
  | [x] => x
  | x :: r => x ++ sep ++ join sep r
  end.

(** [s.split(d)] for a one-unit separator [d]. *)
Fixpoint split (d : N) (s : jsstring) : list jsstring :=
  match s with
  | [] => [[]]
  | c :: t =>
      if c =? d then [] :: split d t
      else match split d t with
           | h :: r => (c :: h) :: r
           | [] => [[c]]
           end
  end.

(** [s.replace(/\s+/g, '_')]: every maximal run of white space becomes one
    underscore. *)
Fixpoint replace_ws_runs (in_run : bool) (s : jsstring) : jsstring :=
  match s with
  | [] => []
  | c :: t =>
      if is_ws c then
        if in_run then replace_ws_runs true t else 95 :: replace_ws_runs true t
      else c :: replace_ws_runs false t
  end.

(** Decimal digits of an integer, as a template literal prints it. *)
Fixpoint uint_units (d : Decimal.uint) : jsstring :=
  match d with
  | Decimal.Nil => []
  | Decimal.D0 r => 48 :: uint_units r
  | Decimal.D1 r => 49 :: uint_units r
  | Decimal.D2 r => 50 :: uint_units r
  | Decimal.D3 r => 51 :: uint_units r
  | Decimal.D4 r => 52 :: uint_units r
  | Decimal.D5 r => 53 :: uint_units r
  | Decimal.D6 r => 54 :: uint_units r
  | Decimal.D7 r => 55 :: uint_units r
  | Decimal.D8 r => 56 :: uint_units r
  | Decimal.D9 r => 57 :: uint_units r
  end.

Definition decimal (n : N) : jsstring := uint_units (N.to_uint n).

Definition decimalZ (z : Z) : jsstring :=
  match z with
  | Zneg p => 45 :: decimal (Npos p)
  | _ => decimal (Z.to_N z)
  end.

(** ** Regular expressions

    The constructs the source's ten patterns are written with.  Every
    quantified atom of the source is a one-unit class ([[\s:]+], [.+?],
    [\s*], [\d+]) or an optional group, so repetition is over classes. *)
Module Regex.

Inductive regex : Type :=
  | Chars (l : jsstring)                 (* literal text *)
  | Class (c : N -> bool)                (* one unit of a class *)
  | Alt (a b : regex)                    (* a|b *)
  | Seq (a b : regex)                    (* ab *)
  | Plus (greedy : bool) (c : N -> bool) (* c+ and c+? *)
  | Star (greedy : bool) (c : N -> bool) (* c* and c*? *)
  | Opt (a : regex)                      (* (?:a)? *)
  | Group (a : regex)                    (* (a), capture 1 *)
  | End.                                 (* $ without the m flag *)

(** Canonicalize of the [i] flag (no [u] flag), on the code units that can
    meet a pattern character of the source: ASCII letters, and U+00E2 whose
    upper case is U+00C2.  A non-ASCII unit never canonicalizes into ASCII. *)
Definition canonicalize (c : N) : N :=
  if (97 <=? c) && (c <=? 122) then c - 32
  else if c =? 226 then 194
  else c.

(** Strip the literal [l], compared under the [i] flag, from the front of
    [s]. *)
Fixpoint strip (l s : jsstring) : option jsstring :=
  match l, s with
  | [], _ => Some s
  | a :: l', b :: s' =>
      if canonicalize a =? canonicalize b then strip l' s' else None
  | _ :: _, [] => None
  end.

(** The result of a match attempt: the text of capture 1, if it took part. *)
Definition result : Type := option (option jsstring).

Definition cont : Type := jsstring -> option jsstring -> result.

(** Greedy repetition tries the longest run first and gives units back;
    lazy repetition tries the continuation first and takes units one at a
    time. *)
Fixpoint rep_greedy (c : N -> bool) (s : jsstring) (k : jsstring -> result)
  : result :=
  match s with
  | x :: s' =>
      if c x then
        match rep_greedy c s' k with
        | Some r => Some r
        | None => k s
        end
      else k s
  | [] => k []
  end.

Fixpoint rep_lazy (c : N -> bool) (s : jsstring) (k : jsstring -> result)
  : result :=
  match k s with
  | Some r => Some r
  | None =>
      match s with
      | x :: s' => if c x then rep_lazy c s' k else None
      | [] => None
      end
  end.

Definition rep (greedy : bool) := if greedy then rep_greedy else rep_lazy.

(** The text between a position [s] and a later position [s'] (both given
    as the remaining input). *)
Definition consumed (s s' : jsstring) : jsstring :=
  take (length s - length s') s.

(** Backtracking matcher, in continuation-passing style: [exec r s cap k]
    matches [r] at the front of [s] and hands the remaining input and the
    capture to [k]; alternatives are tried left to right. *)
Fixpoint exec (r : regex) (s : jsstring) (cap : option jsstring) (k : cont)
  : result :=
  match r with
  | Chars l =>
      match strip l s with
      | Some s' => k s' cap
      | None => None
      end
  | Class c =>
      match s with
      | x :: s' => if c x then k s' cap else None
      | [] => None
      end
  | Alt a b =>
      match exec a s cap k with
      | Some res => Some res
      | None => exec b s cap k
      end
  | Seq a b => exec a s cap (fun s' cap' => exec b s' cap' k)
  | Plus g c =>
      match s with
      | x :: s' => if c x then rep g c s' (fun s'' => k s'' cap) else None
      | [] => None
      end
  | Star g c => rep g c s (fun s'' => k s'' cap)
  | Opt a =>
      match exec a s cap
              (fun s' cap' =>
                 if (length s' =? length s)%nat then None else k s' cap') with
      | Some res => Some res
      | None => k s cap
      end
  | Group a => exec a s cap (fun s' _ => k s' (Some (consumed s s')))
  | End =>
      match s with
      | [] => k [] cap
      | _ :: _ => None
      end
  end.

(** One match attempt at the front of [s]. *)
Definition match_here (r : regex) (s : jsstring) : result :=
  exec r s None (fun _ cap => Some cap).

(** [s.match(r)] for a pattern without the [g] flag: the attempt is made at
    every start index from 0 to the length of [s], leftmost success wins. *)
Fixpoint search (r : regex) (s : jsstring) : result :=
  match match_here r s with
  | Some res => Some res
  | None =>
      match s with
      | [] => None
      | _ :: t => search r t
      end
  end.

(** No attempt that starts inside [pre] succeeds on [pre ++ s]. *)
Fixpoint no_match_before (r : regex) (pre s : jsstring) : bool :=
  match pre with
  | [] => true
  | x :: p =>
      match match_here r (x :: p ++ s) with
      | Some _ => false
      | None => no_match_before r p s
      end
  end.

End Regex.

Import Regex.

(** ** The extractor (route.ts, lines 27-53) *)

(** [[\s:]] and [.] (no [s] flag: every unit but a line terminator). *)
Definition sep (c : N) : bool := is_ws c || (c =? 58).
Definition dot (c : N) : bool := negb (is_line_terminator c).

Definition word (s : string) : regex := Chars (lit s).

(** [[\s:]+(.+?)(?:\n|$)], the tail shared by the rest-of-line patterns. *)
Definition rest_of_line : regex :=
  Seq (Plus true sep)
      (Seq (Group (Plus false dot)) (Alt (word "\n") End)).

Definition pat_name : regex :=
  Seq (Alt (word "product name") (Alt (word "name") (word "title")))
      rest_of_line.

Definition pat_brand : regex :=
  Seq (Alt (word "brand") (word "manufacturer")) rest_of_line.

(** [(?:price|selling price|mrp)[\s:]+(?:rs\.?|...)?\s*(\d+(?:\.\d+)?)]; the
    second currency marker is, in the source file, the three code units
    U+00E2 U+201A U+00B9. *)
Definition pat_price : regex :=
  Seq (Alt (word "price") (Alt (word "selling price") (word "mrp")))
      (Seq (Plus true sep)
           (Seq (Opt (Alt (Seq (word "rs") (Opt (word ".")))
                          (Chars [226; 8218; 185])))
                (Seq (Star true is_ws)
                     (Group (Seq (Plus true is_digit)
                                 (Opt (Seq (word ".") (Plus true is_digit)))))))).

Definition pat_category : regex :=
  Seq (Alt (word "category") (word "type")) rest_of_line.

(** [(?:description|details)[\s:]+(.+?)(?:\n\n|$)] *)
Definition pat_description : regex :=
  Seq (Alt (word "description") (word "details"))
      (Seq (Plus true sep)
           (Seq (Group (Plus false dot)) (Alt (word "\n\n") End))).

Definition pat_size : regex := Seq (word "size") rest_of_line.

Definition pat_color : regex :=
  Seq (Alt (word "color") (word "colour")) rest_of_line.

Definition pat_material : regex :=
  Seq (Alt (word "material") (word "fabric")) rest_of_line.

Definition pat_weight : regex := Seq (word "weight") rest_of_line.

Definition pat_sku : regex :=
  Seq (Alt (word "sku") (Alt (word "product id") (word "item code")))
      rest_of_line.

(** The [patterns] object, in the order [Object.entries] lists it. *)
Definition patterns : list (jsstring * regex) :=
  [ (lit "name", pat_name); (lit "brand", pat_brand);
    (lit "price", pat_price); (lit "category", pat_category);
    (lit "description", pat_description); (lit "size", pat_size);
    (lit "color", pat_color); (lit "material", pat_material);
    (lit "weight", pat_weight); (lit "sku", pat_sku) ].

(** One turn of the loop: [if (match) extracted[key] = match[1].trim()].
    Capture 1 takes part in every match of every pattern
    ([patterns_capture] below), so [match[1]] is never undefined. *)
Definition extract_step (rawData : jsstring)
    (extracted : gmap jsstring jsstring) (entry : jsstring * regex)
  : gmap jsstring jsstring :=
  match search entry.2 rawData with
  | Some (Some m1) => <[entry.1 := trim m1]> extracted
  | _ => extracted
  end.

(** The source also computes [lines], the non-blank lines of [rawData],
    and never reads it. *)
Definition extractProductInfo (rawData : jsstring) : gmap jsstring jsstring :=
  foldl (extract_step rawData) ∅ patterns.

(** ** Numbers

    Number values are IEEE 754 binary64 floats: [spec_float] with 53 bits
    of precision, rounded to nearest, ties to even. *)
Module Number.

Definition prec : Z := 53.
Definition emax : Z := 1024.

(** The Number value of [m * 10^e] for natural [m]: the exact quotient or
    product, rounded once. *)
Definition of_decimal (neg : bool) (m : N) (e : Z) : spec_float :=
  match m with
  | N0 => S754_zero neg
  | Npos p =>
      match e with
      | Zneg q =>
          SFdiv prec emax (S754_finite neg p 0)
                (S754_finite false (Pos.pow 10 q) 0)
      | _ => binary_round prec emax neg (p * Z.to_pos (10 ^ e)) 0
      end
  end.

Definition mul : spec_float -> spec_float -> spec_float := SFmul prec emax.

Fixpoint span_digits (s : jsstring) : jsstring * jsstring :=
  match s with
  | c :: t =>
      if is_digit c then let '(d, r) := span_digits t in (c :: d, r)
      else ([], s)
  | [] => ([], [])
  end.

Definition digits_value (ds : jsstring) : N :=
  foldl (fun acc d => acc * 10 + (d - 48)) 0 ds.

(** ExponentPart: [e] or [E], an optional sign, at least one digit; the
    value is 0 when the input has no complete exponent part. *)
Definition exponent_part (s : jsstring) : Z :=
  match s with
  | c :: t =>
      if (c =? 101) || (c =? 69) then
        match t with
        | 45 :: t' =>
            let '(d, _) := span_digits t' in
            match d with [] => 0%Z | _ => (- Z.of_N (digits_value d))%Z end
        | 43 :: t' =>
            let '(d, _) := span_digits t' in Z.of_N (digits_value d)
        | _ => let '(d, _) := span_digits t in Z.of_N (digits_value d)
        end
      else 0%Z
  | [] => 0%Z
  end.

(** StrUnsignedDecimalLiteral, longest prefix. *)
Definition unsigned_literal (neg : bool) (s : jsstring) : spec_float :=
  if startsWith s (lit "Infinity") then S754_infinity neg
  else
    let '(ip, r) := span_digits s in
    match r with
    | 46 :: r' =>
        let '(fp, r'') := span_digits r' in
        match ip, fp with
        | [], [] => S754_nan
        | _, _ =>
            of_decimal neg (digits_value (ip ++ fp))
                       (exponent_part r'' - Z.of_nat (length fp))
        end
    | _ =>
        match ip with
        | [] => S754_nan
        | _ => of_decimal neg (digits_value ip) (exponent_part r)
        end
    end.

(** [parseFloat(s)] *)
Definition parseFloat (s : jsstring) : spec_float :=
  match trimStart s with
  | 45 :: t => unsigned_literal true t
  | 43 :: t => unsigned_literal false t
  | t => unsigned_literal false t
  end.

(** The integer [n] for which [n / 100 - x] is closest to zero, the larger
    one on a tie, for [x = m * 2^e]. *)
Definition nearest_hundredths (m : positive) (e : Z) : Z :=
  match e with
  | Zneg q => (2 * (Zpos m * 100) + Zpos (Pos.pow 2 q)) / (2 * Zpos (Pos.pow 2 q))
  | _ => Zpos m * 2 ^ e * 100
  end.

(** [n] printed with two fraction digits, padded to at least three digits. *)
Definition fixed2_digits (n : Z) : jsstring :=
  let d := decimal (Z.to_N n) in
  let d := repeat 48 (3 - length d) ++ d in
  take (length d - 2) d ++ 46 :: drop (length d - 2) d.

(** Number::toString for a finite [x >= 10^21], which is an integer [v]:
    the shortest digit string [s] (with [k] digits) and the [n] for which
    [s * 10^(n-k)] rounds to [x]; among two candidates the one closest to
    [x].  [n] is at least 22 there, hence the exponential form. *)
Definition rounds_to (x : spec_float) (v : Z) : bool :=
  match binary_normalize prec emax v 0 false, x with
  | S754_finite _ m1 e1, S754_finite _ m2 e2 => (m1 =? m2)%positive && (e1 =? e2)%Z
  | _, _ => false
  end.

Definition exponential (s : Z) (n : nat) : jsstring :=
  let d := decimal (Z.to_N s) in
  match d with
  | [c] => c :: lit "e+" ++ decimal (N.of_nat (n - 1))
  | c :: r => c :: 46 :: r ++ lit "e+" ++ decimal (N.of_nat (n - 1))
  | [] => []
  end.

Fixpoint shortest (x : spec_float) (v : Z) (nd : nat) (k : nat) (fuel : nat)
  : jsstring :=
  match fuel with
  | O => exponential v nd
  | S fuel' =>
      let p := (10 ^ Z.of_nat (nd - k))%Z in
      let lo := (v / p)%Z in
      let hi := (lo + 1)%Z in
      let ok_lo := rounds_to x (lo * p) in
      let ok_hi := rounds_to x (hi * p) in
      let pick (s : Z) :=
        if (s =? 10 ^ Z.of_nat k)%Z then exponential 1 (S nd)
        else exponential s nd in
      if ok_lo && ok_hi then
        let dl := (v - lo * p)%Z in
        let dh := (hi * p - v)%Z in
        if (dl <? dh)%Z then pick lo
        else if (dh <? dl)%Z then pick hi
        else if Z.even lo then pick lo else pick hi
      else if ok_lo then pick lo
      else if ok_hi then pick hi
      else shortest x v nd (S k) fuel'
  end.

Definition toString_large (m : positive) (e : Z) : jsstring :=
  let v := (Zpos m * 2 ^ e)%Z in
  shortest (S754_finite false m e) v (length (decimal (Z.to_N v))) 1 17.

(** [x.toFixed(2)] *)
Definition toFixed2 (x : spec_float) : jsstring :=
  match x with
  | S754_nan => lit "NaN"
  | S754_infinity false => lit "Infinity"
  | S754_infinity true => lit "-Infinity"
  | S754_zero _ => lit "0.00"
  | S754_finite s m e =>
      (if s then [45] else [])
      ++ (if (10 ^ 21 <=? Zpos m * 2 ^ e)%Z then toString_large m e
          else fixed2_digits (nearest_hundredths m e))
  end.

End Number.

Import Number.

(** ** The platform table (route.ts, lines 8-25) *)

Inductive platform : Type := amazon | flipkart | meesho | myntra.

Definition platform_id (p : platform) : jsstring :=
  match p with
  | amazon => lit "amazon"
  | flipkart => lit "flipkart"
  | meesho => lit "meesho"
  | myntra => lit "myntra"
  end.

Record field_lists : Type :=
  { required : list jsstring; optional : list jsstring }.

Definition PLATFORM_FIELDS (p : platform) : field_lists :=
  match p with
  | amazon =>
      {| required := map lit
           ["Product Name"; "Brand"; "Category"; "Price"; "MRP"; "SKU";
            "Description"; "Key Features"; "Images"]%string;
         optional := map lit
           ["Weight"; "Dimensions"; "Color"; "Size"; "Material"; "HSN Code";
            "GST"]%string |}
  | flipkart =>
      {| required := map lit
           ["Product Name"; "Brand"; "Category"; "Listing Price"; "MRP";
            "Product ID"; "Description"; "Key Features";
            "Product Image"]%string;
         optional := map lit
           ["Package Weight"; "Package Dimensions"; "Color"; "Size";
            "Material"; "HSN Code"]%string |}
  | meesho =>
      {| required := map lit
           ["Product Name"; "Category"; "Price"; "Product Description";
            "Product Images"; "Size"; "Color"]%string;
         optional := map lit
           ["Brand"; "Material"; "Weight"; "HSN Code";
            "Return Policy"]%string |}
  | myntra =>
      {| required := map lit
           ["Product Name"; "Brand"; "Category"; "MRP"; "Selling Price";
            "Style ID"; "Description"; "Size"; "Color"; "Images"]%string;
         optional := map lit
           ["Material"; "Care Instructions"; "Occasion"; "Pattern";
            "Fit"]%string |}
  end.

(** ** Effects: the clock and the array store

    [Date.now()] reads a clock; the readings still to come are a sequence
    of time values.  Arrays live in a store and are passed by reference. *)

Inductive value : Type :=
  | VStr (s : jsstring)
  | VNum (x : spec_float).

Abbreviation CatalogItem := (gmap jsstring value).
Abbreviation loc := positive.

Record world : Type :=
  World { readings : nat -> Z; arrays : gmap loc (list CatalogItem) }.

Definition M (A : Type) : Type := world -> A * world.

Definition ret {A : Type} (a : A) : M A := fun w => (a, w).

Definition bind {A B : Type} (c : M A) (k : A -> M B) : M B :=
  fun w => let '(a, w') := c w in k a w'.

Notation "'do' x <- c ; k" := (bind c (fun x => k))
  (at level 10, x name, c at level 100, k at level 200,
   format "'[v' 'do'  x  <-  c ; '/' k ']'").

Definition Date_now : M Z :=
  fun w => (readings w 0%nat, World (fun n => readings w (S n)) (arrays w)).

(** [[...a, x]]: a new array, at a location not in use. *)
Definition alloc (a : list CatalogItem) : M loc :=
  fun w =>
    let l := fresh (dom (arrays w)) in
    (l, World (readings w) (<[l := a]> (arrays w))).

(** The elements of the array a reference points to; [null] reads as no
    elements, as in [catalogData || []]. *)
Definition elements_of (c : option loc) : M (list CatalogItem) :=
  fun w =>
    (match c with
     | Some l => default [] (arrays w !! l)
     | None => []
     end, w).

Fixpoint forEach {A S : Type} (f : S -> A -> M S) (l : list A) (s : S)
  : M S :=
  match l with
  | [] => ret s
  | x :: r => do s' <- f s x ; forEach f r s'
  end.

(** ** The listing generator (route.ts, lines 55-97) *)

(** [v || d] on a possibly undefined string. *)
Definition or_else (v : option jsstring) (d : jsstring) : jsstring :=
  match v with
  | Some (c :: s) => c :: s
  | _ => d
  end.

(** [v || `${prefix}${Date.now()}`]: the clock is read only when [v] is
    undefined or empty. *)
Definition or_stamp (v : option jsstring) (prefix : jsstring) : M jsstring :=
  match v with
  | Some (c :: s) => ret (c :: s)
  | _ => do t <- Date_now ; ret (prefix ++ decimalZ t)
  end.

(** [(parseFloat(price) * 1.2).toFixed(2)] *)
Definition mrp_of (price : jsstring) : jsstring :=
  toFixed2 (mul (parseFloat price) (of_decimal false 12 (-1))).

(** [description.split('.').slice(0, 5).join('. ')] *)
Definition key_features (description : jsstring) : jsstring :=
  join (lit ". ") (take 5 (split 46 description)).

(** The [fieldMapping] object literal; [sku], [pid] and [style] are the
    values of its three identifier entries. *)
Definition mapping_of (extractedData : gmap jsstring jsstring)
    (sku pid style : jsstring) : gmap jsstring jsstring :=
  let field (k : string) := extractedData !! lit k in
  list_to_map
    [ (lit "Product Name", or_else (field "name") []);
      (lit "Brand", or_else (field "brand") (lit "Generic"));
      (lit "Category", or_else (field "category") []);
      (lit "Price", or_else (field "price") []);
      (lit "Selling Price", or_else (field "price") []);
      (lit "Listing Price", or_else (field "price") []);
      (lit "MRP", match field "price" with
                  | Some (c :: s) => mrp_of (c :: s)
                  | _ => []
                  end);
      (lit "SKU", sku);
      (lit "Product ID", pid);
      (lit "Style ID", style);
      (lit "Description", or_else (field "description") []);
      (lit "Product Description", or_else (field "description") []);
      (lit "Key Features", match field "description" with
                           | Some (c :: s) => key_features (c :: s)
                           | _ => []
                           end);
      (lit "Size", or_else (field "size") []);
      (lit "Color", or_else (field "color") []);
      (lit "Material", or_else (field "material") []);
      (lit "Weight", or_else (field "weight") []);
      (lit "Package Weight", or_else (field "weight") []);
      (lit "Images", lit "[Image URLs]");
      (lit "Product Image", lit "[Image URLs]");
      (lit "Product Images", lit "[Image URLs]") ].

(** Evaluating the literal reads the clock once for each identifier entry
    whose [sku] operand is undefined or empty, in the order of the
    entries. *)
Definition fieldMapping (extractedData : gmap jsstring jsstring)
  : M (gmap jsstring jsstring) :=
  let sku := extractedData !! lit "sku" in
  do sku_id <- or_stamp sku (lit "SKU") ;
  do product_id <- or_stamp sku (lit "PID") ;
  do style_id <- or_stamp sku (lit "STYLE") ;
  ret (mapping_of extractedData sku_id product_id style_id).

(** [`${platform.toUpperCase()}_${field.replace(/\s+/g, '_')}`] *)
Definition listing_key (p : platform) (field : jsstring) : jsstring :=
  toUpperCase (platform_id p) ++ lit "_" ++ replace_ws_runs false field.

Definition fill_required (p : platform) (mapping : gmap jsstring jsstring)
    (listing : gmap jsstring jsstring) (field : jsstring)
  : gmap jsstring jsstring :=
  <[listing_key p field := or_else (mapping !! field) (lit "[REQUIRED]")]>
    listing.

Definition fill_optional (p : platform) (mapping : gmap jsstring jsstring)
    (listing : gmap jsstring jsstring) (field : jsstring)
  : gmap jsstring jsstring :=
  match mapping !! field with
  | Some (c :: s) => <[listing_key p field := c :: s]> listing
  | _ => listing
  end.

(** The two [forEach] loops over the platform's field lists. *)
Definition listing_of (p : platform) (mapping : gmap jsstring jsstring)
  : gmap jsstring jsstring :=
  let fields := PLATFORM_FIELDS p in
  let listing := foldl (fill_required p mapping) ∅ (required fields) in
  foldl (fill_optional p mapping) listing (optional fields).

Definition generatePlatformListing (extractedData : gmap jsstring jsstring)
    (p : platform) : M (gmap jsstring jsstring) :=
  do mapping <- fieldMapping extractedData ;
  ret (listing_of p mapping).

(** ** The intent classifier (route.ts, lines 99-124) *)

Inductive intent : Type := catalog | task | help | analyze | general.

Definition analyzeMessage (message : jsstring) : intent * list platform :=
  let messageLower := toLowerCase message in
  let has (k : string) := includes messageLower (lit k) in
  let intent :=
    if has "catalog" || has "listing" || has "product" then catalog
    else if has "task" || has "remind" || has "schedule" then task
    else if has "help" || has "how" then help
    else if has "analyze" || has "check" then analyze
    else general in
  let platforms :=
    (if has "amazon" then [amazon] else [])
    ++ (if has "flipkart" then [flipkart] else [])
    ++ (if has "meesho" then [meesho] else [])
    ++ (if has "myntra" then [myntra] else []) in
  let platforms :=
    match platforms, intent with
    | [], catalog => [amazon; flipkart; meesho; myntra]
    | _, _ => platforms
    end in
  (intent, platforms).

(** ** The handler (route.ts, lines 126-265)

    The request body is taken at the types the client sends it with: a
    string, an array of rows (or null) and a string; on such a body no
    statement of the handler throws, so only the [try] block is modelled. *)

Record request : Type :=
  { message : jsstring; catalogData : option loc; rawData : jsstring }.

Record reply : Type :=
  { response : jsstring; updatedCatalog : option loc }.

(** [a === b] on strings. *)
Fixpoint str_eqb (a b : jsstring) : bool :=
  match a, b with
  | [], [] => true
  | x :: a', y :: b' => (x =? y) && str_eqb a' b'
  | _, _ => false
  end.

(** [!v] on a possibly undefined row value. *)
Definition falsy (v : option value) : bool :=
  match v with
  | Some (VStr (_ :: _)) => false
  | Some (VNum (S754_finite _ _ _)) => false
  | Some (VNum (S754_infinity _)) => false
  | _ => true
  end.

Definition is_required_mark (v : option value) : bool :=
  match v with
  | Some (VStr s) => str_eqb s (lit "[REQUIRED]")
  | _ => false
  end.

(** [{ ...extracted }] followed by one [Object.assign] per platform. *)
Definition merge_listings (extracted : gmap jsstring jsstring)
    (platforms : list platform) : M (gmap jsstring jsstring) :=
  forEach
    (fun newItem p =>
       do platformData <- generatePlatformListing extracted p ;
       ret (platformData ∪ newItem))
    platforms extracted.

Definition catalog_response (extracted : gmap jsstring jsstring)
    (platforms : list platform) : jsstring :=
  lit "I've processed your product data and created listings for "
  ++ join (lit ", ") (map platform_id platforms)
  ++ lit ".\n\nProduct: "
  ++ or_else (extracted !! lit "name") (lit "New Product")
  ++ lit "\n"
  ++ match extracted !! lit "brand" with
     | Some (c :: s) => lit "Brand: " ++ c :: s
     | _ => []
     end
  ++ lit "\n"
  ++ match extracted !! lit "price" with
     | Some (c :: s) => lit "Price: " ++ [226; 8218; 185] ++ c :: s
     | _ => []
     end
  ++ lit "\n\nGenerated fields for:\n"
  ++ join (lit "\n")
       (map (fun p =>
               lit "- " ++ toUpperCase (platform_id p) ++ lit ": "
               ++ decimal (N.of_nat (length (required (PLATFORM_FIELDS p))))
               ++ lit " required fields filled")
            platforms)
  ++ lit "\n\nThe catalog has been updated. Please review and add images, then download to use for listing.".

Definition guidance_response (platforms : list platform) : jsstring :=
  lit "To create product listings, please:\n"
  ++ lit "1. Upload your catalog file (Excel/CSV)\n"
  ++ lit "2. Switch to the Catalog Manager tab\n"
  ++ lit "3. Paste your raw product data in the text area\n"
  ++ lit "4. I'll automatically format it for "
  ++ match platforms with
     | [] => lit "all platforms"
     | _ => join (lit ", ") (map platform_id platforms)
     end
  ++ lit "\n\nOr you can tell me the product details and I'll help format them!".

(** The [missingFields] of the first row. *)
Definition missing_fields (item : CatalogItem) (platforms : list platform)
  : list jsstring :=
  flat_map
    (fun p =>
       flat_map
         (fun field =>
            let key := listing_key p field in
            if falsy (item !! key) || is_required_mark (item !! key)
            then [platform_id p ++ lit ": " ++ field]
            else [])
         (required (PLATFORM_FIELDS p)))
    platforms.

Definition missing_response (missingFields : list jsstring) : jsstring :=
  lit "Analysis complete! Found "
  ++ decimal (N.of_nat (length missingFields))
  ++ lit " missing required fields:\n\n"
  ++ join (lit "\n") (take 10 missingFields)
  ++ lit "\n\nProvide the missing information and I'll update your catalog.".

Definition complete_response (platforms : list platform) : jsstring :=
  lit "Great! Your catalog looks complete for "
  ++ join (lit ", ") (map platform_id platforms)
  ++ lit ". All required fields are filled. You're ready to list your products!".

Definition no_catalog_response : jsstring :=
  lit "No catalog loaded. Please upload a catalog file first.".

(** [l.map((f, i) => `${i + 1}. ${f}`)] *)
Definition numbered (l : list jsstring) : list jsstring :=
  imap (fun i f => decimal (N.of_nat (i + 1)) ++ lit ". " ++ f) l.

Definition requirements_response (platforms : list platform) : jsstring :=
  let platform := match platforms with p :: _ => p | [] => amazon end in
  let fields := PLATFORM_FIELDS platform in
  toUpperCase (platform_id platform)
  ++ lit " Listing Requirements:\n\nRequired Fields:\n"
  ++ join (lit "\n") (numbered (required fields))
  ++ lit "\n\nOptional but Recommended:\n"
  ++ join (lit "\n") (numbered (optional fields))
  ++ lit "\n\nTips:\n"
  ++ lit "- Use high-quality images (minimum 1000x1000px)\n"
  ++ lit "- Write detailed descriptions with keywords\n"
  ++ lit "- Include accurate measurements and specifications\n"
  ++ lit "- Add all relevant attributes for better discoverability".

Definition help_response : jsstring :=
  lit "I'm JARVIS, your personal AI assistant! I can help you with:\n"
  ++ lit "\n"
  ++ [240; 376; 8220; 8249] ++ lit " Daily Tasks:\n"
  ++ lit "- Task reminders and scheduling\n"
  ++ lit "- Quick notes and organization\n"
  ++ lit "- Daily planning\n"
  ++ lit "\n"
  ++ [240; 376; 8250; 8217] ++ lit " E-commerce Catalog Management:\n"
  ++ lit "- Format product data for Amazon, Flipkart, Meesho, Myntra\n"
  ++ lit "- Auto-fill catalog sheets with product information\n"
  ++ lit "- Check for missing required fields\n"
  ++ lit "- Generate platform-specific listings\n"
  ++ lit "\n"
  ++ [240; 376; 8220; 166] ++ lit " How to use:\n"
  ++ lit "1. Upload your catalog Excel file\n"
  ++ lit "2. Paste raw product data in the Catalog Manager\n"
  ++ lit "3. I'll automatically format it for all platforms\n"
  ++ lit "4. Download the updated catalog\n"
  ++ lit "\n"
  ++ lit "Just ask me anything or paste your product data!".

Definition task_response : jsstring :=
  lit "Task Management:\n"
  ++ lit "\n"
  ++ lit "I can help you with:\n"
  ++ lit "- Set reminders: " ++ dquote
  ++ lit "Remind me to check inventory at 3 PM" ++ dquote ++ lit "\n"
  ++ lit "- Daily schedule: " ++ dquote
  ++ lit "What's on my agenda today?" ++ dquote ++ lit "\n"
  ++ lit "- Quick tasks: " ++ dquote
  ++ lit "Add checking Amazon orders to my todo list" ++ dquote ++ lit "\n"
  ++ lit "\n"
  ++ lit "For catalog-related tasks, switch to the Catalog Manager tab and I'll help you process your product listings efficiently!".

Definition general_response : jsstring :=
  lit "Hello! I'm JARVIS, ready to assist you. I can help with:\n"
  ++ lit "\n"
  ++ lit "- Daily task management and reminders\n"
  ++ lit "- E-commerce catalog processing for Amazon, Flipkart, Meesho, and Myntra\n"
  ++ lit "- Product listing preparation and data formatting\n"
  ++ lit "\n"
  ++ lit "What would you like help with today?".

Definition POST (req : request) : M reply :=
  let '(intent, platforms) := analyzeMessage (message req) in
  match intent with
  | catalog =>
      match rawData req with
      | _ :: _ =>
          let extracted := extractProductInfo (rawData req) in
          do newItem <- merge_listings extracted platforms ;
          do existing <- elements_of (catalogData req) ;
          do updated <- alloc (existing ++ [VStr <$> newItem]) ;
          ret {| response := catalog_response extracted platforms;
                 updatedCatalog := Some updated |}
      | [] =>
          ret {| response := guidance_response platforms;
                 updatedCatalog := None |}
      end
  | analyze =>
      do existing <- elements_of (catalogData req) ;
      match existing with
      | item :: _ =>
          let missingFields := missing_fields item platforms in
          ret {| response :=
                   match missingFields with
                   | _ :: _ => missing_response missingFields
                   | [] => complete_response platforms
                   end;
                 updatedCatalog := None |}
      | [] =>
          ret {| response := no_catalog_response; updatedCatalog := None |}
      end
  | help =>
      let lower := toLowerCase (message req) in
      ret {| response :=
               if includes lower (lit "requirement")
                  || includes lower (lit "guideline")
               then requirements_response platforms
               else help_response;
             updatedCatalog := None |}
  | task => ret {| response := task_response; updatedCatalog := None |}
  | general => ret {| response := general_response; updatedCatalog := None |}
  end.

(** ** The page's send handler (src/app/page.tsx, lines 88-138)

    [handleSendMessage] is an async function over the component's state.
    It is modelled in the two parts that the [await] separates: what runs
    before the request is sent, and what runs once the reply has arrived or
    the request has failed.  The values of [new Date()] are arguments. *)
Module Page.

Inductive Role : Type := user | assistant.

Record Message : Type :=
  { role : Role; content : jsstring; timestamp : Z }.

Inductive Tab : Type := chat | catalog.

(** The component's state variables, together with what the page has handed
    to the speech synthesizer ([synthesis] tells whether there is one). *)
Record state : Type :=
  { messages : list Message;
    isListening : bool;
    isProcessing : bool;
    inputText : jsstring;
    catalogData : list CatalogItem;
    rawData : jsstring;
    activeTab : Tab;
    synthesis : bool;
    spoken : list jsstring }.

(** The request body, [{ message, catalogData, rawData }], and the parsed
    reply, [{ response, updatedCatalog }]. *)
Definition body : Type := jsstring * list CatalogItem * jsstring.
Definition data : Type := jsstring * option (list CatalogItem).

Definition setMessages (f : list Message -> list Message) (st : state)
  : state :=
  {| messages := f (messages st); isListening := isListening st;
     isProcessing := isProcessing st; inputText := inputText st;
     catalogData := catalogData st; rawData := rawData st;
     activeTab := activeTab st; synthesis := synthesis st;
     spoken := spoken st |}.

Definition setIsProcessing (b : bool) (st : state) : state :=
  {| messages := messages st; isListening := isListening st;
     isProcessing := b; inputText := inputText st;
     catalogData := catalogData st; rawData := rawData st;
     activeTab := activeTab st; synthesis := synthesis st;
     spoken := spoken st |}.

Definition setInputText (s : jsstring) (st : state) : state :=
  {| messages := messages st; isListening := isListening st;
     isProcessing := isProcessing st; inputText := s;
     catalogData := catalogData st; rawData := rawData st;
     activeTab := activeTab st; synthesis := synthesis st;
     spoken := spoken st |}.

Definition setCatalogData (c : list CatalogItem) (st : state) : state :=
  {| messages := messages st; isListening := isListening st;
     isProcessing := isProcessing st; inputText := inputText st;
     catalogData := c; rawData := rawData st;
     activeTab := activeTab st; synthesis := synthesis st;
     spoken := spoken st |}.

Definition setActiveTab (t : Tab) (st : state) : state :=
  {| messages := messages st; isListening := isListening st;
     isProcessing := isProcessing st; inputText := inputText st;
     catalogData := catalogData st; rawData := rawData st;
     activeTab := t; synthesis := synthesis st;
     spoken := spoken st |}.

(** [speak(text)]: the text goes to the synthesizer, if there is one. *)
Definition speak (text : jsstring) (st : state) : state :=
  if synthesis st then
    {| messages := messages st; isListening := isListening st;
       isProcessing := isProcessing st; inputText := inputText st;
       catalogData := catalogData st; rawData := rawData st;
       activeTab := activeTab st; synthesis := synthesis st;
       spoken := spoken st ++ [text] |}
  else st.

(** Lines 89-110: nothing is sent when the input is blank; otherwise the
    user's message is shown, the input is cleared, and the request body is
    built from the input as typed and the catalog and raw data of this
    render. *)
Definition send_begin (now : Z) (st : state) : option (state * body) :=
  match trim (inputText st) with
  | [] => None
  | _ :: _ =>
      let userMessage :=
        {| role := user; content := inputText st; timestamp := now |} in
      let currentInput := inputText st in
      Some (setInputText []
              (setIsProcessing true
                 (setMessages (fun prev => prev ++ [userMessage]) st)),
            (currentInput, catalogData st, rawData st))
  end.

(** Lines 113-137: the reply is shown and spoken, and its catalog, when it
    has one, replaces the page's; a failed request shows the apology.
    Either way [isProcessing] is reset. *)
Definition send_end (now : Z) (outcome : option data) (st : state) : state :=
  setIsProcessing false
    match outcome with
    | Some (response, updatedCatalog) =>
        let assistantMessage :=
          {| role := assistant; content := response; timestamp := now |} in
        let st := setMessages (fun prev => prev ++ [assistantMessage]) st in
        let st := speak response st in
        match updatedCatalog with
        | Some rows => setCatalogData rows st
        | None => st
        end
    | None =>
        let errorMessage :=
          {| role := assistant;
             content :=
               lit "Sorry, I encountered an error processing your request.";
             timestamp := now |} in
        setMessages (fun prev => prev ++ [errorMessage]) st
    end.

(** The four quick actions (lines 376-420): the text each one puts in the
    input, and the tab it switches to. *)
Definition quick_actions : list (jsstring * Tab) :=
  [ (lit "What tasks do I have for today?", chat);
    (lit "Help me prepare product listings", catalog);
    (lit "Show me Amazon listing requirements", chat);
    (lit "Analyze my catalog for missing data", catalog) ].

Definition quick_action (a : jsstring * Tab) (st : state) : state :=
  setActiveTab a.2 (setInputText a.1 st).

End Page.

(** ** Vocabulary of the statements *)

(** The next unit, if any, is outside the class [c]. *)
Definition stops (c : N -> bool) (s : jsstring) : bool :=
  match s with
  | x :: _ => negb (c x)
  | [] => true
  end.

(** The input ends here or goes on with a line feed. *)
Definition line_end (s : jsstring) : bool :=
  match s with
  | x :: _ => x =? 10
  | [] => true
  end.

(** What follows neither extends a run of digits nor adds a fraction. *)
Definition number_ends (s : jsstring) : bool :=
  match s with
  | [] => true
  | x :: t =>
      negb (is_digit x)
      && negb ((x =? 46) && match t with y :: _ => is_digit y | [] => false end)
  end.

(** The two labels differ, under the [i] flag, at a position both have. *)
Fixpoint mismatch (a b : jsstring) : bool :=
  match a, b with
  | x :: a', y :: b' =>
      negb (canonicalize x =? canonicalize y) || mismatch a' b'
  | _, _ => false
  end.

(** [l] is the first label of [ls] that can match where [l] stands: every
    label before it differs from it at a position both have. *)
Fixpoint leftmost_label (ls : list jsstring) (l : jsstring) : bool :=
  match ls with
  | [] => false
  | l' :: r => str_eqb l' l || (mismatch l' l && leftmost_label r l)
  end.

(** The rest-of-line fields, their keys, trigger labels and patterns. *)
Inductive line_field : Type :=
  | f_name | f_brand | f_category | f_size | f_color | f_material
  | f_weight | f_sku.

Definition field_key (f : line_field) : jsstring :=
  match f with
  | f_name => lit "name"
  | f_brand => lit "brand"
  | f_category => lit "category"
  | f_size => lit "size"
  | f_color => lit "color"
  | f_material => lit "material"
  | f_weight => lit "weight"
  | f_sku => lit "sku"
  end.

Definition field_labels (f : line_field) : list jsstring :=
  match f with
  | f_name => map lit ["product name"; "name"; "title"]%string
  | f_brand => map lit ["brand"; "manufacturer"]%string
  | f_category => map lit ["category"; "type"]%string
  | f_size => map lit ["size"]%string
  | f_color => map lit ["color"; "colour"]%string
  | f_material => map lit ["material"; "fabric"]%string
  | f_weight => map lit ["weight"]%string
  | f_sku => map lit ["sku"; "product id"; "item code"]%string
  end.

Definition field_pattern (f : line_field) : regex :=
  match f with
  | f_name => pat_name
  | f_brand => pat_brand
  | f_category => pat_category
  | f_size => pat_size
  | f_color => pat_color
  | f_material => pat_material
  | f_weight => pat_weight
  | f_sku => pat_sku
  end.

(** [l1|l2|...] *)
Fixpoint alts (ls : list jsstring) : regex :=
  match ls with
  | [] => Chars []
  | [l] => Chars l
  | l :: r => Alt (Chars l) (alts r)
  end.

(** A pattern whose every match goes through the capture group. *)
Fixpoint captures (r : regex) : bool :=
  match r with
  | Group _ => true
  | Seq a b => captures a || captures b
  | Alt a b => captures a && captures b
  | _ => false
  end.

(** Continuations that never answer with an undefined capture: whatever
    capture they get ([cont_total]), or once they get a defined one
    ([cont_keeps]). *)
Definition cont_total (k : cont) : Prop := forall s c, k s c <> Some None.
Definition cont_keeps (k : cont) : Prop :=
  forall s x, k s (Some x) <> Some None.

(** What a successful match attempt has done: [steps r u s' c c'] says
    that [r] matches the text [u] when [s'] is the input that follows,
    turning the capture [c] into [c']. *)
Inductive steps :
  regex -> jsstring -> jsstring -> option jsstring -> option jsstring -> Prop :=
  | steps_chars l u s' c :
      strip l u = Some [] -> steps (Chars l) u s' c c
  | steps_class p x s' c :
      p x = true -> steps (Class p) [x] s' c c
  | steps_alt_l a b u s' c c' :
      steps a u s' c c' -> steps (Alt a b) u s' c c'
  | steps_alt_r a b u s' c c' :
      steps b u s' c c' -> steps (Alt a b) u s' c c'
  | steps_seq a b u1 u2 s' c c1 c' :
      steps a u1 (u2 ++ s') c c1 -> steps b u2 s' c1 c' ->
      steps (Seq a b) (u1 ++ u2) s' c c'
  | steps_plus g p u s' c :
      u <> [] -> forallb p u = true -> steps (Plus g p) u s' c c
  | steps_star g p u s' c :
      forallb p u = true -> steps (Star g p) u s' c c
  | steps_opt_skip a s' c : steps (Opt a) [] s' c c
  | steps_opt a u s' c c' :
      steps a u s' c c' -> steps (Opt a) u s' c c'
  | steps_group a u s' c c1 :
      steps a u s' c c1 -> steps (Group a) u s' c (Some u)
  | steps_end c : steps End [] [] c c.

(** A numeric token: digits, optionally a point and more digits. *)
Definition numeric (v : jsstring) : Prop :=
  exists ds fs,
    ds <> [] /\ forallb is_digit ds = true /\ forallb is_digit fs = true
    /\ (v = ds \/ (fs <> [] /\ v = ds ++ 46 :: fs)).

(** No white space at either end. *)
Definition trimmed (v : jsstring) : Prop :=
  stops is_ws v = true /\ stops is_ws (rev v) = true.

(** The labels that [fieldMapping] copies from an extracted field, with
    the key of that field. *)
Definition direct_labels : list (jsstring * jsstring) :=
  [ (lit "Product Name", lit "name"); (lit "Category", lit "category");
    (lit "Price", lit "price"); (lit "Selling Price", lit "price");
    (lit "Listing Price", lit "price");
    (lit "Description", lit "description");
    (lit "Product Description", lit "description");
    (lit "Size", lit "size"); (lit "Color", lit "color");
    (lit "Material", lit "material"); (lit "Weight", lit "weight");
    (lit "Package Weight", lit "weight") ].

(** The first entry of an association list under a key. *)
Fixpoint assoc {V : Type} (k : jsstring) (l : list (jsstring * V))
  : option V :=
  match l with
  | [] => None
  | (k', v) :: r => if str_eqb k' k then Some v else assoc k r
  end.

(** The three labels whose value may come from the clock. *)
Definition identifier_labels : list jsstring :=
  [lit "SKU"; lit "Product ID"; lit "Style ID"].

(** [!!v] on a possibly undefined string. *)
Definition truthy (v : option jsstring) : bool :=
  match v with
  | Some (_ :: _) => true
  | _ => false
  end.

(** All labels of a platform, required ones first. *)
Definition labels_of (p : platform) : list jsstring :=
  required (PLATFORM_FIELDS p) ++ optional (PLATFORM_FIELDS p).

(** A clock whose readings start at [t] and advance by one. *)
Definition clock_from (t : Z) : nat -> Z := fun n => (t + Z.of_nat n)%Z.

(** Replace the literals of the goal by their code units. *)
Ltac eval_lits :=
  repeat match goal with
    | |- context [lit ?s] =>
        let v := eval vm_compute in (lit s) in change (lit s) with v
    end.

(** The trigger labels of the price pattern, the currency markers it
    accepts after the separator run (none, rs, rs. or the rupee sign as the
    source file spells it), and its number, [(\d+(?:\.\d+)?)]. *)
Definition price_labels : list jsstring :=
  map lit ["price"; "selling price"; "mrp"]%string.

Definition currency_markers : list jsstring :=
  [ []; lit "rs"; lit "rs."; [226; 8218; 185] ].

Definition number_pat : regex :=
  Group (Seq (Plus true is_digit) (Opt (Seq (word ".") (Plus true is_digit)))).

(** The labels whose mapped value is never empty. *)
Definition always_filled : list jsstring :=
  map lit ["Brand"; "SKU"; "Product ID"; "Style ID"; "Images";
           "Product Image"; "Product Images"]%string.

(** The labels derived from one extracted field, with that field's key. *)
Definition derived_labels : list (jsstring * jsstring) :=
  direct_labels
  ++ [ (lit "MRP", lit "price"); (lit "Key Features", lit "description") ].

(** The keys of the [fieldMapping] literal. *)
Definition mapped_labels : list jsstring :=
  always_filled ++ derived_labels.*1.

(** The labels that carry an extracted field into the listing when the
    field is present and non-empty, with the key of that field. *)
Definition carried_labels : list (jsstring * jsstring) :=
  direct_labels
  ++ [ (lit "Brand", lit "brand"); (lit "SKU", lit "sku");
       (lit "Product ID", lit "sku"); (lit "Style ID", lit "sku") ].

(** A text up to its point number [n + 1], a space added after each of the
    points before. *)
Fixpoint upto_point (n : nat) (s : jsstring) : jsstring :=
  match s with
  | [] => []
  | c :: t =>
      if c =? 46 then
        match n with
        | O => []
        | S n' => 46 :: 32 :: upto_point n' t
        end
      else c :: upto_point n t
  end.

(** The exact product of a whole price [n] and 1.2, written with two
    fraction digits; and the test that MRP is that text for every whole
    price from 1 to [k]. *)
Definition exact_mrp (n : N) : jsstring :=
  decimal (n * 12 / 10) ++ [46; 48 + (n * 12) mod 10; 48].

Definition mrp_exact_upto (k : N) : bool :=
  forallb (fun i => let n := N.of_nat i in
                    bool_decide (mrp_of (decimal n) = exact_mrp n))
          (seq 1 (N.to_nat k)).

(** The keywords of each intent rule, whether a message holds one of them,
    and the rules tested before a rule. *)
Definition keywords (i : intent) : list jsstring :=
  match i with
  | catalog => map lit ["catalog"; "listing"; "product"]%string
  | task => map lit ["task"; "remind"; "schedule"]%string
  | help => map lit ["help"; "how"]%string
  | analyze => map lit ["analyze"; "check"]%string
  | general => []
  end.

Definition mentions (m : jsstring) (i : intent) : bool :=
  existsb (includes (toLowerCase m)) (keywords i).

Definition tested_before (i : intent) : list intent :=
  match i with
  | catalog => []
  | task => [catalog]
  | help => [catalog; task]
  | analyze => [catalog; task; help]
  | general => [catalog; task; help; analyze]
  end.

(** The platform table, in the order of its four entries, and the
    platforms a message names. *)
Definition all_platforms : list platform := [amazon; flipkart; meesho; myntra].

Definition names (m : jsstring) (p : platform) : Prop :=
  includes (toLowerCase m) (platform_id p) = true.

#[global] Instance names_dec (m : jsstring) (p : platform) :
  Decision (names m p) :=
  bool_eq_dec (includes (toLowerCase m) (platform_id p)) true.

#[global] Instance platform_eq_dec : EqDecision platform.
Proof. solve_decision. Defined.

(** The body of the handler's loop over the platforms. *)
Definition assign_listing (extracted : gmap jsstring jsstring)
    (newItem : gmap jsstring jsstring) (p : platform)
  : M (gmap jsstring jsstring) :=
  do platformData <- generatePlatformListing extracted p ;
  ret (platformData ∪ newItem).

(** The line of the analysis for a missing field, [`${platform}: ${field}`]. *)
Definition missing_line (p : platform) (field : jsstring) : jsstring :=
  platform_id p ++ lit ": " ++ field.

(** The guidance text, around the words that say what the data will be
    formatted for. *)
Definition guidance_text (formats : jsstring) : jsstring :=
  lit "To create product listings, please:\n"
  ++ lit "1. Upload your catalog file (Excel/CSV)\n"
  ++ lit "2. Switch to the Catalog Manager tab\n"
  ++ lit "3. Paste your raw product data in the text area\n"
  ++ lit "4. I'll automatically format it for "
  ++ formats
  ++ lit "\n\nOr you can tell me the product details and I'll help format them!".

(** Close a goal that compares the lengths of two positions of which one
    is further in the input. *)
Ltac shorter :=
  match goal with
  | |- context [(?a =? ?b)%nat] =>
      destruct (Nat.eqb_spec a b) as [E|_];
      [simpl in E; rewrite ?length_app in E; simpl in E; lia|]
  end.

(** The key of a label as the catalog sheet spells it: the platform's name
    in capitals, an underscore, and the label with an underscore for each
    space. *)
Definition PLATFORM_NAME (p : platform) : jsstring :=
  match p with
  | amazon => lit "AMAZON"
  | flipkart => lit "FLIPKART"
  | meesho => lit "MEESHO"
  | myntra => lit "MYNTRA"
  end.

Definition spelled_key (p : platform) (label : jsstring) : jsstring :=
  PLATFORM_NAME p ++ lit "_" ++ map (fun c => if c =? 32 then 95 else c) label.

(** The keys under which the extractor stores its fields. *)
Definition extracted_keys : list jsstring :=
  map lit ["name"; "brand"; "price"; "category"; "description"; "size";
           "color"; "material"; "weight"; "sku"]%string.





(** [n] hundredths, written with two fraction digits. *)
Definition two_decimals (n : N) : jsstring :=
  decimal (n / 100) ++ [46; 48 + (n / 10) mod 10; 48 + n mod 10].

(** The Number value of the literal [1.2]: the binary64 number nearest to
    twelve tenths. *)
Definition twelve_tenths : spec_float :=
  S754_finite false 5404319552844595 (-52).

(** The test that MRP is the exact product of the price and 1.2, rounded to
    the nearest hundredth, for every price of [1] to [k] hundredths written
    with two fraction digits.  Twelve times a whole number of hundredths is
    never half way between two multiples of ten, so the nearest hundredth
    is unique. *)
Definition mrp_nearest_upto (k : N) : bool :=
  forallb (fun i => let c := N.of_nat i in
                    bool_decide (mrp_of (two_decimals c)
                                 = two_decimals ((12 * c + 5) / 10)))
          (seq 1 (N.to_nat k)).

(** A catalog of one row, at location 5. *)
Definition cup : CatalogItem := {[ lit "name" := VStr (lit "Cup") ]}.

Definition one_cup : gmap loc (list CatalogItem) := {[ 5%positive := [cup] ]}.

(** * Properties *)

(** ** The matcher *)

Section Repetition.
Variable c : N -> bool.
Variable k : jsstring -> result.

(** A greedy run that can take all of [run] and succeed there does so. *)
Lemma rep_greedy_run (run rest : jsstring) (r : option jsstring) :
  forallb c run = true -> stops c rest = true -> k rest = Some r ->
  rep_greedy c (run ++ rest) k = Some r.
Proof.
  intros Hrun Hstop Hk. induction run as [|x run IH]; simpl in *.
  - destruct rest as [|y rest]; simpl in *; [done|].
    destruct (c y); [done|exact Hk].
  - apply andb_prop in Hrun as [-> Hrun]. by rewrite IH.
Qed.

(** A lazy run stops at the first position where the continuation
    succeeds. *)
Lemma rep_lazy_run (run rest : jsstring) (r : option jsstring) :
  forallb c run = true ->
  (forall x s, x ∈ run -> k (x :: s) = None) ->
  k rest = Some r ->
  rep_lazy c (run ++ rest) k = Some r.
Proof.
  intros Hrun Hfail Hk. induction run as [|x run IH]; simpl in *.
  - destruct rest; simpl; by rewrite Hk.
  - apply andb_prop in Hrun as [Hx Hrun].
    rewrite (Hfail x (run ++ rest)) by left. rewrite Hx.
    apply IH; [done|]. intros y s Hy. apply Hfail. by right.
Qed.
End Repetition.

Lemma consumed_app (v t : jsstring) : consumed (v ++ t) t = v.
Proof.
  unfold consumed. rewrite length_app, Nat.add_sub. apply take_app_length.
Qed.

Lemma search_skip (r : regex) (pre s : jsstring) :
  no_match_before r pre s = true -> search r (pre ++ s) = search r s.
Proof.
  induction pre as [|x pre IH]; simpl; [done|].
  destruct (match_here r (x :: pre ++ s)); [done|exact IH].
Qed.

Lemma search_here (r : regex) (s : jsstring) (res : option jsstring) :
  match_here r s = Some res -> search r s = Some res.
Proof. intros H. destruct s; simpl; by rewrite H. Qed.

(** Canonicalize sends no unit but the line feed to the line feed. *)
Lemma canonicalize_lf (x : N) : (canonicalize 10 =? canonicalize x) = (x =? 10).
Proof.
  change (canonicalize 10) with 10. unfold canonicalize.
  destruct ((97 <=? x) && (x <=? 122)) eqn:Hx.
  - apply andb_prop in Hx as [H1 H2].
    apply N.leb_le in H1. apply N.leb_le in H2.
    transitivity false; [apply N.eqb_neq|symmetry; apply N.eqb_neq]; lia.
  - destruct (x =? 226) eqn:H226.
    + apply N.eqb_eq in H226. by subst.
    + apply N.eqb_sym.
Qed.

Lemma dot_not_lf (x : N) : dot x = true -> (x =? 10) = false.
Proof.
  unfold dot, is_line_terminator. destruct (x =? 10); [discriminate|done].
Qed.

(** The line terminator of the rest-of-line patterns, [(?:\n|$)], after a
    capture. *)
Lemma exec_line_end (tail : jsstring) (cap : option jsstring) :
  line_end tail = true ->
  exec (Alt (word "\n") End) tail cap (fun _ c => Some c) = Some cap.
Proof.
  destruct tail as [|x t]; [done|]. cbn -[canonicalize].
  intros Hx. by rewrite canonicalize_lf, Hx.
Qed.

Lemma exec_line_end_fails (x : N) (s : jsstring) (cap : option jsstring) :
  dot x = true ->
  exec (Alt (word "\n") End) (x :: s) cap (fun _ c => Some c) = None.
Proof.
  intros Hx. cbn -[canonicalize]. by rewrite canonicalize_lf, dot_not_lf.
Qed.

(** [[\s:]+(.+?)(?:\n|$)] on a separator run, a value and a line end
    captures the value. *)
Lemma exec_rest_of_line (sp v tail : jsstring) (cap : option jsstring) :
  sp <> [] -> forallb sep sp = true ->
  v <> [] -> stops sep v = true -> forallb dot v = true ->
  line_end tail = true ->
  exec rest_of_line (sp ++ v ++ tail) cap (fun _ c => Some c) = Some (Some v).
Proof.
  intros Hsp Hsep Hv Hstop Hdot Hend.
  destruct sp as [|x sp]; [done|]. destruct v as [|y v]; [done|].
  simpl in Hsep, Hdot, Hstop.
  apply andb_prop in Hsep as [Hx Hsep]. apply andb_prop in Hdot as [Hy Hdot].
  unfold rest_of_line. simpl exec. rewrite Hx. unfold rep.
  apply rep_greedy_run; [done|simpl; by rewrite Hstop|].
  simpl app. rewrite Hy. unfold rep.
  apply rep_lazy_run; [done| |].
  - intros z s Hz. apply exec_line_end_fails.
    rewrite forallb_forall in Hdot. apply Hdot. by apply list_elem_of_In.
  - change (y :: v ++ tail) with ((y :: v) ++ tail). rewrite consumed_app.
    by apply exec_line_end.
Qed.

(** ** Soundness of the matcher *)

Lemma strip_split (l s s' : jsstring) :
  strip l s = Some s' -> exists u, s = u ++ s' /\ strip l u = Some [].
Proof.
  revert s. induction l as [|a l IH]; intros s H.
  - injection H as <-. by exists [].
  - destruct s as [|b s]; [done|]. simpl in H.
    destruct (canonicalize a =? canonicalize b) eqn:E; [|done].
    destruct (IH s H) as (u & -> & Hu). exists (b :: u).
    split; [done|]. simpl. by rewrite E.
Qed.

Lemma rep_split (g : bool) (p : N -> bool) (s : jsstring)
    (k : jsstring -> result) (res : option jsstring) :
  rep g p s k = Some res ->
  exists u s', s = u ++ s' /\ forallb p u = true /\ k s' = Some res.
Proof.
  destruct g; simpl; induction s as [|x s IH]; simpl; intros H.
  - by exists [], [].
  - destruct (p x) eqn:Hx; [|by exists [], (x :: s)].
    destruct (rep_greedy p s k) as [r|] eqn:E; [|by exists [], (x :: s)].
    injection H as ->. destruct (IH eq_refl) as (u & s' & -> & Hu & Hk).
    exists (x :: u), s'. simpl. by rewrite Hx.
  - destruct (k []) eqn:E; [|done]. injection H as ->. by exists [], [].
  - destruct (k (x :: s)) eqn:E.
    { injection H as ->. by exists [], (x :: s). }
    destruct (p x) eqn:Hx; [|done].
    destruct (IH H) as (u & s' & -> & Hu & Hk).
    exists (x :: u), s'. simpl. by rewrite Hx.
Qed.

(** A successful attempt consumed a text that the pattern matches, and its
    answer is the continuation's. *)
Lemma exec_sound (r : regex) (s : jsstring) (cap : option jsstring)
    (k : cont) (res : option jsstring) :
  exec r s cap k = Some res ->
  exists u s' cap',
    s = u ++ s' /\ steps r u s' cap cap' /\ k s' cap' = Some res.
Proof.
  revert s cap k.
  induction r as [l|p|a IHa b IHb|a IHa b IHb|g p|g p|a IHa|a IHa|];
    intros s cap k H; simpl in H.
  - destruct (strip l s) as [s'|] eqn:E; [|done].
    destruct (strip_split _ _ _ E) as (u & -> & Hu).
    exists u, s', cap. eauto using steps.
  - destruct s as [|x s]; [done|]. destruct (p x) eqn:Hx; [|done].
    exists [x], s, cap. eauto using steps.
  - destruct (exec a s cap k) as [r|] eqn:E.
    + injection H as ->. destruct (IHa _ _ _ E) as (u & s' & c' & ? & ? & ?).
      exists u, s', c'. eauto using steps.
    + destruct (IHb _ _ _ H) as (u & s' & c' & ? & ? & ?).
      exists u, s', c'. eauto using steps.
  - destruct (IHa _ _ _ H) as (u1 & s1 & c1 & -> & Ha & H1).
    destruct (IHb _ _ _ H1) as (u2 & s' & c' & -> & Hb & H2).
    exists (u1 ++ u2), s', c'. rewrite <- app_assoc. eauto using steps.
  - destruct s as [|x s]; [done|]. destruct (p x) eqn:Hx; [|done].
    destruct (rep_split _ _ _ _ _ H) as (u & s' & -> & Hu & Hk).
    exists (x :: u), s', cap. split; [done|]. split; [|done].
    apply steps_plus; [done|]. simpl. by rewrite Hx.
  - destruct (rep_split _ _ _ _ _ H) as (u & s' & -> & Hu & Hk).
    exists u, s', cap. eauto using steps.
  - match type of H with context [exec a s cap ?k'] =>
      destruct (exec a s cap k') as [r|] eqn:E end.
    + injection H as ->. destruct (IHa _ _ _ E) as (u & s' & c' & -> & ? & Hk).
      destruct (length s' =? length (u ++ s'))%nat; [done|].
      exists u, s', c'. eauto using steps.
    + exists [], s, cap. eauto using steps.
  - destruct (IHa _ _ _ H) as (u & s' & c' & -> & Ha & Hk).
    rewrite consumed_app in Hk. exists u, s', (Some u). eauto using steps.
  - destruct s; [|done]. exists [], [], cap. eauto using steps.
Qed.

Lemma search_sound (r : regex) (s : jsstring) (res : option jsstring) :
  search r s = Some res ->
  exists pre t, s = pre ++ t /\ match_here r t = Some res.
Proof.
  induction s as [|x s IH]; simpl; intros H.
  - destruct (match_here r []) eqn:E; [|done]. injection H as ->.
    by exists [], [].
  - destruct (match_here r (x :: s)) eqn:E.
    + injection H as ->. by exists [], (x :: s).
    + destruct (IH H) as (pre & t & -> & Ht). by exists (x :: pre), t.
Qed.

(** *** Trimming *)

Lemma trimStart_stops (s : jsstring) : stops is_ws s = true -> trimStart s = s.
Proof. destruct s as [|x s]; [done|]. simpl. by destruct (is_ws x). Qed.

Lemma trim_trimmed (v : jsstring) : trimmed v -> trim v = v.
Proof.
  intros [Hhead Hlast]. unfold trim.
  rewrite (trimStart_stops v Hhead), (trimStart_stops _ Hlast).
  apply rev_involutive.
Qed.

Lemma trimStart_head (s : jsstring) : stops is_ws (trimStart s) = true.
Proof.
  induction s as [|x s IH]; [done|]. simpl.
  destruct (is_ws x) eqn:E; [done|]. simpl. by rewrite E.
Qed.

Lemma trimStart_suffix (s : jsstring) : exists u, s = u ++ trimStart s.
Proof.
  induction s as [|x s [u IH]]; [by exists []|]. simpl.
  destruct (is_ws x); [|by exists []].
  exists (x :: u). simpl. by rewrite <- IH.
Qed.

Lemma stops_app (c : N -> bool) (u v : jsstring) :
  v <> [] -> stops c (rev (u ++ v)) = stops c (rev v).
Proof.
  intros Hv. rewrite rev_app_distr.
  destruct (rev v) as [|y r] eqn:E; [|done].
  apply (f_equal (@rev N)) in E. rewrite rev_involutive in E. by subst.
Qed.

(** [trim] leaves no white space at either end. *)
Lemma trim_is_trimmed (s : jsstring) : trimmed (trim s).
Proof.
  unfold trimmed, trim. rewrite rev_involutive. split; [|apply trimStart_head].
  destruct (trimStart_suffix (rev (trimStart s))) as [u Hu].
  destruct (trimStart (rev (trimStart s))) as [|y t] eqn:E; [done|].
  pose proof (trimStart_head s) as Hs.
  apply (f_equal (@rev N)) in Hu. rewrite rev_involutive in Hu.
  rewrite Hu in Hs. rewrite rev_app_distr in Hs.
  destruct (rev (y :: t)) as [|z r] eqn:Er; [|done].
  apply (f_equal (@rev N)) in Er. by rewrite rev_involutive in Er.
Qed.

(** *** Capture 1 is defined in every match *)

Lemma rep_answers (g : bool) (c : N -> bool) (s : jsstring)
    (k : jsstring -> result) :
  (forall s', k s' <> Some None) -> rep g c s k <> Some None.
Proof.
  intros Hk. destruct g; simpl; induction s as [|x s IH]; simpl.
  - apply Hk.
  - destruct (c x); [|apply Hk].
    destruct (rep_greedy c s k) as [[?|]|] eqn:E; [done..|apply Hk].
  - destruct (k []) as [[?|]|] eqn:E; [done| |done]. by destruct (Hk []).
  - destruct (k (x :: s)) as [[?|]|] eqn:E; [done| |].
    + by destruct (Hk (x :: s)).
    + by destruct (c x).
Qed.

Lemma exec_total (r : regex) (s : jsstring) (cap : option jsstring)
    (k : cont) :
  cont_total k -> exec r s cap k <> Some None.
Proof.
  revert s cap k.
  induction r as [l|c|a IHa b IHb|a IHa b IHb|g c|g c|a IHa|a IHa|];
    intros s cap k Hk; simpl.
  - destruct (strip l s); [apply Hk|done].
  - destruct s as [|x s]; [done|]. destruct (c x); [apply Hk|done].
  - destruct (exec a s cap k) as [[?|]|] eqn:E; [done| |by apply IHb].
    by destruct (IHa s cap k Hk).
  - apply IHa. intros s' c'. by apply IHb.
  - destruct s as [|x s]; [done|]. destruct (c x); [|done].
    apply rep_answers. intros s'. apply Hk.
  - apply rep_answers. intros s'. apply Hk.
  - match goal with |- context [exec a s cap ?k'] =>
      pose proof (IHa s cap k') as Ha;
      destruct (exec a s cap k') as [[?|]|] end; [done| |apply Hk].
    destruct Ha; [|done]. intros s' c'.
    destruct (length s' =? length s)%nat; [done|apply Hk].
  - apply IHa. intros s' c'. apply Hk.
  - destruct s; [apply Hk|done].
Qed.

Lemma exec_keeps (r : regex) (s : jsstring) (x : jsstring) (k : cont) :
  cont_keeps k -> exec r s (Some x) k <> Some None.
Proof.
  revert s x k.
  induction r as [l|c|a IHa b IHb|a IHa b IHb|g c|g c|a IHa|a IHa|];
    intros s x k Hk; simpl.
  - destruct (strip l s); [apply Hk|done].
  - destruct s as [|y s]; [done|]. destruct (c y); [apply Hk|done].
  - destruct (exec a s (Some x) k) as [[?|]|] eqn:E; [done| |by apply IHb].
    by destruct (IHa s x k Hk).
  - apply IHa. intros s' x'. by apply IHb.
  - destruct s as [|y s]; [done|]. destruct (c y); [|done].
    apply rep_answers. intros s'. apply Hk.
  - apply rep_answers. intros s'. apply Hk.
  - match goal with |- context [exec a s (Some x) ?k'] =>
      pose proof (IHa s x k') as Ha;
      destruct (exec a s (Some x) k') as [[?|]|] end; [done| |apply Hk].
    destruct Ha; [|done]. intros s' x'.
    destruct (length s' =? length s)%nat; [done|apply Hk].
  - apply exec_total. intros s' c'. apply Hk.
  - destruct s; [apply Hk|done].
Qed.

Lemma exec_captures (r : regex) (s : jsstring) (cap : option jsstring)
    (k : cont) :
  captures r = true -> cont_keeps k -> exec r s cap k <> Some None.
Proof.
  revert s cap k.
  induction r as [l|c|a IHa b IHb|a IHa b IHb|g c|g c|a IHa|a IHa|];
    intros s cap k Hr Hk; simpl in *; try done.
  - apply andb_prop in Hr as [Ha Hb].
    destruct (exec a s cap k) as [[?|]|] eqn:E; [done| |by apply IHb].
    by destruct (IHa s cap k Ha Hk).
  - apply orb_prop in Hr as [Ha|Hb].
    + apply IHa; [done|]. intros s' x. by apply exec_keeps.
    + apply exec_total. intros s' c'. by apply IHb.
  - apply exec_total. intros s' c'. apply Hk.
Qed.

(** X1: [match[1]] is never undefined: a match of one of the ten patterns
    always carries its capture. *)
Lemma patterns_capture (k : jsstring) (r : regex) (s : jsstring) :
  (k, r) ∈ patterns -> search r s <> Some None.
Proof.
  intros Hin.
  assert (captures r = true) as Hr.
  { unfold patterns in Hin. rewrite !elem_of_cons, elem_of_nil in Hin.
    repeat destruct Hin as [Hin|Hin]; try done; by injection Hin as -> ->. }
  induction s as [|x s IH]; simpl.
  - destruct (match_here r []) as [[?|]|] eqn:E; [done| |done].
    unfold match_here in E. by apply exec_captures in E.
  - destruct (match_here r (x :: s)) as [[?|]|] eqn:E; [done| |done].
    unfold match_here in E. by apply exec_captures in E.
Qed.

Lemma patterns_capture_witness :
  (lit "size", pat_size) ∈ patterns
  /\ search pat_size (lit "Size: M") <> Some None.
Proof.
  assert ((lit "size", pat_size) ∈ patterns) as Hin.
  { unfold patterns. rewrite !elem_of_cons. auto 20. }
  split; [exact Hin|]. exact (patterns_capture _ _ (lit "Size: M") Hin).
Defined.

(** ** The extractor *)

Lemma patterns_keys_NoDup : NoDup patterns.*1.
Proof. apply (bool_decide_unpack _). by vm_compute. Qed.

Lemma foldl_extract_other (s : jsstring) (l : list (jsstring * regex))
    (m : gmap jsstring jsstring) (k : jsstring) :
  k ∉ l.*1 -> foldl (extract_step s) m l !! k = m !! k.
Proof.
  revert m. induction l as [|[k' r'] l IH]; intros m Hk; simpl; [done|].
  rewrite fmap_cons, not_elem_of_cons in Hk. destruct Hk as [Hne Hk].
  rewrite IH by done. unfold extract_step. simpl.
  destruct (search r' s) as [[c|]|]; [|done..].
  by rewrite lookup_insert_ne.
Qed.

Lemma foldl_extract_at (s : jsstring) (l : list (jsstring * regex))
    (m : gmap jsstring jsstring) (k : jsstring) (r : regex) :
  NoDup l.*1 -> (k, r) ∈ l ->
  foldl (extract_step s) m l !! k =
    match search r s with
    | Some (Some c) => Some (trim c)
    | _ => m !! k
    end.
Proof.
  revert m. induction l as [|[k' r'] l IH]; intros m Hnd Hin; simpl.
  { by apply elem_of_nil in Hin. }
  rewrite fmap_cons in Hnd. apply NoDup_cons in Hnd as [Hk' Hnd].
  apply elem_of_cons in Hin as [Heq|Hin].
  - injection Heq as <- <-. simpl in Hk'. rewrite foldl_extract_other by done.
    unfold extract_step. simpl.
    destruct (search r s) as [[c|]|]; [|done..].
    by rewrite lookup_insert_eq.
  - rewrite IH by done.
    destruct (search r s) as [[c|]|]; [done| |].
    all: unfold extract_step; simpl.
    all: destruct (search r' s) as [[c'|]|]; [|done..].
    all: rewrite lookup_insert_ne; [done|].
    all: intros ->; apply Hk'; by apply (list_elem_of_fmap_2 fst _ (k, r)).
Qed.

(** What the loop leaves under a key is the trimmed capture of the
    leftmost match of that key's pattern. *)
Lemma extract_lookup (s k : jsstring) (r : regex) :
  (k, r) ∈ patterns ->
  extractProductInfo s !! k =
    match search r s with
    | Some (Some c) => Some (trim c)
    | _ => None
    end.
Proof.
  intros Hin. unfold extractProductInfo.
  rewrite (foldl_extract_at s patterns ∅ k r patterns_keys_NoDup Hin).
  by destruct (search r s) as [[c|]|].
Qed.

Lemma field_in_patterns (f : line_field) :
  (field_key f, field_pattern f) ∈ patterns.
Proof. destruct f; unfold patterns; rewrite !elem_of_cons; auto 20. Qed.

Lemma str_eqb_eq (a b : jsstring) : str_eqb a b = true -> a = b.
Proof.
  revert b. induction a as [|x a IH]; intros [|y b]; simpl; try done.
  intros [Hxy Hab]%andb_prop. apply N.eqb_eq in Hxy. f_equal; auto.
Qed.

(** A label spelled in any letter case is stripped by its literal. *)
Lemma strip_ci (l L X : jsstring) :
  map canonicalize l = map canonicalize L -> strip l (L ++ X) = Some X.
Proof.
  revert L. induction l as [|a l IH]; intros [|b L] Heq; try done.
  injection Heq as Hab Heq. simpl. rewrite Hab, N.eqb_refl. by apply IH.
Qed.

Lemma strip_mismatch (l' l L X : jsstring) :
  map canonicalize l = map canonicalize L -> mismatch l' l = true ->
  strip l' (L ++ X) = None.
Proof.
  revert l L. induction l' as [|a l' IH]; intros [|b l] [|B L] Heq Hmis;
    try done.
  injection Heq as Hb Heq. simpl in *. rewrite <- Hb.
  destruct (canonicalize a =? canonicalize b); [|done].
  by apply (IH l).
Qed.

(** Matching an alternation of labels at a label written in any case:
    the continuation runs right after the label. *)
Lemma exec_alts (ls : list jsstring) (l L X : jsstring)
    (cap : option jsstring) (k : cont) (res : option jsstring) :
  leftmost_label ls l = true ->
  map canonicalize l = map canonicalize L ->
  k X cap = Some res ->
  exec (alts ls) (L ++ X) cap k = Some res.
Proof.
  intros Hleft Hci Hk. induction ls as [|l' r IH]; [done|].
  simpl in Hleft. destruct (str_eqb l' l) eqn:Heq.
  - apply str_eqb_eq in Heq as ->.
    destruct r; simpl; by rewrite (strip_ci l L X Hci), Hk.
  - simpl in Hleft. apply andb_prop in Hleft as [Hmis Hleft].
    destruct r as [|l2 r]; [done|].
    change (alts (l' :: l2 :: r)) with (Alt (Chars l') (alts (l2 :: r))).
    simpl exec. rewrite (strip_mismatch l' l L X Hci Hmis). by apply IH.
Qed.

Lemma field_pattern_alts (f : line_field) :
  field_pattern f = Seq (alts (field_labels f)) rest_of_line.
Proof. by destruct f. Qed.

Lemma field_labels_leftmost (f : line_field) (l : jsstring) :
  l ∈ field_labels f -> leftmost_label (field_labels f) l = true.
Proof.
  destruct f; simpl; rewrite ?elem_of_cons, elem_of_nil;
    intros H; repeat destruct H as [->|H]; done.
Qed.

(** The value of a rest-of-line field: at the leftmost match of the
    field's pattern, the text after the label and its separator run, up to
    the line feed or the end of the input. *)
Lemma extract_line_field (f : line_field) (l L pre sp v tail : jsstring) :
  l ∈ field_labels f ->
  map canonicalize l = map canonicalize L ->
  sp <> [] -> forallb sep sp = true ->
  v <> [] -> stops sep v = true -> forallb dot v = true ->
  line_end tail = true ->
  no_match_before (field_pattern f) pre (L ++ sp ++ v ++ tail) = true ->
  extractProductInfo (pre ++ L ++ sp ++ v ++ tail) !! field_key f
  = Some (trim v).
Proof.
  intros Hl Hci Hsp Hsep Hv Hstop Hdot Hend Hpre.
  rewrite (extract_lookup _ _ _ (field_in_patterns f)).
  rewrite (search_skip _ _ _ Hpre).
  rewrite (search_here _ _ (Some v)); [done|].
  unfold match_here. rewrite field_pattern_alts. simpl exec.
  apply (exec_alts _ l L _ None); [by apply field_labels_leftmost|done|].
  by apply (exec_rest_of_line sp v tail None).
Qed.

(** *** Brand *)

(** C5 (as amended): for every input text that contains the line
    "Brand: Acme" (followed by a line feed or by the end of the input) with
    no match of the brand pattern starting before that line, the extractor
    yields brand = "Acme". *)
Theorem brand_line_extracted (pre tail : jsstring) :
  line_end tail = true ->
  no_match_before pat_brand pre (lit "Brand: Acme" ++ tail) = true ->
  extractProductInfo (pre ++ lit "Brand: Acme" ++ tail) !! lit "brand"
  = Some (lit "Acme").
Proof.
  intros Hend Hpre.
  apply (extract_line_field f_brand (lit "brand") (lit "Brand") pre
           (lit ": ") (lit "Acme") tail); try done.
  by left.
Qed.

Lemma brand_line_extracted_witness :
  line_end (lit "\nPrice: 500") = true
  /\ no_match_before pat_brand (lit "Product Name: Blue Shirt\n")
       (lit "Brand: Acme" ++ lit "\nPrice: 500") = true
  /\ extractProductInfo
       (lit "Product Name: Blue Shirt\n" ++ lit "Brand: Acme"
        ++ lit "\nPrice: 500") !! lit "brand"
     = Some (lit "Acme").
Proof.
  split; [reflexivity|]. split; [vm_compute; reflexivity|].
  apply brand_line_extracted; vm_compute; reflexivity.
Defined.

(** C5 as stated fails: the text below contains the line "Brand: Acme",
    yet the leftmost match of the brand pattern is at "Manufacturer". *)
Lemma brand_line_counterexample :
  includes (lit "Manufacturer: Zed\nBrand: Acme") (lit "\nBrand: Acme") = true
  /\ extractProductInfo (lit "Manufacturer: Zed\nBrand: Acme") !! lit "brand"
     = Some (lit "Zed")
  /\ extractProductInfo (lit "Manufacturer: Zed\nBrand: Acme") !! lit "brand"
     <> Some (lit "Acme").
Proof. split; [|split]; by vm_compute. Qed.

(** *** Description *)

(** C6: the description pattern ends its capture at a blank line or at the
    end of the input, but [.] does not cross a line feed: a description
    that continues on a second line is not captured at all. *)
Theorem description_second_line_lost :
  extractProductInfo
    (lit "Description: Soft cotton\nMachine wash\n\nColor: Blue")
    !! lit "description" = None
  /\ extractProductInfo (lit "Description: Soft cotton\nColor: Blue")
       !! lit "description" = None
  /\ extractProductInfo (lit "Description: Soft cotton\n\nColor: Blue")
       !! lit "description" = Some (lit "Soft cotton").
Proof. split; [|split]; by vm_compute. Qed.

(** *** The separator run *)

(** C10 (as amended): the separator [[\s:]+] crosses line feeds.  For each
    rest-of-line field (name, brand, category, size, color, material,
    weight, sku): when the leftmost match of the field's pattern starts at
    a trigger label, in any letter case, followed only by colons and white
    space up to the end of its line, and the first unit after that run of
    colons and white space starts a run of units on one line that ends at
    a line feed or at the end of the input, the field's value is that run,
    trimmed. *)
Theorem separator_crosses_lines
    (f : line_field) (l L pre s1 s2 v tail : jsstring) :
  l ∈ field_labels f ->
  map canonicalize l = map canonicalize L ->
  forallb sep s1 = true -> forallb sep s2 = true ->
  v <> [] -> stops sep v = true -> forallb dot v = true ->
  line_end tail = true ->
  no_match_before (field_pattern f) pre
    (L ++ (s1 ++ 10 :: s2) ++ v ++ tail) = true ->
  extractProductInfo (pre ++ L ++ (s1 ++ 10 :: s2) ++ v ++ tail)
    !! field_key f
  = Some (trim v).
Proof.
  intros Hl Hci Hs1 Hs2 Hv Hstop Hdot Hend Hpre.
  apply (extract_line_field f l); try done.
  - by destruct s1.
  - rewrite forallb_app. simpl. by rewrite Hs1, Hs2.
Qed.

Lemma separator_crosses_lines_witness :
  lit "size" ∈ field_labels f_size
  /\ map canonicalize (lit "size") = map canonicalize (lit "Size")
  /\ forallb sep (lit ":") = true /\ forallb sep [] = true
  /\ lit "Color: Blue" <> []
  /\ stops sep (lit "Color: Blue") = true
  /\ forallb dot (lit "Color: Blue") = true
  /\ line_end [] = true
  /\ no_match_before (field_pattern f_size) []
       (lit "Size" ++ (lit ":" ++ 10 :: []) ++ lit "Color: Blue" ++ []) = true
  /\ extractProductInfo
       ([] ++ lit "Size" ++ (lit ":" ++ 10 :: []) ++ lit "Color: Blue" ++ [])
       !! field_key f_size
     = Some (trim (lit "Color: Blue")).
Proof.
  assert (lit "size" ∈ field_labels f_size) as Hl by (left).
  repeat (split; [first [exact Hl | reflexivity | discriminate]|]).
  apply (separator_crosses_lines f_size (lit "size") (lit "Size") []
           (lit ":") [] (lit "Color: Blue") []);
    first [exact Hl | reflexivity | discriminate].
Defined.

Example size_then_color :
  extractProductInfo (lit "Size:\nColor: Blue") !! lit "size"
  = Some (lit "Color: Blue").
Proof. by vm_compute. Qed.

(** C10 as stated fails: a trigger label followed only by a colon up to
    the end of its line, with text on the following line, can leave the
    field absent (the price capture is numeric), or leave it with the value
    of an earlier label. *)
Lemma separator_crosses_lines_counterexample :
  extractProductInfo (lit "Price:\nfree shipping") !! lit "price" = None
  /\ extractProductInfo (lit "Size: M\nSize:\nColor: Blue") !! lit "size"
     = Some (lit "M").
Proof. split; by vm_compute. Qed.

(** *** Price *)

Lemma canonicalize_point (x : N) :
  (canonicalize 46 =? canonicalize x) = (x =? 46).
Proof.
  change (canonicalize 46) with 46. unfold canonicalize.
  destruct ((97 <=? x) && (x <=? 122)) eqn:Hx.
  - apply andb_prop in Hx as [H1 H2].
    apply N.leb_le in H1. apply N.leb_le in H2.
    transitivity false; [apply N.eqb_neq|symmetry; apply N.eqb_neq]; lia.
  - destruct (x =? 226) eqn:H226.
    + apply N.eqb_eq in H226. by subst.
    + apply N.eqb_sym.
Qed.

Local Opaque canonicalize.

(** [(\d+(?:\.\d+)?)] on a run of digits that the rest of the input does
    not extend captures the run. *)
Lemma exec_number (ds tail : jsstring) (cap : option jsstring) :
  ds <> [] -> forallb is_digit ds = true -> number_ends tail = true ->
  exec (Group (Seq (Plus true is_digit)
                   (Opt (Seq (word ".") (Plus true is_digit)))))
       (ds ++ tail) cap (fun _ c => Some c)
  = Some (Some ds).
Proof.
  intros Hds Hdig Hend. destruct ds as [|d ds]; [done|].
  simpl in Hdig. apply andb_prop in Hdig as [Hd Hdig].
  simpl exec. rewrite Hd. unfold rep.
  assert (stops is_digit tail = true) as Hstop.
  { destruct tail as [|x t]; [done|]. simpl in *.
    by apply andb_prop in Hend as [-> _]. }
  apply rep_greedy_run; [done..|].
  change (d :: ds ++ tail) with ((d :: ds) ++ tail). rewrite consumed_app.
  destruct tail as [|x t]; [done|]. simpl in Hend.
  apply andb_prop in Hend as [_ Hfrac].
  simpl exec. rewrite canonicalize_point.
  destruct (x =? 46); [|done].
  simpl in Hfrac. destruct t as [|y t]; [done|].
  apply negb_true_iff in Hfrac. by rewrite Hfrac.
Qed.

Local Transparent canonicalize.

Lemma match_price_500 (tail : jsstring) :
  number_ends tail = true ->
  match_here pat_price (lit "Price: 500" ++ tail) = Some (Some (lit "500")).
Proof.
  intros Hend.
  generalize (exec_number (lit "500") tail None).
  unfold match_here, pat_price, word. eval_lits. intros Hnum.
  remember (Group _) as num eqn:Enum. simpl.
  simpl in Hnum. rewrite Hnum; done.
Qed.

(** ** Shape of the extracted values *)

(** An extracted value is the trimmed capture of a match of its key's
    pattern. *)
Lemma extract_lookup_inv (s k v : jsstring) :
  extractProductInfo s !! k = Some v ->
  exists r c, (k, r) ∈ patterns /\ search r s = Some (Some c) /\ v = trim c.
Proof.
  intros H. destruct (decide (k ∈ patterns.*1)) as [Hin|Hout].
  - apply list_elem_of_fmap in Hin as ([k' r] & -> & Hin). simpl in H.
    rewrite (extract_lookup _ _ _ Hin) in H.
    destruct (search r s) as [[c|]|] eqn:E; try done.
    injection H as <-. by exists r, c.
  - unfold extractProductInfo in H.
    by rewrite foldl_extract_other in H.
Qed.

(** X7: each captured value is trimmed of surrounding white space. *)
Theorem extracted_values_are_trimmed (s k v : jsstring) :
  extractProductInfo s !! k = Some v -> trimmed v.
Proof.
  intros H. destruct (extract_lookup_inv _ _ _ H) as (r & c & _ & _ & ->).
  apply trim_is_trimmed.
Qed.

Lemma extracted_values_are_trimmed_witness :
  extractProductInfo (lit "Name:   Mug  \nSize: M") !! lit "name"
  = Some (lit "Mug")
  /\ trimmed (lit "Mug").
Proof.
  assert (extractProductInfo (lit "Name:   Mug  \nSize: M") !! lit "name"
          = Some (lit "Mug")) as H by (by vm_compute).
  split; [exact H|]. exact (extracted_values_are_trimmed _ _ _ H).
Defined.

Lemma is_digit_not_ws (x : N) : is_digit x = true -> is_ws x = false.
Proof.
  unfold is_digit, is_ws. intros [H1 H2]%andb_prop.
  apply N.leb_le in H1. apply N.leb_le in H2.
  repeat (apply orb_false_intro);
    first [ apply N.eqb_neq; lia
          | apply andb_false_iff; right; apply N.leb_gt; lia
          | apply andb_false_iff; left; apply N.leb_gt; lia ].
Qed.

Lemma stops_last_digit (u ds : jsstring) :
  ds <> [] -> forallb is_digit ds = true -> stops is_ws (rev (u ++ ds)) = true.
Proof.
  intros Hne Hds. rewrite stops_app by done.
  destruct (rev ds) as [|y r] eqn:E.
  { apply (f_equal (@rev N)) in E. rewrite rev_involutive in E. by subst. }
  simpl. rewrite is_digit_not_ws; [done|].
  rewrite forallb_forall in Hds. apply Hds. apply in_rev. rewrite E. by left.
Qed.

Lemma numeric_trimmed (v : jsstring) : numeric v -> trimmed v.
Proof.
  intros (ds & fs & Hne & Hds & Hfs & Hv). split.
  - destruct ds as [|d ds]; [done|]. simpl in Hds.
    apply andb_prop in Hds as [Hd _].
    destruct Hv as [->|[_ ->]]; simpl; by rewrite is_digit_not_ws.
  - destruct Hv as [->|[Hfne ->]].
    + by apply (stops_last_digit []).
    + change (ds ++ 46 :: fs) with (ds ++ [46] ++ fs). rewrite app_assoc.
      by apply stops_last_digit.
Qed.

Lemma strip_point (u : jsstring) : strip (lit ".") u = Some [] -> u = [46].
Proof.
  destruct u as [|x [|y u]]; try done; cbn [lit strip];
    change (N_of_ascii ".") with 46; rewrite canonicalize_point;
    destruct (x =? 46) eqn:E; try done.
  apply N.eqb_eq in E. by subst.
Qed.

(** Every match of the price pattern captures a numeric token. *)
Lemma price_capture_numeric (t : jsstring) (c : jsstring) :
  match_here pat_price t = Some (Some c) -> numeric c.
Proof.
  unfold match_here. intros H.
  apply exec_sound in H as (u & s' & cap' & _ & Hsteps & Hk).
  injection Hk as ->. unfold pat_price, word in Hsteps.
  repeat match goal with
    | H : steps (Seq _ _) _ _ _ _ |- _ => inversion H; clear H; subst
    end.
  match goal with
  | H : steps (Group _) _ _ _ _ |- _ => inversion H; clear H; subst
  end.
  repeat match goal with
    | H : steps (Seq _ _) _ _ _ _ |- _ => inversion H; clear H; subst
    | H : steps (Plus _ _) _ _ _ _ |- _ => inversion H; clear H; subst
    end.
  match goal with
  | H : steps (Opt _) _ _ _ _ |- _ => inversion H; clear H; subst
  end.
  - match goal with
    | H1 : ?ds <> [], H2 : forallb is_digit ?ds = true |- _ =>
        exists ds, []; rewrite app_nil_r; auto
    end.
  - repeat match goal with
      | H : steps (Seq _ _) _ _ _ _ |- _ => inversion H; clear H; subst
      | H : steps (Plus _ _) _ _ _ _ |- _ => inversion H; clear H; subst
      | H : steps (Chars _) _ _ _ _ |- _ => inversion H; clear H; subst
      end.
    match goal with
    | H : strip _ _ = Some [] |- _ => apply strip_point in H; subst
    end.
    match goal with
    | H1 : ?ds <> [], H2 : forallb is_digit ?ds = true,
      H3 : ?fs <> [], H4 : forallb is_digit ?fs = true
      |- numeric (?ds ++ [46] ++ ?fs) =>
        exists ds, fs; auto 10
    end.
Qed.

(** X8: the price field, when present, is a numeric token: digits with an
    optional fraction. *)
Theorem extracted_price_is_numeric (s v : jsstring) :
  extractProductInfo s !! lit "price" = Some v -> numeric v.
Proof.
  intros H.
  assert ((lit "price", pat_price) ∈ patterns) as Hin.
  { unfold patterns. rewrite !elem_of_cons. auto. }
  rewrite (extract_lookup _ _ _ Hin) in H.
  destruct (search pat_price s) as [[c|]|] eqn:E; try done.
  injection H as <-.
  apply search_sound in E as (pre & t & _ & Ht).
  apply price_capture_numeric in Ht.
  by rewrite (trim_trimmed _ (numeric_trimmed _ Ht)).
Qed.

Lemma extracted_price_is_numeric_witness :
  extractProductInfo (lit "MRP Rs. 45.50 only") !! lit "price"
  = Some (lit "45.50")
  /\ numeric (lit "45.50").
Proof.
  assert (extractProductInfo (lit "MRP Rs. 45.50 only") !! lit "price"
          = Some (lit "45.50")) as H by (by vm_compute).
  split; [exact H|]. exact (extracted_price_is_numeric _ _ H).
Defined.

Lemma trimStart_forallb (p : N -> bool) (s : jsstring) :
  forallb p s = true -> forallb p (trimStart s) = true.
Proof.
  induction s as [|x s IH]; [done|]. simpl.
  intros [Hx Hs]%andb_prop. destruct (is_ws x); [auto|].
  simpl. by rewrite Hx, Hs.
Qed.

Lemma rev_forallb (p : N -> bool) (s : jsstring) :
  forallb p s = true -> forallb p (rev s) = true.
Proof.
  rewrite !forallb_forall. intros H x Hx. apply H. by apply in_rev.
Qed.

Lemma trim_forallb (p : N -> bool) (s : jsstring) :
  forallb p s = true -> forallb p (trim s) = true.
Proof.
  intros H. unfold trim.
  by apply rev_forallb, trimStart_forallb, rev_forallb, trimStart_forallb.
Qed.

Lemma is_digit_dot (x : N) : is_digit x = true -> dot x = true.
Proof.
  unfold is_digit, dot, is_line_terminator. intros [H1 H2]%andb_prop.
  apply N.leb_le in H1. apply N.leb_le in H2. apply negb_true_iff.
  repeat (apply orb_false_intro); apply N.eqb_neq; lia.
Qed.

Lemma numeric_dot (v : jsstring) : numeric v -> forallb dot v = true.
Proof.
  intros (ds & fs & _ & Hds & Hfs & Hv).
  assert (forall u, forallb is_digit u = true -> forallb dot u = true) as Hd.
  { intros u. rewrite !forallb_forall. intros H x Hx.
    by apply is_digit_dot, H. }
  destruct Hv as [->|[_ ->]]; [by apply Hd|].
  rewrite forallb_app. simpl. by rewrite !Hd.
Qed.

(** The capture of a match of a [(.+?)(?:...|$)] pattern holds no line
    terminator. *)
Lemma dot_capture_one_line (labels : regex) (nl t c : jsstring) :
  match_here
    (Seq labels
         (Seq (Plus true sep)
              (Seq (Group (Plus false dot)) (Alt (Chars nl) End))))
    t = Some (Some c) ->
  forallb dot c = true.
Proof.
  unfold match_here. intros H.
  apply exec_sound in H as (u & s' & cap' & _ & Hsteps & Hk).
  injection Hk as ->.
  inversion Hsteps; subst.
  match goal with
  | H : steps (Seq (Plus _ _) _) _ _ _ _ |- _ => inversion H; subst
  end.
  match goal with
  | H : steps (Seq (Group _) _) _ _ _ _ |- _ => inversion H; subst
  end.
  match goal with
  | H : steps (Group _) _ _ _ _ |- _ => inversion H; subst
  end.
  match goal with
  | H : steps (Plus false dot) _ _ _ _ |- _ => inversion H; subst
  end.
  match goal with
  | H : steps (Alt _ _) _ _ _ _ |- _ =>
      inversion H as [| |? ? ? ? ? ? Ha|? ? ? ? ? ? Ha| | | | | | |]; subst;
      inversion Ha; by subst
  end.
Qed.

(** X9: no extracted value holds a line terminator: no capture crosses a line
    feed, the description's included. *)
Theorem extracted_values_are_one_line (s k v : jsstring) :
  extractProductInfo s !! k = Some v -> forallb dot v = true.
Proof.
  intros H. destruct (extract_lookup_inv _ _ _ H) as (r & c & Hin & Hs & ->).
  apply trim_forallb. apply search_sound in Hs as (pre & t & _ & Ht).
  unfold patterns in Hin. rewrite !elem_of_cons, elem_of_nil in Hin.
  repeat destruct Hin as [Hin|Hin]; try done; injection Hin as -> ->;
    try (by apply (dot_capture_one_line _ _ _ _ Ht)).
  by apply numeric_dot, (price_capture_numeric t).
Qed.

Lemma extracted_values_are_one_line_witness :
  extractProductInfo (lit "Details: Soft cotton\n\nColor: Blue")
    !! lit "description" = Some (lit "Soft cotton")
  /\ forallb dot (lit "Soft cotton") = true.
Proof.
  assert (extractProductInfo (lit "Details: Soft cotton\n\nColor: Blue")
            !! lit "description" = Some (lit "Soft cotton")) as H
    by (by vm_compute).
  split; [exact H|]. exact (extracted_values_are_one_line _ _ _ H).
Defined.

(** ** The listing generator *)

Lemma str_eqb_refl (a : jsstring) : str_eqb a a = true.
Proof. induction a; simpl; [done|]. by rewrite N.eqb_refl. Qed.

Lemma str_eqb_neq (a b : jsstring) : str_eqb a b = false -> a <> b.
Proof. intros H ->. by rewrite str_eqb_refl in H. Qed.

Lemma list_to_map_assoc {V : Type} (l : list (jsstring * V)) (k : jsstring) :
  (list_to_map l : gmap jsstring V) !! k = assoc k l.
Proof.
  induction l as [|[k' v] l IH]; simpl; [done|].
  destruct (str_eqb k' k) eqn:E.
  - apply str_eqb_eq in E as ->. by rewrite lookup_insert_eq.
  - apply str_eqb_neq in E. by rewrite lookup_insert_ne.
Qed.

(** *** The clock *)

Lemma or_stamp_truthy (v : option jsstring) (prefix : jsstring) (w : world) :
  truthy v = true -> or_stamp v prefix w = (or_else v [], w).
Proof. by destruct v as [[|c s]|]. Qed.

Lemma or_stamp_arrays (v : option jsstring) (prefix : jsstring) (w : world) :
  arrays (or_stamp v prefix w).2 = arrays w.
Proof. by destruct v as [[|c s]|]. Qed.

(** What [fieldMapping] computes: the literal, at three identifier values;
    the store is left alone, and so is the clock when [sku] is truthy. *)
Lemma fieldMapping_run (d : gmap jsstring jsstring) (w : world) :
  exists sku pid style,
    (fieldMapping d w).1 = mapping_of d sku pid style
    /\ arrays (fieldMapping d w).2 = arrays w
    /\ (truthy (d !! lit "sku") = true ->
        sku = or_else (d !! lit "sku") [] /\ pid = sku /\ style = sku
        /\ (fieldMapping d w).2 = w).
Proof.
  unfold fieldMapping, bind, ret.
  destruct (or_stamp (d !! lit "sku") (lit "SKU") w) as [sku w1] eqn:E1.
  destruct (or_stamp (d !! lit "sku") (lit "PID") w1) as [pid w2] eqn:E2.
  destruct (or_stamp (d !! lit "sku") (lit "STYLE") w2) as [sty w3] eqn:E3.
  exists sku, pid, sty. simpl. split; [done|]. split.
  - pose proof (or_stamp_arrays (d !! lit "sku") (lit "SKU") w) as H1.
    pose proof (or_stamp_arrays (d !! lit "sku") (lit "PID") w1) as H2.
    pose proof (or_stamp_arrays (d !! lit "sku") (lit "STYLE") w2) as H3.
    rewrite E1 in H1. rewrite E2 in H2. rewrite E3 in H3. simpl in *.
    congruence.
  - intros Ht. rewrite or_stamp_truthy in E1 by done. injection E1 as <- <-.
    rewrite or_stamp_truthy in E2 by done. injection E2 as <- <-.
    rewrite or_stamp_truthy in E3 by done. by injection E3 as <- <-.
Qed.

Lemma generatePlatformListing_run (d : gmap jsstring jsstring) (p : platform)
    (w : world) :
  generatePlatformListing d p w
  = (listing_of p (fieldMapping d w).1, (fieldMapping d w).2).
Proof.
  unfold generatePlatformListing, bind, ret. by destruct (fieldMapping d w).
Qed.

(** *** The two loops *)

Section Loops.
Variable p : platform.
Variable mapping : gmap jsstring jsstring.

Lemma fill_required_other (ls : list jsstring)
    (acc : gmap jsstring jsstring) (k : jsstring) :
  k ∉ listing_key p <$> ls ->
  foldl (fill_required p mapping) acc ls !! k = acc !! k.
Proof.
  revert acc. induction ls as [|l ls IH]; intros acc Hk; simpl; [done|].
  rewrite fmap_cons, not_elem_of_cons in Hk. destruct Hk as [Hne Hk].
  rewrite IH by done. unfold fill_required. by rewrite lookup_insert_ne.
Qed.

Lemma fill_required_at (ls : list jsstring) (acc : gmap jsstring jsstring)
    (l : jsstring) :
  NoDup (listing_key p <$> ls) -> l ∈ ls ->
  foldl (fill_required p mapping) acc ls !! listing_key p l
  = Some (or_else (mapping !! l) (lit "[REQUIRED]")).
Proof.
  revert acc. induction ls as [|l' ls IH]; intros acc Hnd Hin; simpl.
  { by apply elem_of_nil in Hin. }
  rewrite fmap_cons in Hnd. apply NoDup_cons in Hnd as [Hl' Hnd].
  apply elem_of_cons in Hin as [->|Hin]; [|by apply IH].
  rewrite fill_required_other by done.
  unfold fill_required. by rewrite lookup_insert_eq.
Qed.

Lemma fill_optional_other (ls : list jsstring)
    (acc : gmap jsstring jsstring) (k : jsstring) :
  k ∉ listing_key p <$> ls ->
  foldl (fill_optional p mapping) acc ls !! k = acc !! k.
Proof.
  revert acc. induction ls as [|l ls IH]; intros acc Hk; simpl; [done|].
  rewrite fmap_cons, not_elem_of_cons in Hk. destruct Hk as [Hne Hk].
  rewrite IH by done. unfold fill_optional.
  destruct (mapping !! l) as [[|c s]|]; [done| |done].
  by rewrite lookup_insert_ne.
Qed.

Lemma fill_optional_at (ls : list jsstring) (acc : gmap jsstring jsstring)
    (l : jsstring) :
  NoDup (listing_key p <$> ls) -> l ∈ ls ->
  foldl (fill_optional p mapping) acc ls !! listing_key p l
  = match mapping !! l with
    | Some (c :: s) => Some (c :: s)
    | _ => acc !! listing_key p l
    end.
Proof.
  revert acc. induction ls as [|l' ls IH]; intros acc Hnd Hin; simpl.
  { by apply elem_of_nil in Hin. }
  rewrite fmap_cons in Hnd. apply NoDup_cons in Hnd as [Hl' Hnd].
  apply elem_of_cons in Hin as [->|Hin].
  - rewrite fill_optional_other by done. unfold fill_optional.
    destruct (mapping !! l') as [[|c s]|]; [done| |done].
    by rewrite lookup_insert_eq.
  - rewrite IH by done. destruct (mapping !! l) as [[|c s]|] eqn:E; [|done|].
    all: unfold fill_optional.
    all: destruct (mapping !! l') as [[|c' s']|]; [done| |done].
    all: rewrite lookup_insert_ne; [done|].
    all: intros Heq; apply Hl'; rewrite Heq; by apply list_elem_of_fmap_2.
Qed.
End Loops.

(** Distinct labels of a platform have distinct keys. *)
Lemma listing_keys_NoDup (p : platform) :
  NoDup (listing_key p <$> labels_of p).
Proof. destruct p; apply (bool_decide_unpack _); by vm_compute. Qed.

Lemma listing_required (p : platform) (mapping : gmap jsstring jsstring)
    (l : jsstring) :
  l ∈ required (PLATFORM_FIELDS p) ->
  listing_of p mapping !! listing_key p l
  = Some (or_else (mapping !! l) (lit "[REQUIRED]")).
Proof.
  intros Hl. pose proof (listing_keys_NoDup p) as Hnd.
  unfold labels_of in Hnd. rewrite fmap_app in Hnd.
  apply NoDup_app in Hnd as (Hreq & Hdisj & Hopt).
  unfold listing_of. rewrite fill_optional_other.
  - by apply fill_required_at.
  - apply Hdisj. by apply list_elem_of_fmap_2.
Qed.

Lemma listing_optional (p : platform) (mapping : gmap jsstring jsstring)
    (l : jsstring) :
  l ∈ optional (PLATFORM_FIELDS p) ->
  listing_of p mapping !! listing_key p l
  = match mapping !! l with
    | Some (c :: s) => Some (c :: s)
    | _ => None
    end.
Proof.
  intros Hl. pose proof (listing_keys_NoDup p) as Hnd.
  unfold labels_of in Hnd. rewrite fmap_app in Hnd.
  apply NoDup_app in Hnd as (Hreq & Hdisj & Hopt).
  unfold listing_of. rewrite fill_optional_at by done.
  destruct (mapping !! l) as [[|c s]|]; [|done|].
  all: rewrite fill_required_other; [done|].
  all: intros Hin; apply (Hdisj _ Hin); by apply list_elem_of_fmap_2.
Qed.

(** The listing has no key besides those of the platform's labels. *)
Lemma listing_no_other_key (p : platform) (mapping : gmap jsstring jsstring)
    (k : jsstring) :
  k ∉ listing_key p <$> labels_of p -> listing_of p mapping !! k = None.
Proof.
  unfold labels_of. rewrite fmap_app, not_elem_of_app. intros [Hreq Hopt].
  unfold listing_of. rewrite fill_optional_other by done.
  by rewrite fill_required_other.
Qed.

(** *** The mapping table *)

Lemma or_else_nil (v : option jsstring) : or_else v [] = default [] v.
Proof. by destruct v as [[|c s]|]. Qed.

Lemma mapping_of_direct (d : gmap jsstring jsstring) (sku pid style : jsstring)
    (l k : jsstring) :
  (l, k) ∈ direct_labels ->
  mapping_of d sku pid style !! l = Some (default [] (d !! k)).
Proof.
  intros Hin. unfold mapping_of. rewrite list_to_map_assoc, <- or_else_nil.
  unfold direct_labels in Hin. rewrite !elem_of_cons, elem_of_nil in Hin.
  repeat destruct Hin as [Hin|Hin]; try done; by injection Hin as -> ->.
Qed.

Lemma mapping_of_brand (d : gmap jsstring jsstring) (sku pid style : jsstring) :
  mapping_of d sku pid style !! lit "Brand"
  = Some (or_else (d !! lit "brand") (lit "Generic")).
Proof. unfold mapping_of. by rewrite list_to_map_assoc. Qed.

Lemma mapping_of_mrp (d : gmap jsstring jsstring) (sku pid style : jsstring) :
  mapping_of d sku pid style !! lit "MRP"
  = Some match d !! lit "price" with
         | Some (c :: s) => mrp_of (c :: s)
         | _ => []
         end.
Proof. unfold mapping_of. by rewrite list_to_map_assoc. Qed.

(** Outside the three identifier labels the table does not depend on the
    identifier values. *)
Lemma mapping_of_other (d : gmap jsstring jsstring)
    (sku pid style sku' pid' style' : jsstring) (l : jsstring) :
  l ∉ identifier_labels ->
  mapping_of d sku pid style !! l = mapping_of d sku' pid' style' !! l.
Proof.
  unfold identifier_labels. rewrite !not_elem_of_cons.
  intros (H1 & H2 & H3 & _).
  assert (forall a, l <> a -> str_eqb a l = false) as Hne.
  { intros a Ha. destruct (str_eqb a l) eqn:E; [|done].
    by apply str_eqb_eq in E. }
  unfold mapping_of. rewrite !list_to_map_assoc. cbn [assoc].
  by rewrite (Hne _ H1), (Hne _ H2), (Hne _ H3).
Qed.

(** *** Required and optional keys *)

Example listing_key_product_name :
  listing_key amazon (lit "Product Name") = lit "AMAZON_Product_Name"
  /\ listing_key flipkart (lit "Package Weight")
     = lit "FLIPKART_Package_Weight".
Proof. split; by vm_compute. Qed.

(** For the labels of the platform table the generated key is the spelled
    one. *)
Lemma listing_key_spelled (p : platform) (l : jsstring) :
  l ∈ labels_of p -> listing_key p l = spelled_key p l.
Proof.
  intros Hl.
  assert (Forall (fun l => listing_key p l = spelled_key p l) (labels_of p))
    as HF.
  { destruct p; apply (bool_decide_unpack _); by vm_compute. }
  rewrite Forall_forall in HF. by apply HF.
Qed.

Lemma labels_required (p : platform) (l : jsstring) :
  l ∈ required (PLATFORM_FIELDS p) -> l ∈ labels_of p.
Proof. intros H. unfold labels_of. apply elem_of_app. by left. Qed.

Lemma labels_optional (p : platform) (l : jsstring) :
  l ∈ optional (PLATFORM_FIELDS p) -> l ∈ labels_of p.
Proof. intros H. unfold labels_of. apply elem_of_app. by right. Qed.

Lemma spelled_keys (p : platform) :
  spelled_key p <$> labels_of p = listing_key p <$> labels_of p.
Proof.
  apply list_eq_Forall2. apply Forall2_fmap, Forall_Forall2_diag.
  rewrite Forall_forall. intros l Hl. by rewrite listing_key_spelled.
Qed.

(** C1: for each of the four platforms and every map of extracted fields,
    the generated record has, for each required label, the key made of the
    platform's name in capitals, an underscore and the label with its
    spaces as underscores, holding the mapped value when that is non-empty
    and the sentinel "[REQUIRED]" otherwise; for each optional label, that
    key holding the mapped value exactly when the mapped value is
    non-empty, and no key otherwise, so never an empty value; distinct
    labels have distinct keys and the record has no other key. *)
Theorem listing_has_required_and_populated_optional
    (d : gmap jsstring jsstring) (p : platform) (w : world) :
  let listing := (generatePlatformListing d p w).1 in
  let mapping := (fieldMapping d w).1 in
  (forall l, l ∈ required (PLATFORM_FIELDS p) ->
     listing !! spelled_key p l
     = Some (match mapping !! l with
             | Some (c :: s) => c :: s
             | _ => lit "[REQUIRED]"
             end))
  /\ (forall l, l ∈ optional (PLATFORM_FIELDS p) ->
        listing !! spelled_key p l
        = match mapping !! l with
          | Some (c :: s) => Some (c :: s)
          | _ => None
          end)
  /\ (forall l, l ∈ optional (PLATFORM_FIELDS p) ->
        listing !! spelled_key p l <> Some [])
  /\ NoDup (spelled_key p <$> labels_of p)
  /\ (forall k, is_Some (listing !! k) -> k ∈ spelled_key p <$> labels_of p).
Proof.
  intros listing mapping. subst listing mapping.
  rewrite generatePlatformListing_run, spelled_keys. cbn [fst snd].
  split; [|split; [|split; [|split]]].
  - intros l Hl. rewrite <- listing_key_spelled by by apply labels_required.
    rewrite listing_required by done.
    by destruct ((fieldMapping d w).1 !! l) as [[|c s]|].
  - intros l Hl. rewrite <- listing_key_spelled by by apply labels_optional.
    by apply listing_optional.
  - intros l Hl. rewrite <- listing_key_spelled by by apply labels_optional.
    rewrite listing_optional by done.
    by destruct ((fieldMapping d w).1 !! l) as [[|c s]|].
  - apply listing_keys_NoDup.
  - intros k [v Hv].
    destruct (decide (k ∈ listing_key p <$> labels_of p)) as [|Hk]; [done|].
    by rewrite listing_no_other_key in Hv.
Qed.

Lemma listing_has_required_and_populated_optional_witness :
  lit "Product Name" ∈ required (PLATFORM_FIELDS flipkart)
  /\ lit "Listing Price" ∈ required (PLATFORM_FIELDS flipkart)
  /\ lit "Package Weight" ∈ optional (PLATFORM_FIELDS flipkart)
  /\ lit "Package Dimensions" ∈ optional (PLATFORM_FIELDS flipkart)
  /\ (generatePlatformListing
        {[ lit "name" := lit "Mug"; lit "weight" := lit "300 g" ]} flipkart
        (World (clock_from 0) ∅)).1 !! lit "FLIPKART_Product_Name"
     = Some (lit "Mug")
  /\ (generatePlatformListing
        {[ lit "name" := lit "Mug"; lit "weight" := lit "300 g" ]} flipkart
        (World (clock_from 0) ∅)).1 !! lit "FLIPKART_Listing_Price"
     = Some (lit "[REQUIRED]")
  /\ (generatePlatformListing
        {[ lit "name" := lit "Mug"; lit "weight" := lit "300 g" ]} flipkart
        (World (clock_from 0) ∅)).1 !! lit "FLIPKART_Package_Weight"
     = Some (lit "300 g")
  /\ (generatePlatformListing
        {[ lit "name" := lit "Mug"; lit "weight" := lit "300 g" ]} flipkart
        (World (clock_from 0) ∅)).1 !! lit "FLIPKART_Package_Dimensions"
     = None.
Proof.
  assert (lit "Product Name" ∈ required (PLATFORM_FIELDS flipkart)) as Hn.
  { simpl. rewrite !elem_of_cons. auto. }
  assert (lit "Listing Price" ∈ required (PLATFORM_FIELDS flipkart)) as Hp.
  { simpl. rewrite !elem_of_cons. auto 10. }
  assert (lit "Package Weight" ∈ optional (PLATFORM_FIELDS flipkart)) as Hw.
  { simpl. rewrite !elem_of_cons. auto. }
  assert (lit "Package Dimensions" ∈ optional (PLATFORM_FIELDS flipkart))
    as Hd.
  { simpl. rewrite !elem_of_cons. auto. }
  split; [exact Hn|]. split; [exact Hp|]. split; [exact Hw|].
  split; [exact Hd|].
  pose proof (listing_has_required_and_populated_optional
                {[ lit "name" := lit "Mug"; lit "weight" := lit "300 g" ]}
                flipkart (World (clock_from 0) ∅)) as (H1 & H2 & _).
  split; [exact (H1 _ Hn)|]. split; [exact (H1 _ Hp)|].
  split; [exact (H2 _ Hw)|exact (H2 _ Hd)].
Defined.

(** *** Direct labels and the brand default *)

(** C2 (as amended): every label that [fieldMapping] copies (Product Name,
    Category, Price, Selling Price, Listing Price, Description, Product
    Description, Size, Color, Material, Weight, Package Weight) maps to its
    extracted field, or to the empty string when that field is absent;
    Brand maps to the extracted brand or, when that is absent or empty, to
    "Generic", so with no brand entry a platform whose required list
    contains Brand gets the key [PLATFORM_Brand] with the value "Generic". *)
Theorem direct_labels_and_brand_default
    (d : gmap jsstring jsstring) (w : world) :
  let mapping := (fieldMapping d w).1 in
  (forall l k, (l, k) ∈ direct_labels ->
     mapping !! l = Some (default [] (d !! k)))
  /\ mapping !! lit "Brand"
     = Some (or_else (d !! lit "brand") (lit "Generic"))
  /\ (d !! lit "brand" = None ->
      mapping !! lit "Brand" = Some (lit "Generic")
      /\ forall p, lit "Brand" ∈ required (PLATFORM_FIELDS p) ->
           (generatePlatformListing d p w).1 !! listing_key p (lit "Brand")
           = Some (lit "Generic")).
Proof.
  intros mapping. subst mapping.
  destruct (fieldMapping_run d w) as (sku & pid & style & Hm & _).
  split; [|split].
  - intros l k Hlk. rewrite Hm. by apply mapping_of_direct.
  - rewrite Hm. apply mapping_of_brand.
  - intros Hb. rewrite Hm, mapping_of_brand, Hb. split; [done|].
    intros p Hp. rewrite generatePlatformListing_run. cbn [fst snd].
    rewrite (listing_required p _ _ Hp). by rewrite Hm, mapping_of_brand, Hb.
Qed.

Lemma direct_labels_and_brand_default_witness :
  (lit "Color", lit "color") ∈ direct_labels
  /\ ({[ lit "color" := lit "Blue" ]} : gmap jsstring jsstring) !! lit "brand"
     = None
  /\ lit "Brand" ∈ required (PLATFORM_FIELDS amazon)
  /\ (fieldMapping {[ lit "color" := lit "Blue" ]} (World (clock_from 0) ∅)).1
       !! lit "Color"
     = Some (default [] (({[ lit "color" := lit "Blue" ]}
                            : gmap jsstring jsstring) !! lit "color"))
  /\ (generatePlatformListing {[ lit "color" := lit "Blue" ]} amazon
        (World (clock_from 0) ∅)).1 !! listing_key amazon (lit "Brand")
     = Some (lit "Generic").
Proof.
  assert ((lit "Color", lit "color") ∈ direct_labels) as Hdir.
  { unfold direct_labels. rewrite !elem_of_cons. auto 20. }
  assert (({[ lit "color" := lit "Blue" ]} : gmap jsstring jsstring)
            !! lit "brand" = None) as Hnone by (by vm_compute).
  assert (lit "Brand" ∈ required (PLATFORM_FIELDS amazon)) as Hreq.
  { simpl. rewrite !elem_of_cons. auto. }
  split; [exact Hdir|]. split; [exact Hnone|]. split; [exact Hreq|].
  pose proof (direct_labels_and_brand_default
                {[ lit "color" := lit "Blue" ]} (World (clock_from 0) ∅))
    as (H1 & _ & H3).
  split; [exact (H1 _ _ Hdir)|]. exact (proj2 (H3 Hnone) amazon Hreq).
Defined.

(** C2 as stated fails: with no brand entry the label Brand maps to
    "Generic", not to the empty string, and the amazon listing holds
    "Generic", not the sentinel, under AMAZON_Brand. *)
Lemma brand_default_counterexample :
  (∅ : gmap jsstring jsstring) !! lit "brand" = None
  /\ (fieldMapping ∅ (World (clock_from 0) ∅)).1 !! lit "Brand"
     = Some (lit "Generic")
  /\ (generatePlatformListing ∅ amazon (World (clock_from 0) ∅)).1
       !! lit "AMAZON_Brand"
     = Some (lit "Generic")
  /\ lit "Generic" <> lit "[REQUIRED]".
Proof. repeat split; by vm_compute. Qed.

(** *** Two runs *)

(** C8 (as amended): two calls of [generatePlatformListing] with the same
    extracted fields and the same platform, at any two states of the clock,
    yield records that agree on every key except possibly the three
    identifier keys (SKU, Product ID, Style ID); when [sku] is present and
    non-empty the two records are equal.  The call leaves the store
    alone. *)
Theorem listing_runs_agree
    (d : gmap jsstring jsstring) (p : platform) (w1 w2 : world) :
  (forall k, k ∉ listing_key p <$> identifier_labels ->
     (generatePlatformListing d p w1).1 !! k
     = (generatePlatformListing d p w2).1 !! k)
  /\ (truthy (d !! lit "sku") = true ->
      (generatePlatformListing d p w1).1 = (generatePlatformListing d p w2).1)
  /\ arrays (generatePlatformListing d p w1).2 = arrays w1.
Proof.
  rewrite !generatePlatformListing_run. cbn [fst snd].
  destruct (fieldMapping_run d w1) as (s1 & p1 & y1 & Hm1 & Ha1 & Ht1).
  destruct (fieldMapping_run d w2) as (s2 & p2 & y2 & Hm2 & Ha2 & Ht2).
  split; [|split; [|done]].
  - intros k Hk. rewrite Hm1, Hm2.
    destruct (decide (k ∈ listing_key p <$> labels_of p)) as [Hin|Hout].
    + apply list_elem_of_fmap in Hin as (l & -> & Hl).
      assert (l ∉ identifier_labels) as Hid.
      { intros Hid. apply Hk. by apply list_elem_of_fmap_2. }
      unfold labels_of in Hl. apply elem_of_app in Hl as [Hl|Hl].
      * rewrite !listing_required by done.
        by rewrite (mapping_of_other d s1 p1 y1 s2 p2 y2 l Hid).
      * rewrite !listing_optional by done.
        by rewrite (mapping_of_other d s1 p1 y1 s2 p2 y2 l Hid).
    + by rewrite !listing_no_other_key.
  - intros Ht. destruct (Ht1 Ht) as (-> & -> & -> & _).
    destruct (Ht2 Ht) as (-> & -> & -> & _). by rewrite Hm1, Hm2.
Qed.

Lemma listing_runs_agree_witness :
  (lit "AMAZON_MRP" ∉ listing_key amazon <$> identifier_labels)
  /\ truthy (({[ lit "sku" := lit "A1" ]} : gmap jsstring jsstring)
               !! lit "sku") = true
  /\ (generatePlatformListing {[ lit "sku" := lit "A1" ]} amazon
        (World (clock_from 1) ∅)).1 !! lit "AMAZON_MRP"
     = (generatePlatformListing {[ lit "sku" := lit "A1" ]} amazon
          (World (clock_from 2) ∅)).1 !! lit "AMAZON_MRP"
  /\ (generatePlatformListing {[ lit "sku" := lit "A1" ]} amazon
        (World (clock_from 1) ∅)).1
     = (generatePlatformListing {[ lit "sku" := lit "A1" ]} amazon
          (World (clock_from 2) ∅)).1.
Proof.
  assert (lit "AMAZON_MRP" ∉ (listing_key amazon <$> identifier_labels))
    as Hk.
  { apply (bool_decide_unpack _). by vm_compute. }
  assert (truthy (({[ lit "sku" := lit "A1" ]} : gmap jsstring jsstring)
                    !! lit "sku") = true) as Ht by (by vm_compute).
  split; [exact Hk|]. split; [exact Ht|].
  pose proof (listing_runs_agree {[ lit "sku" := lit "A1" ]} amazon
                (World (clock_from 1) ∅) (World (clock_from 2) ∅))
    as (H1 & H2 & _).
  split; [exact (H1 _ Hk)|exact (H2 Ht)].
Defined.

(** C8 as stated fails: the extractor leaves an empty [sku] on the input
    "SKU: ", and with [sku] present but empty the SKU entry still comes
    from the clock, so two runs differ. *)
Lemma empty_sku_counterexample :
  extractProductInfo (lit "SKU: ") !! lit "sku" = Some []
  /\ (generatePlatformListing {[ lit "sku" := [] ]} amazon
        (World (clock_from 1) ∅)).1 !! lit "AMAZON_SKU"
     = Some (lit "SKU1")
  /\ (generatePlatformListing {[ lit "sku" := [] ]} amazon
        (World (clock_from 2) ∅)).1 !! lit "AMAZON_SKU"
     = Some (lit "SKU2").
Proof. repeat split; by vm_compute. Qed.

(** *** Price and MRP *)

(** The integer chosen by [toFixed(2)] is a nearest one: it is within half
    a hundredth of the value [m * 2^-q]. *)
Lemma nearest_hundredths_close (m : positive) (q : positive) :
  let n := nearest_hundredths m (Zneg q) in
  (2 * Z.abs (n * 2 ^ Zpos q - 100 * Zpos m) <= 2 ^ Zpos q)%Z.
Proof.
  simpl. rewrite Pos2Z.inj_pow.
  set (D := (2 ^ Zpos q)%Z). set (N := (Zpos m * 100)%Z).
  assert (0 < D)%Z as HD by (apply Z.pow_pos_nonneg; lia).
  pose proof (Z.div_mod (2 * N + D) (2 * D) ltac:(lia)) as Hdm.
  pose proof (Z.mod_pos_bound (2 * N + D) (2 * D) ltac:(lia)) as Hmod.
  nia.
Qed.

(** [toFixed(2)] of a number with a fractional part prints, with two
    fraction digits, an integer number of hundredths nearest to it. *)
Theorem toFixed2_rounds_to_nearest (s : bool) (m q : positive) :
  let n := nearest_hundredths m (Zneg q) in
  toFixed2 (S754_finite s m (Zneg q))
  = (if s then [45] else []) ++ fixed2_digits n
  /\ (2 * Z.abs (n * 2 ^ Zpos q - 100 * Zpos m) <= 2 ^ Zpos q)%Z.
Proof. split; [done|apply nearest_hundredths_close]. Qed.

(** *** Identifiers, images and key features *)

(** X14: with [sku] absent or empty, the three identifier labels get the
    prefixes SKU, PID and STYLE followed by three successive readings of
    the clock, so the three values differ from one another. *)
Theorem stamped_identifiers_differ
    (d : gmap jsstring jsstring) (w : world) :
  truthy (d !! lit "sku") = false ->
  let mapping := (fieldMapping d w).1 in
  let sku := lit "SKU" ++ decimalZ (readings w 0%nat) in
  let pid := lit "PID" ++ decimalZ (readings w 1%nat) in
  let style := lit "STYLE" ++ decimalZ (readings w 2%nat) in
  mapping !! lit "SKU" = Some sku
  /\ mapping !! lit "Product ID" = Some pid
  /\ mapping !! lit "Style ID" = Some style
  /\ sku <> pid /\ sku <> style /\ pid <> style.
Proof.
  intros Ht. unfold fieldMapping, bind, ret.
  assert (forall prefix w', or_stamp (d !! lit "sku") prefix w'
            = (prefix ++ decimalZ (readings w' 0%nat),
               World (fun n => readings w' (S n)) (arrays w'))) as Hst.
  { intros prefix w'. by destruct (d !! lit "sku") as [[|c s]|]. }
  rewrite !Hst. cbn [fst snd readings]. unfold mapping_of.
  rewrite !list_to_map_assoc. repeat split; try done.
Qed.

Lemma stamped_identifiers_differ_witness :
  truthy ((∅ : gmap jsstring jsstring) !! lit "sku") = false
  /\ (fieldMapping ∅ (World (clock_from 7) ∅)).1 !! lit "SKU"
     = Some (lit "SKU" ++ decimalZ (readings (World (clock_from 7) ∅) 0%nat))
  /\ (fieldMapping ∅ (World (clock_from 7) ∅)).1 !! lit "Style ID"
     = Some (lit "STYLE"
             ++ decimalZ (readings (World (clock_from 7) ∅) 2%nat)).
Proof.
  assert (truthy ((∅ : gmap jsstring jsstring) !! lit "sku") = false) as Ht
    by reflexivity.
  split; [exact Ht|].
  pose proof (stamped_identifiers_differ ∅ (World (clock_from 7) ∅) Ht)
    as (H1 & _ & H3 & _).
  split; [exact H1|exact H3].
Defined.

(** ** The handler *)

Lemma forEach_arrays {A S : Type} (f : S -> A -> M S) (l : list A) (s : S)
    (w : world) :
  (forall s' x w', arrays (f s' x w').2 = arrays w') ->
  arrays (forEach f l s w).2 = arrays w.
Proof.
  intros Hf. revert s w. induction l as [|x l IH]; intros s w; [done|].
  simpl. unfold bind. specialize (Hf s x w).
  destruct (f s x w) as [s' w']. simpl in Hf. by rewrite IH.
Qed.

(** Merging the listings reads the clock only. *)
Lemma merge_listings_arrays (extracted : gmap jsstring jsstring)
    (platforms : list platform) (w : world) :
  arrays (merge_listings extracted platforms w).2 = arrays w.
Proof.
  apply forEach_arrays. intros newItem p w'. unfold bind, ret.
  pose proof (fieldMapping_run extracted w') as (s & i & y & _ & Ha & _).
  rewrite generatePlatformListing_run. done.
Qed.

(** The platform list is empty unless a platform is named or the intent
    is catalog. *)
Lemma analyzeMessage_no_platform (m : jsstring) :
  (analyzeMessage m).1 <> catalog ->
  (forall p, includes (toLowerCase m) (platform_id p) = false) ->
  (analyzeMessage m).2 = [].
Proof.
  intros Hint Hnone.
  pose proof (Hnone amazon) as Ha. pose proof (Hnone flipkart) as Hf.
  pose proof (Hnone meesho) as Hm. pose proof (Hnone myntra) as Hy.
  unfold platform_id in Ha, Hf, Hm, Hy.
  unfold analyzeMessage in *. cbn [fst snd] in *.
  rewrite Ha, Hf, Hm, Hy. cbn [app].
  destruct (includes (toLowerCase m) (lit "catalog")
            || includes (toLowerCase m) (lit "listing")
            || includes (toLowerCase m) (lit "product")); [done|].
  by repeat match goal with |- context [if ?b then _ else _] => destruct b end.
Qed.

(** C9: for every message classified as analyze that names none of the
    four marketplaces the platform list is empty, so with a non-empty
    catalog no required field is checked, none is found missing, and the
    response is the catalog-looks-complete text, with nothing between its
    "for" and the full stop, whatever the first row holds; no updated
    catalog is returned and nothing changes. *)
Theorem analyze_without_platform_reports_complete
    (req : request) (w : world) (l : loc) (item : CatalogItem)
    (others : list CatalogItem) :
  (analyzeMessage (message req)).1 = analyze ->
  (forall p, includes (toLowerCase (message req)) (platform_id p) = false) ->
  catalogData req = Some l ->
  arrays w !! l = Some (item :: others) ->
  (analyzeMessage (message req)).2 = []
  /\ flat_map (fun p => required (PLATFORM_FIELDS p))
       (analyzeMessage (message req)).2 = []
  /\ missing_fields item (analyzeMessage (message req)).2 = []
  /\ response (POST req w).1
     = lit "Great! Your catalog looks complete for . All required fields are filled. You're ready to list your products!"
  /\ updatedCatalog (POST req w).1 = None
  /\ (POST req w).2 = w.
Proof.
  intros Hint Hnone Hcat Harr.
  assert ((analyzeMessage (message req)).2 = []) as Hnil.
  { apply analyzeMessage_no_platform; [by rewrite Hint|done]. }
  unfold POST. destruct (analyzeMessage (message req)) as [i ps].
  simpl in Hint, Hnil. subst i ps.
  unfold bind, elements_of, ret. rewrite Hcat, Harr. cbn [fst snd].
  by repeat split.
Qed.

Lemma analyze_without_platform_reports_complete_witness :
  (analyzeMessage (lit "check it")).1 = analyze
  /\ (forall p, includes (toLowerCase (lit "check it")) (platform_id p) = false)
  /\ ({[ 5%positive := [ ({[ lit "AMAZON_Brand" := VStr (lit "[REQUIRED]") ]}
                            : CatalogItem) ] ]}
        : gmap loc (list CatalogItem)) !! 5%positive
     = Some [ ({[ lit "AMAZON_Brand" := VStr (lit "[REQUIRED]") ]}
                 : CatalogItem) ]
  /\ response
       (POST {| message := lit "check it"; catalogData := Some 5%positive;
                rawData := [] |}
          (World (clock_from 0)
             {[ 5%positive :=
                  [ ({[ lit "AMAZON_Brand" := VStr (lit "[REQUIRED]") ]}
                       : CatalogItem) ] ]})).1
     = lit "Great! Your catalog looks complete for . All required fields are filled. You're ready to list your products!".
Proof.
  assert ((analyzeMessage (lit "check it")).1 = analyze) as H1
    by (vm_compute; reflexivity).
  assert (forall p, includes (toLowerCase (lit "check it")) (platform_id p)
                    = false) as H2
    by (intros p; destruct p; vm_compute; reflexivity).
  assert (({[ 5%positive := [ ({[ lit "AMAZON_Brand"
                                    := VStr (lit "[REQUIRED]") ]}
                                 : CatalogItem) ] ]}
             : gmap loc (list CatalogItem)) !! 5%positive
          = Some [ ({[ lit "AMAZON_Brand" := VStr (lit "[REQUIRED]") ]}
                      : CatalogItem) ]) as H3
    by apply lookup_singleton_eq.
  split; [exact H1|]. split; [exact H2|]. split; [exact H3|].
  exact (proj1 (proj2 (proj2 (proj2
    (analyze_without_platform_reports_complete
       {| message := lit "check it"; catalogData := Some 5%positive;
          rawData := [] |}
       (World (clock_from 0) _) 5%positive _ [] H1 H2 eq_refl H3))))).
Defined.

Example complete_response_no_platform :
  complete_response []
  = lit "Great! Your catalog looks complete for . All required fields are filled. You're ready to list your products!".
Proof. by vm_compute. Qed.

(** C4: the message "analyze my catalog" contains "catalog", which is
    tested first, so the intent is catalog and not analyze: with no raw
    data the response is the listing guidance, not the no-catalog text,
    and with raw data a row is appended to the empty catalog. *)
Theorem analyze_my_catalog_takes_catalog_branch
    (c : option loc) (w : world) :
  analyzeMessage (lit "analyze my catalog")
  = (catalog, [amazon; flipkart; meesho; myntra])
  /\ response
       (POST {| message := lit "analyze my catalog"; catalogData := c;
                rawData := [] |} w).1
     = guidance_response [amazon; flipkart; meesho; myntra]
  /\ guidance_response [amazon; flipkart; meesho; myntra]
     <> no_catalog_response
  /\ updatedCatalog
       (POST {| message := lit "analyze my catalog"; catalogData := c;
                rawData := lit "Brand: Acme" |} w).1
     = Some (fresh (dom (arrays w))).
Proof.
  assert (analyzeMessage (lit "analyze my catalog")
          = (catalog, [amazon; flipkart; meesho; myntra])) as Hint
    by (by vm_compute).
  split; [done|]. split; [|split].
  - unfold POST. cbn [message rawData]. by rewrite Hint.
  - by vm_compute.
  - unfold POST. cbn [message rawData catalogData]. rewrite Hint.
    change (lit "Brand: Acme") with (66 :: lit "rand: Acme").
    cbv iota. unfold bind, ret.
    pose proof (merge_listings_arrays
                  (extractProductInfo (66 :: lit "rand: Acme"))
                  [amazon; flipkart; meesho; myntra] w) as Harr.
    destruct (merge_listings (extractProductInfo (66 :: lit "rand: Acme"))
                [amazon; flipkart; meesho; myntra] w) as [newItem w1].
    cbn [fst snd] in *. unfold elements_of, alloc. cbn [fst snd updatedCatalog].
    by rewrite Harr.
Qed.

(** *** The merged row *)

(** Every value of a listing is non-empty. *)
Lemma listing_values_nonempty (p : platform)
    (mapping : gmap jsstring jsstring) (k v : jsstring) :
  listing_of p mapping !! k = Some v -> v <> [].
Proof.
  intros Hk.
  destruct (decide (k ∈ listing_key p <$> labels_of p)) as [Hin|Hout].
  - apply list_elem_of_fmap in Hin as (l & -> & Hl).
    unfold labels_of in Hl. apply elem_of_app in Hl as [Hl|Hl].
    + rewrite listing_required in Hk by done. injection Hk as <-.
      by destruct (mapping !! l) as [[|c s]|].
    + rewrite listing_optional in Hk by done.
      destruct (mapping !! l) as [[|c s]|]; try done. by injection Hk as <-.
  - by rewrite listing_no_other_key in Hk.
Qed.

(** A key with a non-empty value keeps one through later merges, and a
    merged platform leaves its required keys in the row. *)
Lemma merge_listings_keeps (extracted : gmap jsstring jsstring)
    (ps : list platform) (item : gmap jsstring jsstring) (w : world)
    (k : jsstring) :
  (exists v, item !! k = Some v /\ v <> []) ->
  exists v,
    (forEach
       (fun newItem p =>
          do platformData <- generatePlatformListing extracted p ;
          ret (platformData ∪ newItem)) ps item w).1 !! k = Some v
    /\ v <> [].
Proof.
  revert item w. induction ps as [|p ps IH]; intros item w Hk; [done|].
  simpl. unfold bind at 1. unfold bind at 1, ret at 1.
  rewrite generatePlatformListing_run. apply IH.
  destruct Hk as (v & Hv & Hne). rewrite lookup_union.
  destruct (listing_of p (fieldMapping extracted w).1 !! k) as [v'|] eqn:E.
  - exists v'. rewrite Hv. split; [done|].
    by apply (listing_values_nonempty _ _ _ _ E).
  - exists v. by rewrite Hv.
Qed.

(** Every required field of every merged platform is a key of the row,
    with a non-empty value. *)
Lemma merge_listings_required
    (extracted : gmap jsstring jsstring) (ps : list platform) (w : world)
    (p : platform) (l : jsstring) :
  p ∈ ps -> l ∈ required (PLATFORM_FIELDS p) ->
  exists v,
    (merge_listings extracted ps w).1 !! listing_key p l = Some v
    /\ v <> [].
Proof.
  unfold merge_listings. generalize extracted at 2. intros item.
  revert item w. induction ps as [|q ps IH]; intros item w Hp Hl.
  { by apply elem_of_nil in Hp. }
  simpl. unfold bind at 1. unfold bind at 1, ret at 1.
  rewrite generatePlatformListing_run.
  apply elem_of_cons in Hp as [<-|Hp]; [|by apply IH].
  apply merge_listings_keeps. rewrite lookup_union.
  rewrite (listing_required p _ l Hl). simpl.
  eexists. split; [by destruct (item !! listing_key p l)|].
  by destruct ((fieldMapping extracted w).1 !! l) as [[|c s]|].
Qed.

(** ** Further properties of the handler *)

(** X21: under the analyze intent, a catalog that is missing or has no row
    is answered with the no-catalog text, nothing is returned and nothing
    changes; a catalog with a row is never answered with that text. *)
Theorem analyze_empty_catalog (req : request) (w : world) :
  (analyzeMessage (message req)).1 = analyze ->
  ((catalogData req = None
    \/ exists l, catalogData req = Some l /\ arrays w !! l = Some []) ->
   POST req w
   = ({| response
           := lit "No catalog loaded. Please upload a catalog file first.";
         updatedCatalog := None |}, w))
  /\ (forall l item others,
        catalogData req = Some l -> arrays w !! l = Some (item :: others) ->
        response (POST req w).1
        <> lit "No catalog loaded. Please upload a catalog file first.").
Proof.
  intros Hint. unfold POST.
  destruct (analyzeMessage (message req)) as [i ps]. simpl in Hint. subst i.
  unfold bind, ret, elements_of. cbn [fst snd]. split.
  - by intros [->|(l & -> & ->)].
  - intros l item others -> ->. unfold default, id.
    cbn [from_option fst response].
    generalize (missing_fields item ps).
    intros [|m ms] E; apply (f_equal head) in E; by vm_compute in E.
Qed.

Lemma analyze_empty_catalog_witness :
  (analyzeMessage (lit "check for missing data")).1 = analyze
  /\ POST {| message := lit "check for missing data"; catalogData := None;
             rawData := [] |} (World (clock_from 0) ∅)
     = ({| response
             := lit "No catalog loaded. Please upload a catalog file first.";
           updatedCatalog := None |}, World (clock_from 0) ∅)
  /\ POST {| message := lit "check for missing data";
             catalogData := Some 5%positive; rawData := [] |}
        (World (clock_from 0) {[ 5%positive := [] ]})
     = ({| response
             := lit "No catalog loaded. Please upload a catalog file first.";
           updatedCatalog := None |},
        World (clock_from 0) {[ 5%positive := [] ]}).
Proof.
  assert ((analyzeMessage (lit "check for missing data")).1 = analyze) as H1
    by (vm_compute; reflexivity).
  split; [exact H1|]. split.
  - apply (analyze_empty_catalog
             {| message := lit "check for missing data"; catalogData := None;
                rawData := [] |} (World (clock_from 0) ∅) H1).
    left. reflexivity.
  - apply (analyze_empty_catalog
             {| message := lit "check for missing data";
                catalogData := Some 5%positive; rawData := [] |}
             (World (clock_from 0) {[ 5%positive := [] ]}) H1).
    right. exists 5%positive. split; [reflexivity|].
    apply lookup_singleton_eq.
Defined.

(** ** Where the extracted values come from *)

(** The capture left by a match is the one it started with or a piece of
    the matched text. *)
Lemma steps_capture (r : regex) (u s' : jsstring) (c c' : option jsstring) :
  steps r u s' c c' ->
  c' = c \/ exists a x b, u = a ++ x ++ b /\ c' = Some x.
Proof.
  induction 1
    as [| | | |a b u1 u2 s' c c1 c' _ IH1 _ IH2| | | | |a u s' c c1 _ _|];
    auto.
  - destruct IH2 as [->|(a2 & x & b2 & -> & ->)].
    + destruct IH1 as [->|(a1 & x & b1 & -> & ->)]; [by left|].
      right. exists a1, x, (b1 ++ u2). by rewrite <- !app_assoc.
    + right. exists (u1 ++ a2), x, b2. by rewrite <- !app_assoc.
  - right. exists [], u, []. by rewrite app_nil_r.
Qed.

Lemma trim_infix (c : jsstring) : exists a b, c = a ++ trim c ++ b.
Proof.
  destruct (trimStart_suffix c) as [a Ha].
  destruct (trimStart_suffix (rev (trimStart c))) as [b Hb].
  exists a, (rev b). unfold trim. rewrite Ha at 1. f_equal.
  apply (f_equal (@rev N)) in Hb.
  by rewrite rev_involutive, rev_app_distr in Hb.
Qed.

(** X2: every entry of the result sits under one of the ten keys, and its
    value is a contiguous piece of the input: the extractor never invents
    text. *)
Theorem extracted_values_come_from_input (s k v : jsstring) :
  extractProductInfo s !! k = Some v ->
  k ∈ patterns.*1 /\ exists pre post, s = pre ++ v ++ post.
Proof.
  intros H. destruct (extract_lookup_inv _ _ _ H) as (r & c & Hin & Hs & ->).
  split; [by apply (list_elem_of_fmap_2 fst _ (k, r))|].
  apply search_sound in Hs as (pre & t & -> & Ht).
  unfold match_here in Ht.
  apply exec_sound in Ht as (u & s' & cap' & -> & Hsteps & Hk).
  injection Hk as ->.
  apply steps_capture in Hsteps as [?|(a & x & b & -> & Hx)]; [done|].
  injection Hx as <-. destruct (trim_infix c) as (a' & b' & Hc).
  exists (pre ++ a ++ a'), (b' ++ b ++ s').
  rewrite Hc at 1. by rewrite <- !app_assoc.
Qed.

Lemma extracted_values_come_from_input_witness :
  extractProductInfo (lit "SKU:  AB-12 \nSize: M") !! lit "sku"
  = Some (lit "AB-12")
  /\ lit "sku" ∈ patterns.*1
  /\ exists pre post, lit "SKU:  AB-12 \nSize: M" = pre ++ lit "AB-12" ++ post.
Proof.
  assert (extractProductInfo (lit "SKU:  AB-12 \nSize: M") !! lit "sku"
          = Some (lit "AB-12")) as H by (by vm_compute).
  split; [exact H|]. exact (extracted_values_come_from_input _ _ _ H).
Defined.

Lemma strip_exact (l u : jsstring) :
  strip l u = Some [] -> map canonicalize l = map canonicalize u.
Proof.
  revert u. induction l as [|a l IH]; intros [|b u] H; simpl in H; try done.
  destruct (canonicalize a =? canonicalize b) eqn:E; [|done].
  apply N.eqb_eq in E. simpl. rewrite E. f_equal. by apply IH.
Qed.

Lemma steps_alts (ls : list jsstring) (u s' : jsstring)
    (c c' : option jsstring) :
  ls <> [] -> steps (alts ls) u s' c c' ->
  c' = c /\ exists l, l ∈ ls /\ map canonicalize l = map canonicalize u.
Proof.
  intros Hne. induction ls as [|l [|l2 r] IH]; [done| |]; intros H.
  - inversion H; subst. split; [done|]. exists l. split; [by left|].
    by apply strip_exact.
  - change (alts (l :: l2 :: r)) with (Alt (Chars l) (alts (l2 :: r))) in H.
    inversion H as [| |? ? ? ? ? ? Ha|? ? ? ? ? ? Ha| | | | | | |]; subst.
    + inversion Ha; subst. split; [done|]. exists l. split; [by left|].
      by apply strip_exact.
    + destruct (IH ltac:(done) Ha) as (-> & l' & Hl' & Hcan).
      split; [done|]. exists l'. split; [by right|done].
Qed.

(** What a match of [(?:l1|l2|...)[\s:]+(.+?)(?:nl|$)] has read: a label, a
    run of separators, the captured run of units of one line, and then the
    terminator [nl] or the end of the input. *)
Lemma labelled_capture (ls : list jsstring) (nl t c : jsstring) :
  ls <> [] ->
  match_here
    (Seq (alts ls)
         (Seq (Plus true sep)
              (Seq (Group (Plus false dot)) (Alt (Chars nl) End))))
    t = Some (Some c) ->
  exists l L sp tail,
    t = L ++ sp ++ c ++ tail
    /\ l ∈ ls /\ map canonicalize l = map canonicalize L
    /\ sp <> [] /\ forallb sep sp = true
    /\ c <> [] /\ forallb dot c = true
    /\ (tail = []
        \/ exists n t', tail = n ++ t'
                        /\ map canonicalize nl = map canonicalize n).
Proof.
  unfold match_here. intros Hne H.
  apply exec_sound in H as (u & s' & cap' & -> & Hsteps & Hk).
  injection Hk as ->.
  inversion Hsteps as [| | | |? ? uL u2 ? ? ? ? HL H2| | | | | |]; subst.
  apply (steps_alts _ _ _ _ _ Hne) in HL as (-> & l & Hl & Hcan).
  inversion H2 as [| | | |? ? usp u3 ? ? ? ? Hsp H3| | | | | |]; subst.
  inversion Hsp as [| | | | |? ? ? ? ? Hspne Hspall| | | | |]; subst.
  inversion H3 as [| | | |? ? uc ut ? ? ? ? Hc Ht| | | | | |]; subst.
  inversion Hc as [| | | | | | | | |? ? ? ? ? Hdot|]; subst.
  inversion Hdot as [| | | | |? ? ? ? ? Hcne Hcall| | | | |]; subst.
  exists l, uL, usp, (ut ++ s'). rewrite <- !app_assoc.
  inversion Ht as [| |? ? ? ? ? ? Ha|? ? ? ? ? ? Ha| | | | | | |]; subst;
    inversion Ha; subst; repeat (split; [done|]).
  - right. exists ut, s'. split; [done|]. by apply strip_exact.
  - by left.
Qed.

Lemma strip_lf (u : jsstring) :
  map canonicalize [10] = map canonicalize u -> u = [10].
Proof.
  destruct u as [|x [|y u]]; try done. intros H. injection H as H.
  pose proof (canonicalize_lf x) as E. rewrite H, N.eqb_refl in E.
  symmetry in E. apply N.eqb_eq in E. by subst.
Qed.

(** X3: a rest-of-line field is only ever taken from what follows one of its
    trigger labels (in any letter case) and a run of colons and white
    space: the value is a run of units of one line, trimmed, and the run
    ends at a line feed or at the end of the input. *)
Theorem line_field_value_follows_label (f : line_field) (s v : jsstring) :
  extractProductInfo s !! field_key f = Some v ->
  exists l L pre sp c tail,
    s = pre ++ L ++ sp ++ c ++ tail
    /\ l ∈ field_labels f /\ map canonicalize l = map canonicalize L
    /\ sp <> [] /\ forallb sep sp = true
    /\ c <> [] /\ forallb dot c = true
    /\ line_end tail = true
    /\ v = trim c.
Proof.
  rewrite (extract_lookup _ _ _ (field_in_patterns f)). intros H.
  destruct (search (field_pattern f) s) as [[c|]|] eqn:E; try done.
  injection H as <-. apply search_sound in E as (pre & t & -> & Ht).
  rewrite field_pattern_alts in Ht.
  apply labelled_capture in Ht
    as (l & L & sp & tail & -> & Hl & Hcan & ? & ? & ? & ? & Htail);
    [|by destruct f].
  exists l, L, pre, sp, c, tail. repeat (split; [done|]). split; [|done].
  destruct Htail as [->|(n & t' & -> & Hn)]; [done|].
  by rewrite (strip_lf n Hn).
Qed.

Lemma line_field_value_follows_label_witness :
  extractProductInfo (lit "COLOUR : Navy blue 
Size: M") !! field_key f_color
  = Some (lit "Navy blue")
  /\ exists l L pre sp c tail,
       lit "COLOUR : Navy blue 
Size: M" = pre ++ L ++ sp ++ c ++ tail
       /\ l ∈ field_labels f_color
       /\ map canonicalize l = map canonicalize L
       /\ sp <> [] /\ forallb sep sp = true
       /\ c <> [] /\ forallb dot c = true
       /\ line_end tail = true
       /\ lit "Navy blue" = trim c.
Proof.
  assert (extractProductInfo (lit "COLOUR : Navy blue 
Size: M")
            !! field_key f_color = Some (lit "Navy blue")) as H
    by (by vm_compute).
  split; [exact H|]. exact (line_field_value_follows_label _ _ _ H).
Defined.

Lemma strip_lf_lf (u : jsstring) :
  map canonicalize [10; 10] = map canonicalize u -> u = [10; 10].
Proof.
  destruct u as [|x [|y [|z u]]]; try done. intros H. injection H as Hx Hy.
  pose proof (canonicalize_lf x) as Ex. rewrite Hx, N.eqb_refl in Ex.
  pose proof (canonicalize_lf y) as Ey. rewrite Hy, N.eqb_refl in Ey.
  symmetry in Ex, Ey. apply N.eqb_eq in Ex. apply N.eqb_eq in Ey. by subst.
Qed.

(** X4: the description is only ever taken from one line that a blank line or
    the end of the input follows. *)
Theorem description_needs_blank_line (s v : jsstring) :
  extractProductInfo s !! lit "description" = Some v ->
  exists l L pre sp c tail,
    s = pre ++ L ++ sp ++ c ++ tail
    /\ l ∈ [lit "description"; lit "details"]
    /\ map canonicalize l = map canonicalize L
    /\ sp <> [] /\ forallb sep sp = true
    /\ c <> [] /\ forallb dot c = true
    /\ (tail = [] \/ exists t, tail = 10 :: 10 :: t)
    /\ v = trim c.
Proof.
  assert ((lit "description", pat_description) ∈ patterns) as Hin.
  { unfold patterns. rewrite !elem_of_cons. auto 10. }
  rewrite (extract_lookup _ _ _ Hin). intros H.
  destruct (search pat_description s) as [[c|]|] eqn:E; try done.
  injection H as <-. apply search_sound in E as (pre & t & -> & Ht).
  change pat_description
    with (Seq (alts [lit "description"; lit "details"])
              (Seq (Plus true sep)
                   (Seq (Group (Plus false dot))
                        (Alt (Chars (lit "

")) End)))) in Ht.
  apply labelled_capture in Ht
    as (l & L & sp & tail & -> & Hl & Hcan & ? & ? & ? & ? & Htail);
    [|done].
  exists l, L, pre, sp, c, tail. repeat (split; [done|]). split; [|done].
  destruct Htail as [->|(n & t' & -> & Hn)]; [by left|right].
  exists t'. by rewrite (strip_lf_lf n Hn).
Qed.

Lemma description_needs_blank_line_witness :
  extractProductInfo (lit "Details: Soft cotton

Color: Blue")
    !! lit "description" = Some (lit "Soft cotton")
  /\ exists l L pre sp c tail,
       lit "Details: Soft cotton

Color: Blue" = pre ++ L ++ sp ++ c ++ tail
       /\ l ∈ [lit "description"; lit "details"]
       /\ map canonicalize l = map canonicalize L
       /\ sp <> [] /\ forallb sep sp = true
       /\ c <> [] /\ forallb dot c = true
       /\ (tail = [] \/ exists t, tail = 10 :: 10 :: t)
       /\ lit "Soft cotton" = trim c.
Proof.
  assert (extractProductInfo (lit "Details: Soft cotton

Color: Blue")
            !! lit "description" = Some (lit "Soft cotton")) as H
    by (by vm_compute).
  split; [exact H|]. exact (description_needs_blank_line _ _ H).
Defined.

(** Every pattern asks for a run of separators after its label. *)
Lemma patterns_separator (k : jsstring) (r : regex) :
  (k, r) ∈ patterns -> exists a b, r = Seq a (Seq (Plus true sep) b).
Proof.
  unfold patterns. rewrite !elem_of_cons, elem_of_nil. intros Hin.
  repeat destruct Hin as [Hin|Hin]; try done; injection Hin as -> ->;
    eexists _, _; reflexivity.
Qed.

(** X5: a text without any colon or white space yields no field at all (in
    particular the empty text). *)
Theorem no_separator_no_fields (s : jsstring) :
  forallb (fun x => negb (sep x)) s = true -> extractProductInfo s = ∅.
Proof.
  intros Hs. apply map_eq. intros k. rewrite lookup_empty.
  destruct (extractProductInfo s !! k) as [v|] eqn:E; [exfalso|done].
  destruct (extract_lookup_inv _ _ _ E) as (r & c & Hin & Hsearch & _).
  destruct (patterns_separator _ _ Hin) as (a & b & ->).
  apply search_sound in Hsearch as (pre & t & -> & Ht).
  unfold match_here in Ht.
  apply exec_sound in Ht as (u & s' & cap' & -> & Hsteps & _).
  inversion Hsteps as [| | | |? ? u1 u2 ? ? ? ? _ H2| | | | | |]; subst.
  inversion H2 as [| | | |? ? usp u3 ? ? ? ? Hsp _| | | | | |]; subst.
  inversion Hsp as [| | | | |? ? ? ? ? Hne Hall| | | | |]; subst.
  destruct usp as [|x usp]; [done|]. simpl in Hall.
  apply andb_prop in Hall as [Hx _].
  rewrite forallb_forall in Hs. specialize (Hs x). rewrite Hx in Hs.
  discriminate Hs. rewrite !in_app_iff. simpl. auto 10.
Qed.

Lemma no_separator_no_fields_witness :
  forallb (fun x => negb (sep x)) (lit "Brand=Acme;Price=500") = true
  /\ extractProductInfo (lit "Brand=Acme;Price=500") = ∅.
Proof.
  assert (forallb (fun x => negb (sep x)) (lit "Brand=Acme;Price=500") = true)
    as H by reflexivity.
  split; [exact H|]. exact (no_separator_no_fields _ H).
Defined.

(** ** A price and its number *)

Local Opaque canonicalize.

Lemma exec_fraction (ds fs tail : jsstring) (cap : option jsstring) :
  ds <> [] -> forallb is_digit ds = true ->
  fs <> [] -> forallb is_digit fs = true ->
  stops is_digit tail = true ->
  exec (Group (Seq (Plus true is_digit)
                   (Opt (Seq (word ".") (Plus true is_digit)))))
       (ds ++ 46 :: fs ++ tail) cap (fun _ c => Some c)
  = Some (Some (ds ++ 46 :: fs)).
Proof.
  intros Hds Hdig Hfs Hfdig Hstop. destruct ds as [|d ds]; [done|].
  destruct fs as [|f fs]; [done|].
  simpl in Hdig, Hfdig. apply andb_prop in Hdig as [Hd Hdig].
  apply andb_prop in Hfdig as [Hf Hfdig].
  simpl exec. rewrite Hd. unfold rep.
  apply rep_greedy_run; [done|done|].
  simpl exec. rewrite canonicalize_point. simpl. rewrite Hf. unfold rep.
  rewrite (rep_greedy_run _ _ fs tail
             (Some (consumed (d :: ds ++ 46 :: f :: fs ++ tail) tail)));
    [ |done|done| ].
  - replace (d :: ds ++ 46 :: f :: fs ++ tail)
      with ((d :: ds ++ 46 :: f :: fs) ++ tail)
      by (simpl; by rewrite <- app_assoc).
    by rewrite consumed_app.
  - destruct (Nat.eqb_spec (length tail) (S (S (length (fs ++ tail)))))
      as [E|_]; [|done].
    rewrite length_app in E. lia.
Qed.

Lemma exec_numeric (num tail : jsstring) (cap : option jsstring) :
  numeric num -> number_ends tail = true ->
  exec number_pat (num ++ tail) cap (fun _ c => Some c) = Some (Some num).
Proof.
  intros (ds & fs & Hds & Hdig & Hfdig & Hnum) Hend. unfold number_pat.
  destruct Hnum as [->|[Hfs ->]]; [by apply exec_number|].
  rewrite <- app_assoc. simpl app. apply exec_fraction; try done.
  destruct tail as [|x t]; [done|]. simpl in *.
  by apply andb_prop in Hend as [-> _].
Qed.

Local Transparent canonicalize.

Lemma canonicalize_plain (x : N) :
  is_ws x || is_digit x = true ->
  canonicalize x = x /\ x <> 82 /\ x <> 194 /\ x <> 46 /\ x <> 58.
Proof.
  intros H.
  assert (x <> 82 /\ x <> 194 /\ x <> 46 /\ x <> 58 /\ x <> 226
          /\ ~ (97 <= x <= 122)) as (H1 & H2 & H3 & H4 & H5 & H6).
  { unfold is_ws, is_digit in H.
    rewrite ?orb_true_iff, ?andb_true_iff, ?N.eqb_eq, ?N.leb_le in H. lia. }
  repeat (split; [|done]). unfold canonicalize.
  destruct ((97 <=? x) && (x <=? 122)) eqn:E.
  - apply andb_prop in E as [E1 E2]. apply N.leb_le in E1, E2. lia.
  - apply N.eqb_neq in H5. by rewrite H5.
Qed.

Lemma numeric_head (num : jsstring) :
  numeric num -> exists d r, num = d :: r /\ is_digit d = true.
Proof.
  intros ([|d ds] & fs & Hds & Hdig & _ & Hnum); [done|].
  simpl in Hdig. apply andb_prop in Hdig as [Hd _].
  destruct Hnum as [->|[_ ->]]; by eexists _, _.
Qed.


Lemma canonicalize_82 (c : N) :
  canonicalize 114 = canonicalize c -> sep c = false.
Proof.
  change (canonicalize 114) with 82. unfold canonicalize.
  destruct ((97 <=? c) && (c <=? 122)) eqn:E.
  - apply andb_prop in E as [E1 E2]. apply N.leb_le in E1, E2.
    intros H. assert (c = 114) as -> by lia. done.
  - destruct (c =? 226) eqn:E'; [done|]. by intros <-.
Qed.

Lemma canonicalize_194 (c : N) :
  canonicalize 226 = canonicalize c ->
  sep c = false /\ (canonicalize 114 =? canonicalize c) = false.
Proof.
  change (canonicalize 226) with 194. change (canonicalize 114) with 82.
  intros H. rewrite <- H. split; [|done]. revert H. unfold canonicalize.
  destruct ((97 <=? c) && (c <=? 122)) eqn:E.
  - apply andb_prop in E as [E1 E2]. apply N.leb_le in E1, E2. lia.
  - destruct (c =? 226) eqn:E'.
    + apply N.eqb_eq in E'. by subst.
    + by intros <-.
Qed.

Local Opaque canonicalize.

Lemma exec_currency (m cur rest : jsstring) (cap res : option jsstring)
    (k : cont) :
  m ∈ currency_markers -> map canonicalize m = map canonicalize cur ->
  (exists x t, rest = x :: t /\ is_ws x || is_digit x = true) ->
  k rest cap = Some res ->
  exec (Opt (Alt (Seq (word "rs") (Opt (word ".")))
                 (Chars [226; 8218; 185])))
       (cur ++ rest) cap k
  = Some res.
Proof.
  intros Hm Hcan (x & t & -> & Hx) Hk.
  destruct (canonicalize_plain x Hx) as (Hcx & H82 & H194 & H46 & _).
  assert ((canonicalize 114 =? canonicalize x) = false) as Hr.
  { rewrite Hcx. change (canonicalize 114) with 82. apply N.eqb_neq. lia. }
  assert ((canonicalize 226 =? canonicalize x) = false) as Hm'.
  { rewrite Hcx. change (canonicalize 226) with 194. apply N.eqb_neq. lia. }
  assert ((canonicalize 46 =? canonicalize x) = false) as Hp.
  { rewrite canonicalize_point. apply N.eqb_neq. lia. }
  change currency_markers
    with [[]; [114; 115]; [114; 115; 46]; [226; 8218; 185]] in Hm.
  rewrite !elem_of_cons, elem_of_nil in Hm.
  unfold word. eval_lits.
  destruct Hm as [->|[->|[->|[->|[]]]]].
  - destruct cur; [|done]. simpl. by rewrite Hr, Hm', Hk.
  - destruct cur as [|c1 [|c2 [|c3 cur]]]; try done.
    injection Hcan as H1 H2. simpl. rewrite H1, H2, !N.eqb_refl.
    rewrite Hp, Hk. by shorter.
  - destruct cur as [|c1 [|c2 [|c3 [|c4 cur]]]]; try done.
    injection Hcan as H1 H2 H3. simpl. rewrite H1, H2, H3, !N.eqb_refl.
    rewrite Hk. shorter. by shorter.
  - destruct cur as [|c1 [|c2 [|c3 [|c4 cur]]]]; try done.
    injection Hcan as H1 H2 H3. simpl.
    rewrite (proj2 (canonicalize_194 c1 H1)).
    rewrite H1, H2, H3, !N.eqb_refl, Hk. by shorter.
Qed.


Local Transparent canonicalize.

Lemma price_labels_leftmost (l : jsstring) :
  l ∈ price_labels -> leftmost_label price_labels l = true.
Proof.
  unfold price_labels. simpl. rewrite ?elem_of_cons, elem_of_nil.
  intros H; repeat destruct H as [->|H]; done.
Qed.

Lemma exec_plus_run (c : N -> bool) (run rest : jsstring)
    (cap res : option jsstring) (k : cont) :
  run <> [] -> forallb c run = true -> stops c rest = true ->
  k rest cap = Some res ->
  exec (Plus true c) (run ++ rest) cap k = Some res.
Proof.
  intros Hne Hrun Hstop Hk. destruct run as [|x run]; [done|].
  simpl in Hrun. apply andb_prop in Hrun as [Hx Hrun].
  simpl. rewrite Hx. by apply rep_greedy_run.
Qed.

Lemma exec_star_run (c : N -> bool) (run rest : jsstring)
    (cap res : option jsstring) (k : cont) :
  forallb c run = true -> stops c rest = true ->
  k rest cap = Some res ->
  exec (Star true c) (run ++ rest) cap k = Some res.
Proof. intros Hrun Hstop Hk. simpl. by apply rep_greedy_run. Qed.

Lemma match_price (l L sp m cur ws num tail : jsstring) :
  l ∈ price_labels -> map canonicalize l = map canonicalize L ->
  sp <> [] -> forallb sep sp = true ->
  m ∈ currency_markers -> map canonicalize m = map canonicalize cur ->
  forallb is_ws ws = true -> (cur = [] -> ws = []) ->
  numeric num -> number_ends tail = true ->
  match_here pat_price (L ++ sp ++ cur ++ ws ++ num ++ tail)
  = Some (Some num).
Proof.
  intros Hl Hcan Hsp Hsep Hm Hcur Hws Hcw Hnum Hend.
  destruct (numeric_head _ Hnum) as (d & r & Ed & Hd).
  assert (sep d = false) as Hdsep.
  { destruct (canonicalize_plain d) as (_ & _ & _ & _ & H58).
    { by rewrite Hd, orb_true_r. }
    unfold sep. rewrite (is_digit_not_ws _ Hd). simpl. by apply N.eqb_neq. }
  assert (exists x t, ws ++ num ++ tail = x :: t
                      /\ is_ws x || is_digit x = true) as Hrest.
  { destruct ws as [|x ws].
    - exists d, (r ++ tail). rewrite Ed. simpl. by rewrite Hd, orb_true_r.
    - simpl in Hws. apply andb_prop in Hws as [Hx _].
      exists x, (ws ++ num ++ tail). by rewrite Hx. }
  unfold match_here.
  change pat_price
    with (Seq (alts price_labels)
              (Seq (Plus true sep)
                   (Seq (Opt (Alt (Seq (word "rs") (Opt (word ".")))
                                  (Chars [226; 8218; 185])))
                        (Seq (Star true is_ws) number_pat)))).
  change (exec (Seq ?a ?b) ?s ?c ?k)
    with (exec a s c (fun s' c' => exec b s' c' k)).
  apply (exec_alts _ l L); [by apply price_labels_leftmost|done|].
  change (exec (Seq ?a ?b) ?s ?c ?k)
    with (exec a s c (fun s' c' => exec b s' c' k)).
  apply exec_plus_run; [done|done| |].
  - destruct cur as [|c1 cur].
    + rewrite (Hcw eq_refl). simpl. rewrite Ed. simpl. by rewrite Hdsep.
    + simpl. apply negb_true_iff.
      change currency_markers
        with [[]; [114; 115]; [114; 115; 46]; [226; 8218; 185]] in Hm.
      rewrite !elem_of_cons, elem_of_nil in Hm.
      destruct Hm as [->|[->|[->|[->|[]]]]]; try done;
        injection Hcur as H1 _;
        first [by apply canonicalize_82|by apply canonicalize_194].
  - change (exec (Seq ?a ?b) ?s ?c ?k)
      with (exec a s c (fun s' c' => exec b s' c' k)).
    apply (exec_currency m); [done|done|done|].
    change (exec (Seq ?a ?b) ?s ?c ?k)
      with (exec a s c (fun s' c' => exec b s' c' k)).
    apply exec_star_run; [done| |by apply exec_numeric].
    rewrite Ed. simpl. by rewrite (is_digit_not_ws _ Hd).
Qed.

(** X6: a price label (price, selling price, mrp, in any letter case), a
    run of colons and white space, optionally a currency marker (rs, rs. or
    the rupee sign as the source file spells it) and white space, then a
    number: the price is that number, and MRP is derived from it. *)
Theorem price_number_extracted
    (l L pre sp m cur ws num tail : jsstring) (w : world) :
  l ∈ price_labels -> map canonicalize l = map canonicalize L ->
  sp <> [] -> forallb sep sp = true ->
  m ∈ currency_markers -> map canonicalize m = map canonicalize cur ->
  forallb is_ws ws = true ->
  numeric num -> number_ends tail = true ->
  no_match_before pat_price pre (L ++ sp ++ cur ++ ws ++ num ++ tail) = true ->
  let extracted :=
    extractProductInfo (pre ++ L ++ sp ++ cur ++ ws ++ num ++ tail) in
  extracted !! lit "price" = Some num
  /\ (fieldMapping extracted w).1 !! lit "MRP" = Some (mrp_of num).
Proof.
  intros Hl Hcan Hsp Hsep Hm Hcur Hws Hnum Hend Hpre extracted.
  assert (extracted !! lit "price" = Some num) as Hprice.
  { subst extracted.
    assert ((lit "price", pat_price) ∈ patterns) as Hin.
    { unfold patterns. rewrite !elem_of_cons. auto. }
    rewrite (extract_lookup _ _ _ Hin), (search_skip _ _ _ Hpre).
    rewrite (search_here _ _ (Some num)).
    { by rewrite (trim_trimmed _ (numeric_trimmed _ Hnum)). }
    destruct cur as [|c1 cur].
    - replace (L ++ sp ++ [] ++ ws ++ num ++ tail)
        with (L ++ (sp ++ ws) ++ [] ++ [] ++ num ++ tail)
        by (simpl; by rewrite <- app_assoc).
      apply (match_price l L (sp ++ ws) [] [] [] num tail); try done.
      + by destruct sp.
      + rewrite forallb_app, Hsep. simpl.
        rewrite forallb_forall in Hws. apply forallb_forall. intros x Hx.
        unfold sep. by rewrite (Hws x Hx).
      + by left.
    - by apply (match_price l L sp m (c1 :: cur) ws num tail). }
  split; [done|].
  destruct (fieldMapping_run extracted w) as (s & i & y & -> & _).
  rewrite mapping_of_mrp, Hprice.
  by destruct (numeric_head _ Hnum) as (d & r & -> & _).
Qed.

Lemma price_number_extracted_witness :
  lit "selling price" ∈ price_labels
  /\ map canonicalize (lit "selling price")
     = map canonicalize (lit "Selling Price")
  /\ lit ": " <> [] /\ forallb sep (lit ": ") = true
  /\ lit "rs." ∈ currency_markers
  /\ map canonicalize (lit "rs.") = map canonicalize (lit "Rs.")
  /\ forallb is_ws (lit " ") = true
  /\ numeric (lit "499.50")
  /\ number_ends (lit " only") = true
  /\ no_match_before pat_price (lit "Brand: Acme\n")
       (lit "Selling Price" ++ lit ": " ++ lit "Rs." ++ lit " "
        ++ lit "499.50" ++ lit " only") = true
  /\ extractProductInfo
       (lit "Brand: Acme\n" ++ lit "Selling Price" ++ lit ": " ++ lit "Rs."
        ++ lit " " ++ lit "499.50" ++ lit " only") !! lit "price"
     = Some (lit "499.50")
  /\ mrp_of (lit "499.50") = lit "599.40".
Proof.
  assert (lit "selling price" ∈ price_labels) as H1.
  { unfold price_labels. simpl. rewrite !elem_of_cons. auto. }
  assert (lit "rs." ∈ currency_markers) as H2.
  { unfold currency_markers. rewrite !elem_of_cons. auto. }
  assert (numeric (lit "499.50")) as H3.
  { exists (lit "499"), (lit "50"). repeat split; try done. by right. }
  assert (no_match_before pat_price (lit "Brand: Acme\n")
            (lit "Selling Price" ++ lit ": " ++ lit "Rs." ++ lit " "
             ++ lit "499.50" ++ lit " only") = true) as H4
    by (vm_compute; reflexivity).
  split; [exact H1|]. split; [reflexivity|]. split; [discriminate|].
  split; [reflexivity|]. split; [exact H2|]. split; [reflexivity|].
  split; [reflexivity|]. split; [exact H3|]. split; [reflexivity|].
  split; [exact H4|]. split; [|vm_compute; reflexivity].
  exact (proj1 (price_number_extracted
                  (lit "selling price") (lit "Selling Price")
                  (lit "Brand: Acme\n") (lit ": ") (lit "rs.") (lit "Rs.")
                  (lit " ") (lit "499.50") (lit " only")
                  (World (clock_from 0) ∅)
                  H1 eq_refl ltac:(discriminate) eq_refl H2 eq_refl eq_refl
                  H3 eq_refl H4)).
Defined.

(** ** More of the listing generator *)

Lemma decimal_nonempty (n : N) : decimal n <> [].
Proof.
  unfold decimal. destruct n as [|p]; [done|]. simpl.
  pose proof (Unsigned.to_uint_nonnil p) as H.
  by destruct (Pos.to_uint p).
Qed.

Lemma exponential_nonempty (s : Z) (n : nat) : exponential s n <> [].
Proof.
  unfold exponential. pose proof (decimal_nonempty (Z.to_N s)) as H.
  by destruct (decimal (Z.to_N s)) as [|c [|c' r]].
Qed.

Lemma shortest_nonempty (x : spec_float) (v : Z) (nd k fuel : nat) :
  shortest x v nd k fuel <> [].
Proof.
  revert k. induction fuel as [|fuel IH]; intros k; simpl.
  - apply exponential_nonempty.
  - repeat match goal with
      | |- context [if ?b then _ else _] => destruct b
      end; first [apply exponential_nonempty | apply IH].
Qed.

Lemma toFixed2_nonempty (x : spec_float) : toFixed2 x <> [].
Proof.
  destruct x as [s|[|]| |s m e]; try done. unfold toFixed2.
  assert (forall a b : jsstring, b <> [] -> a ++ b <> []) as Happ.
  { intros a b Hb E. by apply app_eq_nil in E as [_ ?]. }
  apply Happ. destruct (10 ^ 21 <=? Z.pos m * 2 ^ e)%Z.
  - apply shortest_nonempty.
  - unfold fixed2_digits. apply Happ. done.
Qed.

Lemma split_nonempty (d : N) (s : jsstring) : split d s <> [].
Proof.
  induction s as [|c t IH]; simpl; [done|].
  destruct (c =? d); [done|]. by destruct (split d t).
Qed.

Lemma join_cons_head (sp : jsstring) (c : N) (h : jsstring)
    (r : list jsstring) :
  join sp ((c :: h) :: r) = c :: join sp (h :: r).
Proof. by destruct r. Qed.

(** [split('.').slice(0, n + 1).join('. ')] in closed form. *)
Lemma join_take_split (n : nat) (s : jsstring) :
  join (lit ". ") (take (S n) (split 46 s)) = upto_point n s.
Proof.
  revert n. induction s as [|c t IH]; intros n.
  { cbn [split take upto_point]. by rewrite take_nil. }
  cbn [split upto_point]. destruct (c =? 46).
  - destruct n as [|n]; [reflexivity|]. rewrite <- IH.
    cbn [take]. pose proof (split_nonempty 46 t) as Hne.
    by destruct (split 46 t) as [|h r].
  - rewrite <- IH. pose proof (split_nonempty 46 t) as Hne.
    destruct (split 46 t) as [|h r]; [done|].
    cbn [take]. by rewrite join_cons_head.
Qed.

Lemma mapping_of_key_features (d : gmap jsstring jsstring)
    (sku pid style : jsstring) :
  mapping_of d sku pid style !! lit "Key Features"
  = Some match d !! lit "description" with
         | Some (c :: s) => key_features (c :: s)
         | _ => []
         end.
Proof. unfold mapping_of. by rewrite list_to_map_assoc. Qed.

(** X13: Key Features is the description up to its fifth point, with a space
    added after each of the four points before: not the first five
    sentences as written, and nothing of the text after the fifth point. *)
Theorem key_features_closed_form (d : gmap jsstring jsstring) (w : world) :
  (forall s, key_features s = upto_point 4 s)
  /\ (fieldMapping d w).1 !! lit "Key Features"
     = Some (if truthy (d !! lit "description")
             then upto_point 4 (default [] (d !! lit "description"))
             else []).
Proof.
  split; [intros s; apply join_take_split|].
  destruct (fieldMapping_run d w) as (sku & pid & style & -> & _).
  rewrite mapping_of_key_features.
  destruct (d !! lit "description") as [[|c s]|]; try done.
  cbn [truthy default]. f_equal. apply join_take_split.
Qed.


Lemma or_stamp_nonempty (v : option jsstring) (prefix : jsstring) (w : world) :
  prefix <> [] -> (or_stamp v prefix w).1 <> [].
Proof.
  intros Hp. destruct v as [[|c s]|]; try done;
    unfold or_stamp, bind, ret, Date_now; simpl; by destruct prefix.
Qed.

(** The three identifier values are never empty. *)
Lemma fieldMapping_identifiers (d : gmap jsstring jsstring) (w : world) :
  exists sku pid style,
    (fieldMapping d w).1 = mapping_of d sku pid style
    /\ sku <> [] /\ pid <> [] /\ style <> [].
Proof.
  unfold fieldMapping, bind, ret.
  pose proof (or_stamp_nonempty (d !! lit "sku") (lit "SKU") w) as H1.
  destruct (or_stamp (d !! lit "sku") (lit "SKU") w) as [sku w1].
  pose proof (or_stamp_nonempty (d !! lit "sku") (lit "PID") w1) as H2.
  destruct (or_stamp (d !! lit "sku") (lit "PID") w1) as [pid w2].
  pose proof (or_stamp_nonempty (d !! lit "sku") (lit "STYLE") w2) as H3.
  destruct (or_stamp (d !! lit "sku") (lit "STYLE") w2) as [sty w3].
  exists sku, pid, sty. simpl in *. auto.
Qed.

Lemma upto_point_nonempty (n : nat) (c : N) (s : jsstring) :
  upto_point (S n) (c :: s) <> [].
Proof. simpl. by destruct (c =? 46). Qed.

Lemma mapping_of_always_filled (d : gmap jsstring jsstring)
    (sku pid style l : jsstring) :
  sku <> [] -> pid <> [] -> style <> [] -> l ∈ always_filled ->
  exists v, mapping_of d sku pid style !! l = Some v /\ v <> [].
Proof.
  intros Hs Hp Hy Hl. unfold always_filled in Hl. simpl in Hl.
  rewrite !elem_of_cons, elem_of_nil in Hl.
  unfold mapping_of. rewrite list_to_map_assoc.
  repeat destruct Hl as [->|Hl]; try done; eexists; (split; [reflexivity|]);
    try done.
  by destruct (d !! lit "brand") as [[|c s]|].
Qed.

Lemma mapping_of_mrp_filled (d : gmap jsstring jsstring)
    (sku pid style : jsstring) :
  exists v, mapping_of d sku pid style !! lit "MRP" = Some v
            /\ (v <> [] <-> truthy (d !! lit "price") = true).
Proof.
  rewrite mapping_of_mrp. eexists. split; [done|].
  destruct (d !! lit "price") as [[|c s]|]; [by split| |by split].
  split; [done|]. intros _. apply toFixed2_nonempty.
Qed.

Lemma mapping_of_key_features_filled (d : gmap jsstring jsstring)
    (sku pid style : jsstring) :
  exists v, mapping_of d sku pid style !! lit "Key Features" = Some v
            /\ (v <> [] <-> truthy (d !! lit "description") = true).
Proof.
  rewrite mapping_of_key_features. eexists. split; [done|].
  destruct (d !! lit "description") as [[|c s]|]; [by split| |by split].
  split; [done|]. intros _. unfold key_features. rewrite join_take_split.
  apply upto_point_nonempty.
Qed.

Lemma mapping_of_derived (d : gmap jsstring jsstring)
    (sku pid style l k : jsstring) :
  (l, k) ∈ derived_labels ->
  exists v, mapping_of d sku pid style !! l = Some v
            /\ (v <> [] <-> truthy (d !! k) = true).
Proof.
  unfold derived_labels. rewrite elem_of_app. intros [Hdir|Hder].
  - rewrite (mapping_of_direct _ _ _ _ _ _ Hdir). eexists. split; [done|].
    by destruct (d !! k) as [[|c s]|]; split.
  - rewrite !elem_of_cons, elem_of_nil in Hder.
    destruct Hder as [Heq|[Heq|[]]]; injection Heq as -> ->.
    + apply mapping_of_mrp_filled.
    + apply mapping_of_key_features_filled.
Qed.

Lemma required_labels_accounted (p : platform) (l : jsstring) :
  l ∈ required (PLATFORM_FIELDS p) ->
  l ∈ always_filled \/ exists k, (l, k) ∈ derived_labels.
Proof.
  destruct p; simpl; rewrite !elem_of_cons, elem_of_nil; intros H;
    repeat destruct H as [->|H]; try done;
    first [ left; apply (bool_decide_unpack _); by vm_compute
          | right; eexists; unfold derived_labels, direct_labels; cbn [app];
            repeat first [by left | right] ].
Qed.

(** X11: when a required key holds the sentinel.  Every required label of
    every platform is either always filled (Brand, the three identifiers,
    the three image labels) or derived from one extracted field.  An
    always-filled label holds its non-empty mapped value.  A derived label
    holds its non-empty mapped value when its source field is present and
    non-empty, and the sentinel when the source field is absent or
    empty. *)
Theorem required_sentinel_account
    (d : gmap jsstring jsstring) (p : platform) (w : world) (l : jsstring) :
  l ∈ required (PLATFORM_FIELDS p) ->
  let listing := (generatePlatformListing d p w).1 in
  let mapping := (fieldMapping d w).1 in
  (l ∈ always_filled \/ exists k, (l, k) ∈ derived_labels)
  /\ (l ∈ always_filled ->
      exists v, mapping !! l = Some v /\ v <> []
                /\ listing !! listing_key p l = Some v)
  /\ (forall k, (l, k) ∈ derived_labels ->
        if truthy (d !! k)
        then exists v, mapping !! l = Some v /\ v <> []
                       /\ listing !! listing_key p l = Some v
        else listing !! listing_key p l = Some (lit "[REQUIRED]")).
Proof.
  intros Hl listing mapping. subst listing mapping.
  rewrite generatePlatformListing_run. cbn [fst snd].
  rewrite (listing_required p _ l Hl).
  destruct (fieldMapping_identifiers d w) as (sku & pid & sty & -> & ? & ? & ?).
  split; [by apply (required_labels_accounted p)|]. split.
  - intros Ha.
    destruct (mapping_of_always_filled d sku pid sty l) as (v & -> & Hv);
      try done.
    exists v. by destruct v.
  - intros k Hk.
    destruct (mapping_of_derived d sku pid sty l k Hk) as (v & -> & Hv).
    destruct (truthy (d !! k)).
    + exists v. destruct v; [by destruct (proj2 Hv eq_refl)|done].
    + destruct v; [done|]. by pose proof (proj1 Hv ltac:(done)).
Qed.

Lemma required_sentinel_account_witness :
  lit "MRP" ∈ required (PLATFORM_FIELDS flipkart)
  /\ (lit "MRP", lit "price") ∈ derived_labels
  /\ (generatePlatformListing {[ lit "name" := lit "Mug" ]} flipkart
        (World (clock_from 0) ∅)).1 !! listing_key flipkart (lit "MRP")
     = Some (lit "[REQUIRED]").
Proof.
  assert (lit "MRP" ∈ required (PLATFORM_FIELDS flipkart)) as Hl.
  { simpl. rewrite !elem_of_cons. auto 10. }
  assert ((lit "MRP", lit "price") ∈ derived_labels) as Hk.
  { apply (bool_decide_unpack _). by vm_compute. }
  split; [exact Hl|]. split; [exact Hk|].
  exact (proj2 (proj2 (required_sentinel_account
                         {[ lit "name" := lit "Mug" ]} flipkart
                         (World (clock_from 0) ∅) (lit "MRP") Hl))
           (lit "price") Hk).
Defined.

Lemma mapping_of_unmapped (d : gmap jsstring jsstring)
    (sku pid style l : jsstring) :
  l ∉ mapped_labels -> mapping_of d sku pid style !! l = None.
Proof.
  intros Hl.
  assert (forall a, a ∈ mapped_labels -> str_eqb a l = false) as Hne.
  { intros a Ha. destruct (str_eqb a l) eqn:E; [|done].
    apply str_eqb_eq in E. by subst. }
  unfold mapping_of. rewrite list_to_map_assoc. cbn [assoc].
  rewrite !Hne; [done|..]; apply (bool_decide_unpack _); by vm_compute.
Qed.

(** X12: an optional label that [fieldMapping] has no entry for never becomes
    a key of the listing, whatever was extracted: Dimensions, HSN Code, GST,
    Package Dimensions, Return Policy, Care Instructions, Occasion, Pattern
    and Fit are never filled. *)
Theorem unmapped_optional_never_listed
    (d : gmap jsstring jsstring) (p : platform) (w : world) (l : jsstring) :
  l ∈ optional (PLATFORM_FIELDS p) -> l ∉ mapped_labels ->
  (generatePlatformListing d p w).1 !! listing_key p l = None.
Proof.
  intros Hl Hm. rewrite generatePlatformListing_run. cbn [fst snd].
  rewrite (listing_optional p _ l Hl).
  destruct (fieldMapping_identifiers d w) as (sku & pid & sty & -> & _).
  by rewrite mapping_of_unmapped.
Qed.

Lemma unmapped_optional_never_listed_witness :
  lit "HSN Code" ∈ optional (PLATFORM_FIELDS amazon)
  /\ (lit "HSN Code" ∉ mapped_labels)
  /\ (generatePlatformListing {[ lit "name" := lit "Mug" ]} amazon
        (World (clock_from 0) ∅)).1 !! listing_key amazon (lit "HSN Code")
     = None.
Proof.
  assert (lit "HSN Code" ∈ optional (PLATFORM_FIELDS amazon)) as Hl.
  { simpl. rewrite !elem_of_cons. auto 10. }
  assert (lit "HSN Code" ∉ mapped_labels) as Hm.
  { apply (bool_decide_unpack _). by vm_compute. }
  split; [exact Hl|]. split; [exact Hm|].
  exact (unmapped_optional_never_listed _ amazon _ _ Hl Hm).
Defined.

Example unmapped_optional_labels :
  filter (fun l => bool_decide (l ∉ mapped_labels))
    (optional (PLATFORM_FIELDS amazon) ++ optional (PLATFORM_FIELDS flipkart)
     ++ optional (PLATFORM_FIELDS meesho) ++ optional (PLATFORM_FIELDS myntra))
  = map lit ["Dimensions"; "HSN Code"; "GST"; "Package Dimensions"; "HSN Code";
             "HSN Code"; "Return Policy"; "Care Instructions"; "Occasion";
             "Pattern"; "Fit"]%string.
Proof. by vm_compute. Qed.








Lemma mapping_brand_carried (d : gmap jsstring jsstring) (w : world)
    (v : jsstring) :
  d !! lit "brand" = Some v -> v <> [] ->
  (fieldMapping d w).1 !! lit "Brand" = Some v.
Proof.
  intros Hk Hv. destruct (fieldMapping_run d w) as (sku & pid & sty & -> & _).
  rewrite mapping_of_brand, Hk. by destruct v.
Qed.

Lemma mapping_identifiers_carried (d : gmap jsstring jsstring) (w : world)
    (v : jsstring) :
  d !! lit "sku" = Some v -> v <> [] ->
  (fieldMapping d w).1 !! lit "SKU" = Some v
  /\ (fieldMapping d w).1 !! lit "Product ID" = Some v
  /\ (fieldMapping d w).1 !! lit "Style ID" = Some v.
Proof.
  intros Hk Hv.
  destruct (fieldMapping_run d w) as (sku & pid & sty & -> & _ & Hid).
  destruct Hid as (-> & -> & -> & _); [by rewrite Hk; destruct v|].
  unfold mapping_of. rewrite !list_to_map_assoc. cbn [assoc].
  rewrite Hk. by destruct v.
Qed.

Lemma mapping_of_carried (d : gmap jsstring jsstring) (w : world)
    (lab k v : jsstring) :
  (lab, k) ∈ carried_labels -> d !! k = Some v -> v <> [] ->
  (fieldMapping d w).1 !! lab = Some v.
Proof.
  intros Hin Hk Hv. unfold carried_labels in Hin.
  apply elem_of_app in Hin as [Hdir|Hin].
  - destruct (fieldMapping_run d w) as (sku & pid & sty & -> & _).
    rewrite (mapping_of_direct _ _ _ _ _ _ Hdir). by rewrite Hk.
  - rewrite !elem_of_cons, elem_of_nil in Hin.
    destruct Hin as [Heq|[Heq|[Heq|[Heq|[]]]]]; injection Heq as -> ->.
    + by apply mapping_brand_carried.
    + by apply mapping_identifiers_carried.
    + by apply mapping_identifiers_carried.
    + by apply mapping_identifiers_carried.
Qed.

Lemma trimStart_keeps_last (a : jsstring) (x : N) :
  is_ws x = false -> trimStart (a ++ [x]) <> [].
Proof.
  intros Hx. induction a as [|c a IH]; simpl; [by rewrite Hx|].
  by destruct (is_ws c).
Qed.

Lemma trim_keeps_head (v : jsstring) :
  v <> [] -> stops is_ws v = true -> trim v <> [].
Proof.
  intros Hne Hstop. unfold trim. rewrite (trimStart_stops v Hstop).
  destruct v as [|x v]; [done|]. simpl in Hstop.
  apply negb_true_iff in Hstop. simpl rev.
  pose proof (trimStart_keeps_last (rev v) x Hstop) as H.
  destruct (trimStart (rev v ++ [x])) as [|y t]; [done|].
  simpl. by destruct (rev t).
Qed.

(** X10: from a labelled line to the listing.  When the leftmost match of a
    rest-of-line field's pattern is at a trigger label (in any letter
    case) followed by a run of colons and white space and then by a value
    on one line, the field is that value, trimmed, and it is what every
    platform's listing holds under the key of each label that carries the
    field (Product Name for name, Brand for brand, SKU, Product ID and
    Style ID for sku, and so on), required or optional. *)
Theorem labelled_line_reaches_listing
    (f : line_field) (l L pre sp v tail lab : jsstring) (p : platform)
    (w : world) :
  l ∈ field_labels f ->
  map canonicalize l = map canonicalize L ->
  sp <> [] -> forallb sep sp = true ->
  v <> [] -> stops sep v = true -> forallb dot v = true ->
  line_end tail = true ->
  no_match_before (field_pattern f) pre (L ++ sp ++ v ++ tail) = true ->
  (lab, field_key f) ∈ carried_labels -> lab ∈ labels_of p ->
  let extracted := extractProductInfo (pre ++ L ++ sp ++ v ++ tail) in
  extracted !! field_key f = Some (trim v)
  /\ trim v <> []
  /\ (generatePlatformListing extracted p w).1 !! listing_key p lab
     = Some (trim v).
Proof.
  intros Hl Hci Hsp Hsep Hv Hstop Hdot Hend Hpre Hlab Hp extracted.
  assert (extracted !! field_key f = Some (trim v)) as Hf.
  { by apply (extract_line_field f l). }
  assert (trim v <> []) as Hne.
  { apply trim_keeps_head; [done|]. destruct v as [|x v]; [done|].
    simpl in *. unfold sep in Hstop. by destruct (is_ws x). }
  split; [done|]. split; [done|].
  pose proof (mapping_of_carried extracted w lab _ _ Hlab Hf Hne) as Hm.
  rewrite generatePlatformListing_run. cbn [fst snd].
  unfold labels_of in Hp. apply elem_of_app in Hp as [Hp|Hp].
  - rewrite (listing_required p _ lab Hp), Hm. by destruct (trim v).
  - rewrite (listing_optional p _ lab Hp), Hm. by destruct (trim v).
Qed.

Lemma labelled_line_reaches_listing_witness :
  lit "colour" ∈ field_labels f_color
  /\ map canonicalize (lit "colour") = map canonicalize (lit "Colour")
  /\ lit ": " <> [] /\ forallb sep (lit ": ") = true
  /\ lit "Navy blue " <> [] /\ stops sep (lit "Navy blue ") = true
  /\ forallb dot (lit "Navy blue ") = true
  /\ line_end (lit "\nSize: M") = true
  /\ no_match_before (field_pattern f_color) (lit "Name: Mug\n")
       (lit "Colour" ++ lit ": " ++ lit "Navy blue " ++ lit "\nSize: M") = true
  /\ (lit "Color", field_key f_color) ∈ carried_labels
  /\ lit "Color" ∈ labels_of amazon
  /\ (generatePlatformListing
        (extractProductInfo
           (lit "Name: Mug\n" ++ lit "Colour" ++ lit ": " ++ lit "Navy blue "
            ++ lit "\nSize: M"))
        amazon (World (clock_from 0) ∅)).1 !! listing_key amazon (lit "Color")
     = Some (trim (lit "Navy blue ")).
Proof.
  assert (lit "colour" ∈ field_labels f_color) as H1.
  { simpl. rewrite !elem_of_cons. auto. }
  assert (no_match_before (field_pattern f_color) (lit "Name: Mug\n")
            (lit "Colour" ++ lit ": " ++ lit "Navy blue " ++ lit "\nSize: M")
          = true) as H2 by (vm_compute; reflexivity).
  assert ((lit "Color", field_key f_color) ∈ carried_labels) as H3.
  { apply (bool_decide_unpack _). by vm_compute. }
  assert (lit "Color" ∈ labels_of amazon) as H4.
  { apply (bool_decide_unpack _). by vm_compute. }
  split; [exact H1|]. split; [reflexivity|]. split; [discriminate|].
  split; [reflexivity|]. split; [discriminate|]. split; [reflexivity|].
  split; [reflexivity|]. split; [reflexivity|]. split; [exact H2|].
  split; [exact H3|]. split; [exact H4|].
  exact (proj2 (proj2 (labelled_line_reaches_listing
    f_color (lit "colour") (lit "Colour") (lit "Name: Mug\n") (lit ": ")
    (lit "Navy blue ") (lit "\nSize: M") (lit "Color") amazon
    (World (clock_from 0) ∅)
    H1 eq_refl ltac:(discriminate) eq_refl ltac:(discriminate) eq_refl
    eq_refl eq_refl H2 H3 H4))).
Defined.

Lemma mrp_exact_upto_spec (k n : N) :
  mrp_exact_upto k = true -> 1 <= n <= k ->
  mrp_of (decimal n) = exact_mrp n.
Proof.
  unfold mrp_exact_upto. rewrite forallb_forall. intros H Hn.
  specialize (H (N.to_nat n)). rewrite N2Nat.id in H.
  apply bool_decide_eq_true in H; [done|]. apply in_seq. lia.
Qed.

(** X15: for every whole price from 1 to 9999, written in decimal digits, MRP
    is the exact product of the price and 1.2 with two fraction digits:
    binary floating point leaves no trace in it. *)
Theorem mrp_of_whole_price (n : N) :
  1 <= n <= 9999 -> mrp_of (decimal n) = exact_mrp n.
Proof.
  apply (mrp_exact_upto_spec 9999). vm_compute. reflexivity.
Qed.

Lemma mrp_of_whole_price_witness :
  1 <= 499 <= 9999 /\ mrp_of (lit "499") = lit "598.80".
Proof.
  assert (1 <= 499 <= 9999) as H by lia.
  split; [exact H|]. exact (mrp_of_whole_price 499 H).
Defined.

(** *** Price and MRP, in general *)

Lemma uint_units_revapp (d d' : Decimal.uint) :
  uint_units (Decimal.revapp d d') = rev (uint_units d) ++ uint_units d'.
Proof.
  revert d'. induction d; intros d'; simpl; [done|..];
    rewrite IHd; simpl; by rewrite <- app_assoc.
Qed.

Lemma decimal_little (n : N) :
  n <> 0 -> decimal n = rev (uint_units (Unsigned.to_lu n)).
Proof.
  destruct n as [|p]; [done|]. intros _. unfold decimal. simpl.
  unfold Pos.to_uint, Decimal.rev. by rewrite uint_units_revapp, app_nil_r.
Qed.

(** The last digit of a number of more than one digit. *)
Lemma decimal_snoc (q r : N) :
  q <> 0 -> r < 10 -> decimal (10 * q + r) = decimal q ++ [48 + r].
Proof.
  intros Hq Hr. rewrite !decimal_little by lia.
  assert (uint_units (Unsigned.to_lu (10 * q + r))
          = (48 + r) :: uint_units (Unsigned.to_lu q)) as ->; [|done].
  destruct q as [|p]; [done|].
  assert (r = 0 \/ r = 1 \/ r = 2 \/ r = 3 \/ r = 4 \/ r = 5 \/ r = 6
          \/ r = 7 \/ r = 8 \/ r = 9) as Hcases by lia.
  pose proof (Unsigned.to_ldec_tenfold p) as H10.
  repeat destruct Hcases as [->|Hcases]; try subst r;
    repeat match goal with
      | |- context [10 * N.pos p + ?k] =>
          match k with
          | 0 => rewrite N.add_0_r
          | _ => let k' := eval vm_compute in (N.pred k) in
                 replace (10 * N.pos p + k)
                   with (N.succ (10 * N.pos p + k')) by lia;
                 rewrite Unsigned.to_lu_succ
          end
      end; by rewrite H10.
Qed.

(** The digits of [toFixed(2)]: the hundredths, a point before the last
    two digits. *)
Lemma fixed2_digits_two_decimals (n : N) :
  fixed2_digits (Z.of_N n) = two_decimals n.
Proof.
  unfold fixed2_digits, two_decimals. rewrite N2Z.id.
  destruct (decide (n < 100)) as [Hlt|Hge].
  - assert (forallb (fun i => let n := N.of_nat i in
              bool_decide
                ((let d := decimal n in
                  let d0 := repeat 48 (3 - length d) ++ d in
                  take (length d0 - 2) d0 ++ 46 :: drop (length d0 - 2) d0)
                 = decimal (n / 100)
                   ++ [46; 48 + (n / 10) mod 10; 48 + n mod 10]))
              (seq 0 100) = true) as Hall by (vm_compute; reflexivity).
    rewrite forallb_forall in Hall. specialize (Hall (N.to_nat n)).
    rewrite N2Nat.id in Hall. apply bool_decide_eq_true in Hall; [done|].
    apply in_seq. lia.
  - set (a := n / 100). set (b := (n / 10) mod 10). set (c := n mod 10).
    assert (n / 10 = 10 * a + b) as Hn10.
    { subst a b. rewrite (N.div_mod (n / 10) 10) at 1 by lia.
      by rewrite N.Div0.div_div. }
    assert (n = 10 * (10 * a + b) + c) as Hn.
    { rewrite <- Hn10. subst c. apply N.div_mod. lia. }
    assert (a <> 0) as Ha.
    { subst a. intros E. apply N.div_small_iff in E; lia. }
    assert (b < 10) as Hb by (subst b; apply N.mod_lt; lia).
    assert (c < 10) as Hc by (subst c; apply N.mod_lt; lia).
    assert (decimal n = decimal a ++ [48 + b; 48 + c]) as Hd.
    { rewrite Hn at 1. rewrite !decimal_snoc by lia. by rewrite <- app_assoc. }
    cbv zeta. rewrite Hd. clear Hd.
    pose proof (decimal_nonempty a) as Hne.
    destruct (decimal a) as [|x da]; [done|].
    assert (length (x :: da) <> 0%nat) as Hw by done.
    revert Hw. generalize (x :: da). intros word Hw.
    assert (length [48 + b; 48 + c] = 2%nat) as Hlen by done.
    revert Hlen. generalize [48 + b; 48 + c]. intros last2 Hlen.
    replace (3 - length (word ++ last2))%nat with 0%nat
      by (rewrite length_app; lia).
    cbn [repeat app].
    replace (length (word ++ last2) - 2)%nat
      with (length word) by (rewrite length_app; lia).
    by rewrite take_app_length, drop_app_length.
Qed.

Lemma mrp_nearest_upto_spec (k c : N) :
  mrp_nearest_upto k = true -> 1 <= c <= k ->
  mrp_of (two_decimals c) = two_decimals ((12 * c + 5) / 10).
Proof.
  unfold mrp_nearest_upto. rewrite forallb_forall. intros H Hc.
  specialize (H (N.to_nat c)). rewrite N2Nat.id in H.
  apply bool_decide_eq_true in H; [done|]. apply in_seq. lia.
Qed.

Lemma fieldMapping_mrp (d : gmap jsstring jsstring) (w : world) :
  (fieldMapping d w).1 !! lit "MRP"
  = Some match d !! lit "price" with
         | Some (c :: s) => mrp_of (c :: s)
         | _ => []
         end.
Proof.
  destruct (fieldMapping_run d w) as (s & i & y & -> & _).
  apply mapping_of_mrp.
Qed.

(** The integer that [toFixed(2)] prints is the one whose distance to a
    hundred times the value is at most a half, the larger one when two
    are. *)
Lemma nearest_hundredths_bounds (m q : positive) :
  let n := nearest_hundredths m (Zneg q) in
  (0 <= n
   /\ 2 ^ Zpos q * (2 * n - 1) <= 200 * Zpos m < 2 ^ Zpos q * (2 * n + 1))%Z.
Proof.
  simpl. rewrite Pos2Z.inj_pow.
  set (D := (2 ^ Zpos q)%Z). set (N := (Zpos m * 100)%Z).
  assert (0 < D)%Z as HD by (apply Z.pow_pos_nonneg; lia).
  pose proof (Z.div_mod (2 * N + D) (2 * D) ltac:(lia)) as Hdm.
  pose proof (Z.mod_pos_bound (2 * N + D) (2 * D) ltac:(lia)) as Hmod.
  assert (0 <= (2 * N + D) / (2 * D))%Z by (apply Z.div_pos; lia).
  split; [done|]. nia.
Qed.

(** C3 (as amended): for every input text in which "Price: 500" is not
    followed by a further digit, nor by a point and a digit, and before
    which the price pattern has no match, the extractor yields
    price = "500" and the generator derives MRP = "600.00", which every
    platform that requires MRP lists under its MRP key.  In general MRP is
    the empty string when price is absent or empty, and otherwise
    [(parseFloat(price) * 1.2).toFixed(2)]: the binary64 product of the
    parsed price and the binary64 value of 1.2, printed, when the product
    has a fractional binary exponent, as the whole number of hundredths
    that lies within half a hundredth of the product, the larger one on a
    tie.  For the whole prices 1 to 999 and for the prices 0.01 to 9.99
    that text is the exact product with 1.2, rounded to the nearest
    hundredth. *)
Theorem price_500_gives_mrp_600
    (pre tail : jsstring) (d : gmap jsstring jsstring) (w : world) :
  number_ends tail = true ->
  no_match_before pat_price pre (lit "Price: 500" ++ tail) = true ->
  let extracted := extractProductInfo (pre ++ lit "Price: 500" ++ tail) in
  let mrp := (fieldMapping d w).1 !! lit "MRP" in
  extracted !! lit "price" = Some (lit "500")
  /\ (fieldMapping extracted w).1 !! lit "MRP" = Some (lit "600.00")
  /\ (forall p, lit "MRP" ∈ required (PLATFORM_FIELDS p) ->
        (generatePlatformListing extracted p w).1
          !! (PLATFORM_NAME p ++ lit "_MRP")
        = Some (lit "600.00"))
  /\ (d !! lit "price" = None \/ d !! lit "price" = Some [] -> mrp = Some [])
  /\ (forall v, d !! lit "price" = Some v -> v <> [] ->
        mrp = Some (toFixed2 (SFmul 53 1024 (parseFloat v) twelve_tenths))
        /\ forall s m q,
             SFmul 53 1024 (parseFloat v) twelve_tenths
             = S754_finite s m (Zneg q) ->
             exists n : N,
               mrp = Some ((if s then lit "-" else []) ++ two_decimals n)
               /\ (2 ^ Zpos q * (2 * Z.of_N n - 1) <= 200 * Zpos m
                   < 2 ^ Zpos q * (2 * Z.of_N n + 1))%Z)
  /\ (forall n, 1 <= n <= 999 -> d !! lit "price" = Some (decimal n) ->
        mrp = Some (exact_mrp n))
  /\ (forall c, 1 <= c <= 999 -> d !! lit "price" = Some (two_decimals c) ->
        mrp = Some (two_decimals ((12 * c + 5) / 10))).
Proof.
  intros Hend Hpre extracted mrp.
  assert (extracted !! lit "price" = Some (lit "500")) as Hprice.
  { subst extracted.
    assert ((lit "price", pat_price) ∈ patterns) as Hin.
    { unfold patterns. rewrite !elem_of_cons. auto. }
    rewrite (extract_lookup _ _ _ Hin), (search_skip _ _ _ Hpre).
    by rewrite (search_here _ _ _ (match_price_500 tail Hend)). }
  assert ((fieldMapping extracted w).1 !! lit "MRP" = Some (lit "600.00"))
    as H600.
  { rewrite fieldMapping_mrp, Hprice. by vm_compute. }
  assert (forall v, d !! lit "price" = Some v -> v <> [] ->
            mrp = Some (mrp_of v)) as Hmrp.
  { intros v Hv Hne. subst mrp. rewrite fieldMapping_mrp, Hv.
    by destruct v. }
  split; [done|]. split; [done|].
  split; [|split; [|split; [|split]]].
  - intros p Hp. rewrite generatePlatformListing_run. cbn [fst snd].
    assert (PLATFORM_NAME p ++ lit "_MRP" = listing_key p (lit "MRP")) as ->
      by (by destruct p).
    by rewrite (listing_required p _ _ Hp), H600.
  - subst mrp. rewrite fieldMapping_mrp. by intros [->| ->].
  - intros v Hv Hne. rewrite (Hmrp v Hv Hne). split; [done|].
    intros s m q E. unfold mrp_of.
    change (mul (parseFloat v) (of_decimal false 12 (-1)))
      with (SFmul 53 1024 (parseFloat v) twelve_tenths).
    rewrite E.
    destruct (nearest_hundredths_bounds m q) as [Hpos Hb].
    exists (Z.to_N (nearest_hundredths m (Zneg q))).
    rewrite Z2N.id by done. split; [|done].
    rewrite <- fixed2_digits_two_decimals, Z2N.id by done. done.
  - intros n Hn Hv. rewrite (Hmrp _ Hv (decimal_nonempty n)). f_equal.
    apply (mrp_exact_upto_spec 999); [|done]. vm_compute. reflexivity.
  - intros c Hc Hv.
    rewrite (Hmrp _ Hv);
      [|unfold two_decimals; by destruct (decimal (c / 100))].
    f_equal. apply (mrp_nearest_upto_spec 999); [|done].
    vm_compute. reflexivity.
Qed.

Lemma price_500_gives_mrp_600_witness :
  number_ends (lit "\nColor: Blue") = true
  /\ no_match_before pat_price (lit "Brand: Acme\n")
       (lit "Price: 500" ++ lit "\nColor: Blue") = true
  /\ lit "MRP" ∈ required (PLATFORM_FIELDS amazon)
  /\ extractProductInfo
       (lit "Brand: Acme\n" ++ lit "Price: 500" ++ lit "\nColor: Blue")
       !! lit "price"
     = Some (lit "500")
  /\ (fieldMapping
        (extractProductInfo
           (lit "Brand: Acme\n" ++ lit "Price: 500" ++ lit "\nColor: Blue"))
        (World (clock_from 0) ∅)).1 !! lit "MRP"
     = Some (lit "600.00")
  /\ (generatePlatformListing
        (extractProductInfo
           (lit "Brand: Acme\n" ++ lit "Price: 500" ++ lit "\nColor: Blue"))
        amazon (World (clock_from 0) ∅)).1 !! lit "AMAZON_MRP"
     = Some (lit "600.00")
  /\ (fieldMapping {[ lit "price" := lit "499" ]}
        (World (clock_from 0) ∅)).1 !! lit "MRP"
     = Some (lit "598.80")
  /\ (fieldMapping {[ lit "price" := lit "0.99" ]}
        (World (clock_from 0) ∅)).1 !! lit "MRP"
     = Some (lit "1.19")
  /\ (exists n : N,
        (fieldMapping {[ lit "price" := lit "0.0125" ]}
           (World (clock_from 0) ∅)).1 !! lit "MRP"
        = Some (two_decimals n)
        /\ (2 ^ 59 * (2 * Z.of_N n - 1) <= 200 * 8646911284551352
            < 2 ^ 59 * (2 * Z.of_N n + 1))%Z).
Proof.
  assert (number_ends (lit "\nColor: Blue") = true) as H1 by reflexivity.
  assert (no_match_before pat_price (lit "Brand: Acme\n")
            (lit "Price: 500" ++ lit "\nColor: Blue") = true) as H2
    by (vm_compute; reflexivity).
  assert (lit "MRP" ∈ required (PLATFORM_FIELDS amazon)) as H3.
  { simpl. rewrite !elem_of_cons. auto 10. }
  split; [exact H1|]. split; [exact H2|]. split; [exact H3|].
  pose proof (price_500_gives_mrp_600 (lit "Brand: Acme\n")
                (lit "\nColor: Blue") ∅ (World (clock_from 0) ∅) H1 H2)
    as (Ha & Hb & Hc & _).
  split; [exact Ha|]. split; [exact Hb|]. split; [exact (Hc amazon H3)|].
  split.
  - pose proof (price_500_gives_mrp_600 (lit "Brand: Acme\n")
                  (lit "\nColor: Blue") {[ lit "price" := lit "499" ]}
                  (World (clock_from 0) ∅) H1 H2)
      as (_ & _ & _ & _ & _ & Hn & _).
    apply (Hn 499); [lia|]. apply lookup_singleton_eq.
  - pose proof (price_500_gives_mrp_600 (lit "Brand: Acme\n")
                  (lit "\nColor: Blue") {[ lit "price" := lit "0.99" ]}
                  (World (clock_from 0) ∅) H1 H2)
      as (_ & _ & _ & _ & _ & _ & Hc99).
    split; [apply (Hc99 99); [lia|]; apply lookup_singleton_eq|].
    pose proof (price_500_gives_mrp_600 (lit "Brand: Acme\n")
                  (lit "\nColor: Blue") {[ lit "price" := lit "0.0125" ]}
                  (World (clock_from 0) ∅) H1 H2)
      as (_ & _ & _ & _ & Hg & _).
    destruct (Hg (lit "0.0125") (lookup_singleton_eq _ _)
                ltac:(discriminate)) as [_ Hr].
    exact (Hr false 8646911284551352%positive 59%positive
             ltac:(vm_compute; reflexivity)).
Defined.

(** C3 as stated fails.  "Price: 5000" contains "Price: 500", and so does a
    text with an earlier price label; neither yields price = "500".  The
    product is not always the exact one rounded: 0.0125 * 1.2 is 0.015 and
    1.2875 * 1.2 is 1.545, each half way between two hundredths, and MRP
    is the lower neighbour 0.01 for the first and the upper neighbour 1.55
    for the second.  A price that is present but empty gives an empty MRP,
    not a number. *)
Lemma price_500_counterexample :
  includes (lit "Price: 5000") (lit "Price: 500") = true
  /\ extractProductInfo (lit "Price: 5000") !! lit "price"
     = Some (lit "5000")
  /\ (fieldMapping (extractProductInfo (lit "Price: 5000"))
        (World (clock_from 0) ∅)).1 !! lit "MRP"
     = Some (lit "6000.00")
  /\ extractProductInfo (lit "MRP: 700\nPrice: 500") !! lit "price"
     = Some (lit "700")
  /\ extractProductInfo (lit "Price: 0.0125") !! lit "price"
     = Some (lit "0.0125")
  /\ (fieldMapping (extractProductInfo (lit "Price: 0.0125"))
        (World (clock_from 0) ∅)).1 !! lit "MRP"
     = Some (lit "0.01")
  /\ extractProductInfo (lit "Price: 1.2875") !! lit "price"
     = Some (lit "1.2875")
  /\ (fieldMapping (extractProductInfo (lit "Price: 1.2875"))
        (World (clock_from 0) ∅)).1 !! lit "MRP"
     = Some (lit "1.55")
  /\ (125 * 12 = 1500 /\ 12875 * 12 = 154500)%Z
  /\ (fieldMapping {[ lit "price" := [] ]} (World (clock_from 0) ∅)).1
       !! lit "MRP"
     = Some [].
Proof. repeat split; by vm_compute. Qed.

(** ** The classifier *)

Lemma analyzeMessage_intent (m : jsstring) :
  (analyzeMessage m).1
  = if mentions m catalog then catalog
    else if mentions m task then task
    else if mentions m help then help
    else if mentions m analyze then analyze
    else general.
Proof.
  unfold analyzeMessage, mentions. cbn [fst keywords map existsb].
  by rewrite !orb_false_r, !orb_assoc.
Qed.

(** X17: the intent is that of the first rule, in the order catalog, task,
    help, analyze, one of whose keywords occurs in the lower-cased message,
    and general when none does: a keyword of an earlier rule shadows every
    later rule. *)
Theorem intent_is_first_matching_rule (m : jsstring) (i : intent) :
  (analyzeMessage m).1 = i
  <-> (i = general \/ mentions m i = true)
      /\ forall j, j ∈ tested_before i -> mentions m j = false.
Proof.
  rewrite analyzeMessage_intent. split.
  - intros Hi.
    destruct (mentions m catalog) eqn:Hc; [|destruct (mentions m task) eqn:Ht;
      [|destruct (mentions m help) eqn:Hh;
        [|destruct (mentions m analyze) eqn:Ha]]]; subst i;
      (split; [auto|]); cbn [tested_before]; intros j Hj;
      rewrite ?elem_of_cons, elem_of_nil in Hj;
      repeat destruct Hj as [->|Hj]; done.
  - intros [Hor Hall].
    destruct i; cbn [tested_before] in Hall;
      rewrite ?(Hall catalog), ?(Hall task), ?(Hall help), ?(Hall analyze)
        by (rewrite !elem_of_cons; auto);
      destruct Hor as [Hor|Hor]; try done; by rewrite Hor.
Qed.

Lemma analyzeMessage_platforms (m : jsstring) :
  (analyzeMessage m).2
  = match filter (names m) all_platforms, (analyzeMessage m).1 with
    | [], catalog => all_platforms
    | named, _ => named
    end.
Proof.
  assert (forall p l, filter (names m) (p :: l)
            = if includes (toLowerCase m) (platform_id p)
              then p :: filter (names m) l else filter (names m) l) as Hf.
  { intros p l. unfold names at 1.
    destruct (includes (toLowerCase m) (platform_id p)) eqn:E.
    - by rewrite filter_cons_True.
    - rewrite filter_cons_False; [done|]. by rewrite E. }
  unfold all_platforms. rewrite !Hf, filter_nil. cbn [platform_id].
  unfold analyzeMessage. cbn [fst snd].
  destruct (includes (toLowerCase m) (lit "amazon"));
    destruct (includes (toLowerCase m) (lit "flipkart"));
    destruct (includes (toLowerCase m) (lit "meesho"));
    destruct (includes (toLowerCase m) (lit "myntra")); reflexivity.
Qed.

(** X18: the platform list follows the order of the platform table, not the
    order in which the message names the platforms, and has no duplicates;
    it holds a platform exactly when the message names it or, for the
    catalog intent, when the message names none; so it is never empty for
    the catalog intent. *)
Theorem platforms_in_table_order (m : jsstring) :
  sublist (analyzeMessage m).2 all_platforms
  /\ (forall p, p ∈ (analyzeMessage m).2 <->
         names m p
         \/ ((analyzeMessage m).1 = catalog /\ forall q, ~ names m q))
  /\ ((analyzeMessage m).1 = catalog -> (analyzeMessage m).2 <> []).
Proof.
  rewrite analyzeMessage_platforms.
  assert (forall p, p ∈ all_platforms) as Hall.
  { intros p. unfold all_platforms. rewrite !elem_of_cons. destruct p; auto. }
  destruct (filter (names m) all_platforms) as [|p0 ps] eqn:E.
  - assert (forall q, ~ names m q) as Hnone.
    { intros q Hq. assert (q ∈ filter (names m) all_platforms) as Hin.
      { apply list_elem_of_filter. split; [done|apply Hall]. }
      rewrite E in Hin. by apply elem_of_nil in Hin. }
    destruct ((analyzeMessage m).1) eqn:Ei.
    { split; [done|]. split; [|done]. intros p.
      split; [auto|]. intros _. apply Hall. }
    all: split; [apply sublist_nil_l|]; split; [|done].
    all: intros p; rewrite elem_of_nil; split; [done|].
    all: intros [?|[? _]]; [by apply (Hnone p)|done].
  - assert (names m p0) as H0.
    { assert (p0 ∈ filter (names m) all_platforms) as Hin
        by (rewrite E; left).
      by apply list_elem_of_filter in Hin as [? _]. }
    destruct ((analyzeMessage m).1) eqn:Ei; rewrite <- E.
    all: split; [apply sublist_filter|]; split; [|by rewrite E].
    all: intros p; rewrite list_elem_of_filter.
    all: split; [by intros [? _]; left|].
    all: intros [?|[_ Hnone]]; [split; [done|apply Hall]|].
    all: by destruct (Hnone p0).
Qed.

(** ** More of the handler *)

(** The catalog branch with raw data, as one equation. *)
Lemma POST_appends (req : request) (w : world) :
  (analyzeMessage (message req)).1 = catalog -> rawData req <> [] ->
  let extracted := extractProductInfo (rawData req) in
  let ps := (analyzeMessage (message req)).2 in
  let l := fresh (dom (arrays w)) in
  (POST req w).1
  = {| response := catalog_response extracted ps; updatedCatalog := Some l |}
  /\ arrays (POST req w).2
     = <[l := (elements_of (catalogData req) w).1
              ++ [VStr <$> (merge_listings extracted ps w).1]]> (arrays w).
Proof.
  intros Hint Hraw. unfold POST.
  destruct (analyzeMessage (message req)) as [i ps]. cbn [fst snd] in *.
  subst i. destruct (rawData req) as [|c raw]; [done|].
  unfold bind, ret.
  pose proof (merge_listings_arrays (extractProductInfo (c :: raw)) ps w)
    as Harr.
  destruct (merge_listings (extractProductInfo (c :: raw)) ps w)
    as [newItem w1].
  cbn [fst snd] in *. unfold elements_of, alloc. cbn [fst snd arrays].
  by rewrite Harr.
Qed.

Lemma POST_frame (req : request) (w : world) :
  (analyzeMessage (message req)).1 <> catalog \/ rawData req = [] ->
  (POST req w).2 = w /\ updatedCatalog (POST req w).1 = None.
Proof.
  unfold POST. destruct (analyzeMessage (message req)) as [i ps].
  cbn [fst]. intros H.
  destruct i; unfold bind, ret, elements_of; cbn [fst snd]; try done.
  - destruct H as [H|H]; [done|by rewrite H].
  - by destruct (match catalogData req with
                 | Some l => default [] (arrays w !! l)
                 | None => []
                 end).
Qed.

(** X19: the handler changes its state exactly when it appends a row.  When
    the intent is not catalog, or the raw data is empty, the clock and the
    store are as they were and no updated catalog is returned; when the
    intent is catalog and the raw data is not empty, an updated catalog is
    returned at a location that was not in use, and the store has
    changed. *)
Theorem post_changes_state_only_to_append (req : request) (w : world) :
  ((analyzeMessage (message req)).1 <> catalog \/ rawData req = [] ->
   (POST req w).2 = w /\ updatedCatalog (POST req w).1 = None)
  /\ ((analyzeMessage (message req)).1 = catalog -> rawData req <> [] ->
      exists l, updatedCatalog (POST req w).1 = Some l
                /\ arrays w !! l = None
                /\ is_Some (arrays (POST req w).2 !! l)
                /\ (POST req w).2 <> w).
Proof.
  split; [apply POST_frame|]. intros Hint Hraw.
  destruct (POST_appends req w Hint Hraw) as [Hreply Harr].
  exists (fresh (dom (arrays w))). rewrite Hreply, Harr.
  assert (arrays w !! fresh (dom (arrays w)) = None) as Hfresh.
  { apply not_elem_of_dom. apply is_fresh. }
  split; [done|]. split; [done|]. split; [by rewrite lookup_insert_eq|].
  intros E. rewrite E in Harr.
  apply (f_equal (fun a => a !! fresh (dom (arrays w)))) in Harr.
  by rewrite lookup_insert_eq, Hfresh in Harr.
Qed.

(** X20: the catalog intent without raw data answers with the guidance text
    and changes nothing.  The platform list is never empty there, so the
    text always names the platforms it will format for, and its "all
    platforms" wording is never used. *)
Theorem guidance_names_the_platforms (req : request) (w : world) :
  (analyzeMessage (message req)).1 = catalog ->
  rawData req = [] ->
  exists p ps,
    (analyzeMessage (message req)).2 = p :: ps
    /\ POST req w
       = ({| response :=
               guidance_text (join (lit ", ") (map platform_id (p :: ps)));
             updatedCatalog := None |}, w).
Proof.
  intros Hint Hraw.
  pose proof (analyzeMessage_platforms (message req)) as Hps.
  unfold POST. destruct (analyzeMessage (message req)) as [i ps].
  cbn [fst snd] in *. subst i. rewrite Hraw.
  destruct ps as [|p ps].
  { by destruct (filter (names (message req)) all_platforms). }
  by exists p, ps.
Qed.

Lemma guidance_names_the_platforms_witness :
  (analyzeMessage (lit "a listing on meesho")).1 = catalog
  /\ exists p ps,
       (analyzeMessage (lit "a listing on meesho")).2 = p :: ps
       /\ POST {| message := lit "a listing on meesho"; catalogData := None;
                  rawData := [] |} (World (clock_from 0) ∅)
          = ({| response :=
                  guidance_text (join (lit ", ") (map platform_id (p :: ps)));
                updatedCatalog := None |}, World (clock_from 0) ∅).
Proof.
  assert ((analyzeMessage (lit "a listing on meesho")).1 = catalog) as H1
    by (vm_compute; reflexivity).
  split; [exact H1|].
  exact (guidance_names_the_platforms
           {| message := lit "a listing on meesho"; catalogData := None;
              rawData := [] |} (World (clock_from 0) ∅) H1 eq_refl).
Defined.

Lemma merge_listings_forEach (extracted : gmap jsstring jsstring)
    (ps : list platform) :
  merge_listings extracted ps
  = forEach (assign_listing extracted) ps extracted.
Proof. done. Qed.

Lemma forEach_cons_assign (extracted item : gmap jsstring jsstring)
    (p : platform) (ps : list platform) (w : world) :
  forEach (assign_listing extracted) (p :: ps) item w
  = forEach (assign_listing extracted) ps
      (listing_of p (fieldMapping extracted w).1 ∪ item)
      (fieldMapping extracted w).2.
Proof.
  simpl. unfold bind at 1. unfold assign_listing at 1.
  unfold bind at 1, ret at 1. by rewrite generatePlatformListing_run.
Qed.

(** A key that no merged platform writes keeps its value. *)
Lemma merge_listings_other (extracted item : gmap jsstring jsstring)
    (ps : list platform) (w : world) (k : jsstring) :
  (forall q, q ∈ ps -> k ∉ listing_key q <$> labels_of q) ->
  (forEach (assign_listing extracted) ps item w).1 !! k = item !! k.
Proof.
  revert item w. induction ps as [|q ps IH]; intros item w Hk; [done|].
  rewrite forEach_cons_assign, IH.
  - rewrite lookup_union, listing_no_other_key; [|apply Hk; by left].
    by destruct (item !! k).
  - intros q' Hq'. apply Hk. by right.
Qed.

(** The keys of two platforms never collide, and no listing key is one of
    the extractor's keys. *)
Lemma listing_keys_disjoint (p q : platform) (l : jsstring) :
  p <> q -> l ∈ labels_of p ->
  listing_key p l ∉ listing_key q <$> labels_of q.
Proof.
  intros Hpq Hl.
  assert (Forall (fun l => listing_key p l ∉ listing_key q <$> labels_of q)
            (labels_of p)) as HF.
  { destruct p, q; try done; apply (bool_decide_unpack _); by vm_compute. }
  rewrite Forall_forall in HF. by apply HF.
Qed.

Lemma extractor_keys_not_listing_keys (q : platform) (k : jsstring) :
  k ∈ patterns.*1 -> k ∉ listing_key q <$> labels_of q.
Proof.
  intros Hk.
  assert (Forall (fun k => k ∉ listing_key q <$> labels_of q) patterns.*1)
    as HF.
  { destruct q; apply (bool_decide_unpack _); by vm_compute. }
  rewrite Forall_forall in HF. by apply HF.
Qed.

Lemma listing_keys_not_extractor_keys (p : platform) (l : jsstring) :
  l ∈ labels_of p -> listing_key p l ∉ patterns.*1.
Proof.
  intros Hl.
  assert (Forall (fun l => listing_key p l ∉ patterns.*1) (labels_of p))
    as HF.
  { destruct p; apply (bool_decide_unpack _); by vm_compute. }
  rewrite Forall_forall in HF. by apply HF.
Qed.

(** Off the three identifier labels a listing does not depend on the
    clock. *)
Lemma listing_off_identifiers (d : gmap jsstring jsstring) (p : platform)
    (w1 w2 : world) (l : jsstring) :
  l ∈ labels_of p -> l ∉ identifier_labels ->
  listing_of p (fieldMapping d w1).1 !! listing_key p l
  = listing_of p (fieldMapping d w2).1 !! listing_key p l.
Proof.
  intros Hl Hid.
  destruct (fieldMapping_run d w1) as (s1 & p1 & y1 & -> & _).
  destruct (fieldMapping_run d w2) as (s2 & p2 & y2 & -> & _).
  unfold labels_of in Hl. apply elem_of_app in Hl as [Hl|Hl].
  - rewrite !listing_required by done.
    by rewrite (mapping_of_other d s1 p1 y1 s2 p2 y2 l Hid).
  - rewrite !listing_optional by done.
    by rewrite (mapping_of_other d s1 p1 y1 s2 p2 y2 l Hid).
Qed.

Lemma merge_listings_at (extracted item : gmap jsstring jsstring)
    (ps : list platform) (w w0 : world) (p : platform) (l : jsstring) :
  p ∈ ps -> l ∈ labels_of p -> l ∉ identifier_labels ->
  (forEach (assign_listing extracted) ps item w).1 !! listing_key p l
  = match listing_of p (fieldMapping extracted w0).1 !! listing_key p l with
    | Some v => Some v
    | None => item !! listing_key p l
    end.
Proof.
  intros Hp Hl Hid. revert item w Hp.
  induction ps as [|q ps IH]; intros item w Hp.
  { by apply elem_of_nil in Hp. }
  rewrite forEach_cons_assign.
  assert ((listing_of q (fieldMapping extracted w).1 ∪ item) !! listing_key p l
          = match (if decide (q = p)
                   then listing_of p (fieldMapping extracted w0).1
                          !! listing_key p l
                   else None) with
            | Some v => Some v
            | None => item !! listing_key p l
            end) as Hstep.
  { rewrite lookup_union. destruct (decide (q = p)) as [->|Hne].
    - rewrite (listing_off_identifiers extracted p w w0 l Hl Hid).
      by destruct (listing_of p _ !! listing_key p l),
        (item !! listing_key p l).
    - rewrite listing_no_other_key; [by destruct (item !! listing_key p l)|].
      apply listing_keys_disjoint; [by intros ->|done]. }
  destruct (decide (p ∈ ps)) as [Hin|Hout].
  - rewrite (IH _ _ Hin), Hstep.
    destruct (listing_of p (fieldMapping extracted w0).1 !! listing_key p l);
      [done|]. by destruct (decide (q = p)).
  - rewrite merge_listings_other.
    + rewrite Hstep. apply elem_of_cons in Hp as [->|Hp]; [|done].
      by rewrite decide_True.
    + intros q' Hq'. apply listing_keys_disjoint; [|done].
      intros ->. done.
Qed.

(** X23: the new row carries the extracted fields unchanged under their ten
    keys, and under the key of every label of every requested platform,
    the three identifier labels apart, exactly what
    [generatePlatformListing] returns for that platform (so an optional
    label without data is no key of the row); every required label of
    every requested platform, the identifier labels included, is a key of
    the row with a non-empty value. *)
Theorem row_holds_fields_and_listings
    (raw : jsstring) (ps : list platform) (w : world) :
  let extracted := extractProductInfo raw in
  let row := (merge_listings extracted ps w).1 in
  (forall k, k ∈ patterns.*1 -> row !! k = extracted !! k)
  /\ (forall p l, p ∈ ps -> l ∈ labels_of p -> l ∉ identifier_labels ->
        row !! listing_key p l
        = (generatePlatformListing extracted p w).1 !! listing_key p l)
  /\ (forall p l, p ∈ ps -> l ∈ required (PLATFORM_FIELDS p) ->
        exists v, row !! listing_key p l = Some v /\ v <> []).
Proof.
  intros extracted row. subst row.
  split; [|split; [|intros p l; apply merge_listings_required]];
    rewrite merge_listings_forEach.
  - intros k Hk. apply merge_listings_other.
    intros q _. by apply extractor_keys_not_listing_keys.
  - intros p l Hp Hl Hid.
    rewrite (merge_listings_at extracted extracted ps w w p l Hp Hl Hid).
    rewrite generatePlatformListing_run. cbn [fst].
    destruct (listing_of p (fieldMapping extracted w).1 !! listing_key p l)
      eqn:E; [done|].
    destruct (extracted !! listing_key p l) as [v|] eqn:Ev; [|done].
    subst extracted. apply extract_lookup_inv in Ev as (r & c & Hin & _).
    destruct (listing_keys_not_extractor_keys p l Hl).
    by apply (list_elem_of_fmap_2 fst _ (listing_key p l, r)).
Qed.

(** The row after the loop, at a key that no listing of the merged
    platforms has, and at a key of one of them. *)
Lemma merge_listings_row (extracted : gmap jsstring jsstring)
    (ps : list platform) (w : world) :
  let row := (merge_listings extracted ps w).1 in
  (forall k, (forall p, p ∈ ps -> k ∉ spelled_key p <$> labels_of p) ->
     row !! k = extracted !! k)
  /\ (forall p l, p ∈ ps -> l ∈ labels_of p -> l ∉ identifier_labels ->
        row !! spelled_key p l
        = match (generatePlatformListing extracted p w).1 !! spelled_key p l with
          | Some v => Some v
          | None => extracted !! spelled_key p l
          end).
Proof.
  intros row. subst row. rewrite merge_listings_forEach. split.
  - intros k Hk. apply merge_listings_other.
    intros q Hq. rewrite <- spelled_keys. by apply Hk.
  - intros p l Hp Hl Hid. rewrite <- (listing_key_spelled p l Hl).
    rewrite (merge_listings_at extracted extracted ps w w p l Hp Hl Hid).
    by rewrite generatePlatformListing_run.
Qed.

(** C7: when the intent is catalog and [rawData] is non-empty, the handler
    returns a reference to a new array, at a location that was not in use,
    that holds the rows of the input catalog (none when it is null)
    followed by exactly one new row, and every array of the store, the
    input catalog among them, is as it was.  The new row is the merge of
    the extracted fields with one listing per resolved platform, of which
    there is at least one: it has the extracted fields under their ten
    keys, and any key that is no listing key of a resolved platform as the
    extractor left it; under the key of every label of every resolved
    platform, the three identifier labels apart, what
    [generatePlatformListing] returns for that platform; and a non-empty
    value under the key of every required label.  For every other intent
    no updated catalog is returned and nothing changes. *)
Theorem catalog_intent_appends_one_row
    (req : request) (w : world) (rows : list CatalogItem) :
  (catalogData req = None /\ rows = []
   \/ exists l0, catalogData req = Some l0 /\ arrays w !! l0 = Some rows) ->
  let extracted := extractProductInfo (rawData req) in
  let ps := (analyzeMessage (message req)).2 in
  ((analyzeMessage (message req)).1 = catalog -> rawData req <> [] ->
   exists l row,
     updatedCatalog (POST req w).1 = Some l
     /\ arrays w !! l = None
     /\ arrays (POST req w).2 !! l = Some (rows ++ [VStr <$> row])
     /\ (forall l', l' <> l -> arrays (POST req w).2 !! l' = arrays w !! l')
     /\ ps <> []
     /\ (forall k, k ∈ extracted_keys -> row !! k = extracted !! k)
     /\ (forall k, (forall p, p ∈ ps -> k ∉ spelled_key p <$> labels_of p) ->
           row !! k = extracted !! k)
     /\ (forall p l, p ∈ ps -> l ∈ labels_of p -> l ∉ identifier_labels ->
           row !! spelled_key p l
           = (generatePlatformListing extracted p w).1 !! spelled_key p l)
     /\ (forall p l, p ∈ ps -> l ∈ required (PLATFORM_FIELDS p) ->
           exists v, row !! spelled_key p l = Some v /\ v <> []))
  /\ ((analyzeMessage (message req)).1 <> catalog ->
      updatedCatalog (POST req w).1 = None /\ (POST req w).2 = w).
Proof.
  intros Hrows extracted ps. split.
  - intros Hint Hraw.
    destruct (POST_appends req w Hint Hraw) as [Hreply Harr].
    fold extracted ps in Hreply, Harr.
    assert ((elements_of (catalogData req) w).1 = rows) as Hel.
    { unfold elements_of. cbn [fst].
      by destruct Hrows as [[-> ->]|(l0 & -> & ->)]. }
    rewrite Hel in Harr.
    destruct (merge_listings_row extracted ps w) as [Hother Hat].
    exists (fresh (dom (arrays w))), (merge_listings extracted ps w).1.
    rewrite Hreply, Harr. cbn [updatedCatalog].
    split; [done|]. split; [apply not_elem_of_dom, is_fresh|].
    split; [by rewrite lookup_insert_eq|].
    split; [by intros l' Hl'; rewrite lookup_insert_ne|].
    split; [|split; [|split; [done|split]]].
    + subst ps. pose proof (analyzeMessage_platforms (message req)) as Hps.
      rewrite Hint in Hps. rewrite Hps.
      by destruct (filter (names (message req)) all_platforms).
    + intros k Hk. apply Hother. intros p _. rewrite spelled_keys.
      by apply extractor_keys_not_listing_keys.
    + intros p l Hp Hl Hid. rewrite (Hat p l Hp Hl Hid).
      destruct ((generatePlatformListing extracted p w).1 !! spelled_key p l);
        [done|].
      destruct (extracted !! spelled_key p l) as [v|] eqn:Ev; [|done].
      subst extracted. apply extract_lookup_inv in Ev as (r & c & Hin & _).
      destruct (listing_keys_not_extractor_keys p l Hl).
      rewrite (listing_key_spelled p l Hl).
      by apply (list_elem_of_fmap_2 fst _ (spelled_key p l, r)).
    + intros p l Hp Hl.
      rewrite <- (listing_key_spelled p l (labels_required p l Hl)).
      by apply merge_listings_required.
  - intros Hint. destruct (POST_frame req w (or_introl Hint)) as [-> ->].
    done.
Qed.

Lemma catalog_intent_appends_one_row_witness :
  (analyzeMessage (lit "add this product to amazon")).1 = catalog
  /\ lit "Name: Mug" <> []
  /\ (analyzeMessage (lit "what tasks do I have")).1 <> catalog
  /\ one_cup !! 5%positive = Some [cup]
  /\ (exists l row,
        updatedCatalog
          (POST {| message := lit "add this product to amazon";
                   catalogData := Some 5%positive;
                   rawData := lit "Name: Mug" |}
             (World (clock_from 0) one_cup)).1 = Some l
        /\ arrays
             (POST {| message := lit "add this product to amazon";
                      catalogData := Some 5%positive;
                      rawData := lit "Name: Mug" |}
                (World (clock_from 0) one_cup)).2 !! l
           = Some [cup; VStr <$> row]
        /\ arrays
             (POST {| message := lit "add this product to amazon";
                      catalogData := Some 5%positive;
                      rawData := lit "Name: Mug" |}
                (World (clock_from 0) one_cup)).2 !! 5%positive
           = Some [cup]
        /\ row !! lit "name" = Some (lit "Mug")
        /\ row !! lit "AMAZON_Product_Name" = Some (lit "Mug")
        /\ row !! lit "AMAZON_Price" = Some (lit "[REQUIRED]")
        /\ row !! lit "AMAZON_Color" = None)
  /\ updatedCatalog
       (POST {| message := lit "what tasks do I have";
                catalogData := Some 5%positive; rawData := lit "Name: Mug" |}
          (World (clock_from 0) one_cup)).1 = None
  /\ (POST {| message := lit "what tasks do I have";
              catalogData := Some 5%positive; rawData := lit "Name: Mug" |}
        (World (clock_from 0) one_cup)).2 = World (clock_from 0) one_cup.
Proof.
  assert ((analyzeMessage (lit "add this product to amazon")).1 = catalog)
    as H1 by (vm_compute; reflexivity).
  assert (lit "Name: Mug" <> []) as H2 by discriminate.
  assert ((analyzeMessage (lit "what tasks do I have")).1 <> catalog)
    as H3 by (vm_compute; discriminate).
  assert (one_cup !! 5%positive = Some [cup]) as H4
    by apply lookup_singleton_eq.
  assert (amazon ∈ (analyzeMessage (lit "add this product to amazon")).2)
    as Hp by (apply (bool_decide_unpack _); vm_compute; reflexivity).
  assert (forall l, l ∈ map lit ["Product Name"; "Price"; "Color"]%string ->
            l ∈ labels_of amazon /\ l ∉ identifier_labels) as Hl.
  { intros l Hl. cbn [map] in Hl. rewrite !elem_of_cons, elem_of_nil in Hl.
    destruct Hl as [->|[->|[->|[]]]];
      (split; apply (bool_decide_unpack _); vm_compute; reflexivity). }
  split; [exact H1|]. split; [exact H2|]. split; [exact H3|].
  split; [exact H4|]. split.
  - destruct (proj1 (catalog_intent_appends_one_row
        {| message := lit "add this product to amazon";
           catalogData := Some 5%positive; rawData := lit "Name: Mug" |}
        (World (clock_from 0) one_cup) [cup]
        (or_intror (ex_intro _ 5%positive (conj eq_refl H4)))) H1 H2)
      as (l & row & Hloc & Hfresh & Harr & Hframe & _ & Hk & _ & Hat & _).
    exists l, row. split; [exact Hloc|]. split; [exact Harr|].
    split; [|split; [|split; [|split]]].
    + rewrite Hframe; [exact H4|]. intros <-.
      cbn [arrays] in Hfresh. rewrite H4 in Hfresh. discriminate.
    + rewrite (Hk (lit "name")); [vm_compute; reflexivity|].
      apply (bool_decide_unpack _); vm_compute; reflexivity.
    + refine (eq_trans (Hat amazon (lit "Product Name") Hp _ _) _);
        [apply Hl; cbn [map]; rewrite !elem_of_cons; auto ..|].
      vm_compute; reflexivity.
    + refine (eq_trans (Hat amazon (lit "Price") Hp _ _) _);
        [apply Hl; cbn [map]; rewrite !elem_of_cons; auto ..|].
      vm_compute; reflexivity.
    + refine (eq_trans (Hat amazon (lit "Color") Hp _ _) _);
        [apply Hl; cbn [map]; rewrite !elem_of_cons; auto ..|].
      vm_compute; reflexivity.
  - destruct (proj2 (catalog_intent_appends_one_row
        {| message := lit "what tasks do I have";
           catalogData := Some 5%positive; rawData := lit "Name: Mug" |}
        (World (clock_from 0) one_cup) [cup]
        (or_intror (ex_intro _ 5%positive (conj eq_refl H4)))) H3)
      as [Hnone Hsame].
    split; [exact Hnone|exact Hsame].
Defined.

Lemma missing_line_inj (p q : platform) (l l' : jsstring) :
  missing_line p l = missing_line q l' -> p = q /\ l = l'.
Proof.
  unfold missing_line.
  destruct p, q; cbn [platform_id]; eval_lits; simpl; intros H;
    try discriminate H; split; try done; by injection H.
Qed.

Lemma missing_fields_elem (item : CatalogItem) (ps : list platform)
    (p : platform) (l : jsstring) :
  missing_line p l ∈ missing_fields item ps
  <-> p ∈ ps /\ l ∈ required (PLATFORM_FIELDS p)
      /\ falsy (item !! listing_key p l)
         || is_required_mark (item !! listing_key p l) = true.
Proof.
  unfold missing_fields. rewrite list_elem_of_In, in_flat_map. split.
  - intros (q & Hq & Hin). apply in_flat_map in Hin as (l' & Hl' & Hin).
    destruct (falsy (item !! listing_key q l')
              || is_required_mark (item !! listing_key q l')) eqn:E;
      [|done].
    destruct Hin as [Heq|[]].
    apply missing_line_inj in Heq as [<- <-].
    by rewrite <- !list_elem_of_In in *.
  - intros (Hp & Hl & Hc). exists p. rewrite <- list_elem_of_In.
    split; [done|]. apply in_flat_map. exists l.
    rewrite <- list_elem_of_In. split; [done|]. rewrite Hc. by left.
Qed.

(** X24: the analysis of a row that the catalog branch made from raw data.
    For a platform whose listing was merged into the row, a required field
    is reported exactly when the platform is analysed and the row holds the
    sentinel under the field's key: no field is reported for being absent
    or empty.  For a platform whose listing was not merged, every required
    field is reported when the platform is analysed. *)
Theorem generated_row_analysis
    (raw : jsstring) (ps ps' : list platform) (w : world)
    (p : platform) (l : jsstring) :
  l ∈ required (PLATFORM_FIELDS p) ->
  let row : CatalogItem :=
    VStr <$> (merge_listings (extractProductInfo raw) ps w).1 in
  (p ∈ ps ->
   (missing_line p l ∈ missing_fields row ps'
    <-> p ∈ ps' /\ row !! listing_key p l = Some (VStr (lit "[REQUIRED]"))))
  /\ (p ∉ ps -> (missing_line p l ∈ missing_fields row ps' <-> p ∈ ps')).
Proof.
  intros Hl row. subst row. rewrite missing_fields_elem. split.
  - intros Hp.
    destruct (merge_listings_required (extractProductInfo raw) ps w p l Hp Hl)
      as (v & Hv & Hne).
    rewrite lookup_fmap, Hv. cbn [fmap option_fmap option_map].
    assert (falsy (Some (VStr v)) = false) as -> by (by destruct v).
    cbn [orb is_required_mark]. split.
    + intros (? & _ & E). split; [done|]. by rewrite (str_eqb_eq _ _ E).
    + intros (? & E). injection E as ->. split; [done|]. split; [done|].
      apply str_eqb_refl.
  - intros Hp.
    assert (l ∈ labels_of p) as Hlab.
    { unfold labels_of. apply elem_of_app. by left. }
    assert ((merge_listings (extractProductInfo raw) ps w).1 !! listing_key p l
            = None) as Hnone.
    { rewrite merge_listings_forEach, merge_listings_other.
      - destruct (extractProductInfo raw !! listing_key p l) as [v|] eqn:Ev;
          [|done].
        apply extract_lookup_inv in Ev as (r & c & Hin & _).
        destruct (listing_keys_not_extractor_keys p l Hlab).
        by apply (list_elem_of_fmap_2 fst _ (listing_key p l, r)).
      - intros q Hq. apply listing_keys_disjoint; [|done].
        intros ->. done. }
    rewrite lookup_fmap, Hnone. cbn. split; [by intros (? & _)|done].
Qed.

Lemma generated_row_analysis_witness :
  lit "Category" ∈ required (PLATFORM_FIELDS amazon)
  /\ amazon ∈ [amazon; meesho]
  /\ missing_line amazon (lit "Category")
       ∈ missing_fields
           (VStr <$> (merge_listings (extractProductInfo (lit "Name: Mug"))
                        [amazon; meesho] (World (clock_from 0) ∅)).1)
           [amazon].
Proof.
  assert (lit "Category" ∈ required (PLATFORM_FIELDS amazon)) as Hc.
  { simpl. rewrite !elem_of_cons. auto 10. }
  assert (amazon ∈ [amazon; meesho]) as Hp by (by left).
  split; [exact Hc|]. split; [exact Hp|].
  apply (proj1 (generated_row_analysis (lit "Name: Mug") [amazon; meesho]
                  [amazon] (World (clock_from 0) ∅) amazon (lit "Category") Hc)
           Hp).
  split; [by left|by vm_compute].
Defined.





(** ** The page and the handler *)

(** X26: one send, when the request body reaches the handler as the page
    built it (the handler finds the page's rows at [l]) and the reply
    reaches the page as the handler built it.  The page then shows the
    user's message and the handler's response, in this order, after the
    messages it had; the input is empty, the raw data is still there, and
    [isProcessing] is off.  Its catalog is the catalog it had, followed by
    one new row when the intent is catalog and the raw data is not empty,
    and unchanged otherwise. *)
Theorem send_round_trip
    (st : Page.state) (now1 now2 : Z) (w : world) (l : loc) :
  trim (Page.inputText st) <> [] ->
  arrays w !! l = Some (Page.catalogData st) ->
  let req := {| message := Page.inputText st; catalogData := Some l;
                rawData := Page.rawData st |} in
  let reply := (POST req w).1 in
  let received : Page.data :=
    (response reply,
     l' ← updatedCatalog reply; arrays (POST req w).2 !! l') in
  exists st1,
    Page.send_begin now1 st
    = Some (st1, (Page.inputText st, Page.catalogData st, Page.rawData st))
    /\ let st2 := Page.send_end now2 (Some received) st1 in
       Page.messages st2
       = Page.messages st
         ++ [ {| Page.role := Page.user; Page.content := Page.inputText st;
                 Page.timestamp := now1 |};
              {| Page.role := Page.assistant;
                 Page.content := response reply;
                 Page.timestamp := now2 |} ]
       /\ Page.inputText st2 = []
       /\ Page.rawData st2 = Page.rawData st
       /\ Page.isProcessing st2 = false
       /\ ((analyzeMessage (Page.inputText st)).1 = catalog ->
           Page.rawData st <> [] ->
           Page.catalogData st2
           = Page.catalogData st
             ++ [VStr <$> (merge_listings
                             (extractProductInfo (Page.rawData st))
                             (analyzeMessage (Page.inputText st)).2 w).1])
       /\ ((analyzeMessage (Page.inputText st)).1 <> catalog
           \/ Page.rawData st = [] ->
           Page.catalogData st2 = Page.catalogData st).
Proof.
  intros Hin Hrows req reply received.
  unfold Page.send_begin.
  destruct (trim (Page.inputText st)) as [|c t] eqn:Etrim; [done|].
  eexists. split; [reflexivity|]. cbv zeta.
  unfold Page.send_end, received. cbn [fst snd].
  assert (forall st' : Page.state,
            Page.messages (Page.speak (response reply) st') = Page.messages st'
            /\ Page.inputText (Page.speak (response reply) st')
               = Page.inputText st'
            /\ Page.rawData (Page.speak (response reply) st')
               = Page.rawData st'
            /\ Page.catalogData (Page.speak (response reply) st')
               = Page.catalogData st') as Hspeak.
  { intros st'. unfold Page.speak. by destruct (Page.synthesis st'). }
  split; [|split; [|split; [|split; [|split]]]].
  - destruct (l' ← updatedCatalog reply; arrays (POST req w).2 !! l');
      cbn; rewrite (proj1 (Hspeak _)); cbn; by rewrite <- app_assoc.
  - destruct (l' ← updatedCatalog reply; arrays (POST req w).2 !! l');
      cbn; by rewrite (proj1 (proj2 (Hspeak _))).
  - destruct (l' ← updatedCatalog reply; arrays (POST req w).2 !! l');
      cbn; by rewrite (proj1 (proj2 (proj2 (Hspeak _)))).
  - by destruct (l' ← updatedCatalog reply; arrays (POST req w).2 !! l').
  - intros Hint Hraw.
    destruct (POST_appends req w Hint Hraw) as [Hreply Harr].
    subst reply. rewrite Hreply, Harr. cbn [updatedCatalog mbind option_bind].
    rewrite lookup_insert_eq. cbn.
    unfold elements_of. cbn. by rewrite Hrows.
  - intros Hno. destruct (POST_frame req w Hno) as [_ Hnone].
    subst reply. rewrite Hnone. cbn.
    by rewrite (proj2 (proj2 (proj2 (Hspeak _)))).
Qed.

Lemma send_round_trip_witness :
  trim (lit "add this product to amazon") <> []
  /\ ({[ 1%positive := [] ]} : gmap loc (list CatalogItem)) !! 1%positive
     = Some []
  /\ exists st1,
       Page.send_begin 7
         {| Page.messages := []; Page.isListening := false;
            Page.isProcessing := false;
            Page.inputText := lit "add this product to amazon";
            Page.catalogData := []; Page.rawData := lit "Name: Mug";
            Page.activeTab := Page.chat; Page.synthesis := true;
            Page.spoken := [] |}
       = Some (st1, (lit "add this product to amazon", [], lit "Name: Mug")).
Proof.
  assert (trim (lit "add this product to amazon") <> []) as H1
    by (vm_compute; discriminate).
  assert (({[ 1%positive := [] ]} : gmap loc (list CatalogItem)) !! 1%positive
          = Some []) as H2 by apply lookup_singleton_eq.
  split; [exact H1|]. split; [exact H2|].
  destruct (send_round_trip
              {| Page.messages := []; Page.isListening := false;
                 Page.isProcessing := false;
                 Page.inputText := lit "add this product to amazon";
                 Page.catalogData := []; Page.rawData := lit "Name: Mug";
                 Page.activeTab := Page.chat; Page.synthesis := true;
                 Page.spoken := [] |}
              7 9 (World (clock_from 0) {[ 1%positive := [] ]}) 1%positive
              H1 H2) as (st1 & Hb & _).
  exists st1. exact Hb.
Defined.

(** X27: three of the four quick actions put a text in the input that the
    handler classifies as catalog.  Sent from any state of the page, "Show
    me Amazon listing requirements" never gets the requirements list and
    "Analyze my catalog for missing data" never gets an analysis: without
    raw data the reply is the listing guidance, and with raw data a row is
    appended to the catalog. *)
Theorem quick_actions_reach_catalog_branch
    (a : jsstring * Page.Tab) (st : Page.state) (c : option loc) (w : world) :
  a ∈ drop 1 Page.quick_actions ->
  let st' := Page.quick_action a st in
  let req := {| message := Page.inputText st'; catalogData := c;
                rawData := Page.rawData st' |} in
  Page.inputText st' = a.1
  /\ Page.rawData st' = Page.rawData st
  /\ (analyzeMessage (message req)).1 = catalog
  /\ (Page.rawData st = [] ->
      POST req w
      = ({| response := guidance_response (analyzeMessage (message req)).2;
            updatedCatalog := None |}, w))
  /\ (Page.rawData st <> [] ->
      updatedCatalog (POST req w).1 = Some (fresh (dom (arrays w)))).
Proof.
  intros Ha st' req. subst st' req. cbn [message rawData].
  assert ((analyzeMessage a.1).1 = catalog) as Hint.
  { unfold Page.quick_actions in Ha. cbn [drop] in Ha.
    rewrite !elem_of_cons, elem_of_nil in Ha.
    destruct Ha as [->|[->|[->|[]]]]; by vm_compute. }
  split; [done|]. split; [done|]. split; [done|]. split.
  - intros Hraw. unfold POST. cbn [message rawData Page.quick_action
      Page.setActiveTab Page.setInputText Page.inputText Page.rawData].
    destruct (analyzeMessage a.1) as [i ps]. cbn [fst snd] in *. subst i.
    by rewrite Hraw.
  - intros Hraw.
    pose proof (POST_appends
      {| message := Page.inputText (Page.quick_action a st); catalogData := c;
         rawData := Page.rawData (Page.quick_action a st) |} w Hint Hraw)
      as [Hreply _].
    by rewrite Hreply.
Qed.

Lemma quick_actions_reach_catalog_branch_witness :
  (lit "Analyze my catalog for missing data", Page.catalog)
    ∈ drop 1 Page.quick_actions
  /\ (analyzeMessage (lit "Analyze my catalog for missing data")).1 = catalog.
Proof.
  assert ((lit "Analyze my catalog for missing data", Page.catalog)
            ∈ drop 1 Page.quick_actions) as Ha.
  { unfold Page.quick_actions. cbn [drop]. rewrite !elem_of_cons. auto. }
  split; [exact Ha|].
  exact (proj1 (proj2 (proj2 (quick_actions_reach_catalog_branch
    (lit "Analyze my catalog for missing data", Page.catalog)
    {| Page.messages := []; Page.isListening := false;
       Page.isProcessing := false; Page.inputText := [];
       Page.catalogData := []; Page.rawData := [];
       Page.activeTab := Page.chat; Page.synthesis := true;
       Page.spoken := [] |}
    None (World (clock_from 0) ∅) Ha)))).
Defined.


(** ** The scenario of the specification *)

Example blue_shirt_on_amazon :
  let extracted :=
    extractProductInfo
      (lit "Product Name: Blue Shirt\nBrand: Acme\nPrice: 500\nColor: Blue") in
  let listing :=
    (generatePlatformListing extracted amazon (World (clock_from 0) ∅)).1 in
  listing !! lit "AMAZON_Product_Name" = Some (lit "Blue Shirt")
  /\ listing !! lit "AMAZON_Brand" = Some (lit "Acme")
  /\ listing !! lit "AMAZON_Price" = Some (lit "500")
  /\ listing !! lit "AMAZON_MRP" = Some (lit "600.00")
  /\ listing !! lit "AMAZON_Category" = Some (lit "[REQUIRED]")
  /\ listing !! lit "AMAZON_Color" = Some (lit "Blue")
  /\ listing !! lit "AMAZON_SKU" = Some (lit "SKU0")
  /\ listing !! lit "AMAZON_Weight" = None.
Proof. repeat split; by vm_compute. Qed.
